(** * numo-libsvm: the marshaling and dispatch layer of ext/numo/libsvm/libsvm.c

    A shallow embedding of the seven module functions of
    [ext/numo/libsvm/libsvm.c] ([train], [cross_validation], [predict],
    [decision_function], [predict_proba], [load_svm_model],
    [save_svm_model]) and the properties the specification states about
    them.

    The C functions run against three collaborators that are not part of
    the file: the LIBSVM engine ([svm.h]), the hash converters of the
    extension ([rb_hash_to_svm_parameter] and friends) and the Numo::NArray
    runtime.  They are interfaces here (type classes); every theorem holds
    for every implementation of them, and module [Fixture] gives one
    implementation on which the statements are run. *)

From Stdlib Require Import ZArith Lia Floats.
From stdpp Require Import base tactics option list strings.

Set Warnings "-register-all".
Local Open Scope Z_scope.

(** ** C integers *)

Module CInt.

Definition INT_MAX : Z := 2147483647.
Definition INT_MIN : Z := -2147483648.

(** [int] is 32 bits wide in two's complement; the result of an
    operation is reduced into the range of the type. *)
Definition wrap_int (z : Z) : Z :=
  (z + 2147483648) mod 4294967296 - 2147483648.

Definition int_add (a b : Z) : Z := wrap_int (a + b).
Definition int_sub (a b : Z) : Z := wrap_int (a - b).
Definition int_mul (a b : Z) : Z := wrap_int (a * b).
(** C99 division truncates toward zero. *)
Definition int_div (a b : Z) : Z := wrap_int (Z.quot a b).

(** [size_t] is 64 bits wide. *)
Definition size_t_of_int (z : Z) : Z := z mod 18446744073709551616.
Definition int_of_size_t (s : Z) : Z := wrap_int s.

Definition in_int (z : Z) : Prop := INT_MIN <= z <= INT_MAX.

End CInt.
Export CInt.

(** ** The LIBSVM data model (svm.h) *)

(** Modelled from the spec: the enumeration [svm_type] of svm.h, which is
    not part of the repository; section 3 lists its members in this
    order. *)
Definition C_SVC : Z := 0.
Definition NU_SVC : Z := 1.
Definition ONE_CLASS : Z := 2.
Definition EPSILON_SVR : Z := 3.
Definition NU_SVR : Z := 4.

Record svm_node : Type := mk_node { index : Z; value : float }.

Definition set_index (i : Z) (nd : svm_node) : svm_node :=
  {| index := i; value := value nd |}.
Definition set_value (v : float) (nd : svm_node) : svm_node :=
  {| index := index nd; value := v |}.

(** Modelled from the spec: [struct svm_parameter] of svm.h (section 3,
    Parameter Record). *)
Record svm_parameter : Type := mk_parameter {
  svm_type : Z;
  kernel_type : Z;
  degree : Z;
  gamma : float;
  coef0 : float;
  cache_size : float;
  eps : float;
  C : float;
  nr_weight : Z;
  weight_label : list Z;
  weight : list float;
  nu : float;
  p : float;
  shrinking : Z;
  probability : Z
}.

Record svm_problem : Type := mk_problem {
  prob_l : Z;
  prob_y : list float;
  prob_x : list (list svm_node)
}.

(** Modelled from the spec: [struct svm_model] of svm.h (section 3, Model
    Record); a pointer that may be [NULL] is an [option]. *)
Record svm_model : Type := mk_model {
  param : svm_parameter;
  nr_class : Z;
  l : Z;
  SV : list (list svm_node);
  sv_coef : list (list float);
  rho : list float;
  probA : option (list float);
  probB : option (list float);
  label : option (list Z);
  nSV : option (list Z);
  free_sv : Z
}.

(** [model->param = *param;] *)
Definition assign_param (model : svm_model) (prm : svm_parameter) : svm_model :=
  {| param := prm; nr_class := nr_class model; l := l model; SV := SV model;
     sv_coef := sv_coef model; rho := rho model; probA := probA model;
     probB := probB model; label := label model; nSV := nSV model;
     free_sv := free_sv model |}.

(** ** Ruby values *)

(** The storage of a Numo::DFloat: its shape, its elements in row-major
    order, and whether the object is contiguous (a view is not). *)
Record narray : Type := mk_narray {
  na_contiguous : bool;
  na_shape : list Z;
  na_data : list float
}.

Inductive VALUE : Type :=
  | Qnil
  | Qtrue
  | Qfalse
  | Fixnum (n : Z)
  | RFloat (f : float)
  | RString (s : string)
  | RArray (elts : list VALUE)
  | RHash (entries : list (string * VALUE))
  | DFloat (a : narray).

Inductive exn : Type :=
  | TypeError
  | ArgumentError
  | RangeError
  | CastError
  | ShapeMismatchError
  | InvalidParameterError
  | InvalidModelError
  | IOError.

(** ** Native allocations and engine calls *)

(** The native structures a call owns between [ALLOC] and [xfree]. *)
Inductive native : Type :=
  | N_parameter
  | N_model
  | N_engine_model
  | N_problem
  | N_problem_x
  | N_problem_y
  | N_problem_row (i : Z)
  | N_x_nodes
  | N_dec_values
  | N_probs.

#[global] Instance native_eq_dec : EqDecision native.
Proof. solve_decision. Defined.

(** What leaves the file: the calls into the Numo runtime that may raise
    and the entry points of the engine, with the structures handed over. *)
Inductive event : Type :=
  | E_cast (v : VALUE)
  | E_svm_set_print_string_function
  | E_svm_train (prob : svm_problem) (prm : svm_parameter)
  | E_svm_cross_validation (prob : svm_problem) (prm : svm_parameter) (nr_fold : Z)
  | E_svm_predict (model : svm_model) (x : list svm_node)
  | E_svm_predict_values (model : svm_model) (x : list svm_node)
  | E_svm_predict_probability (model : svm_model) (x : list svm_node)
  | E_svm_load_model (path : string)
  | E_svm_save_model (path : string) (model : svm_model)
  | E_svm_free_and_destroy_model (model : svm_model).

Record world : Type := mk_world {
  live : list native;
  trace : list event
}.

(** ** The monad of a call *)

(** A call returns, leaves through a Ruby exception ([rb_raise], a
    [longjmp] over the rest of the function), or runs into behaviour C
    leaves undefined (a read or write outside an object). *)
Inductive result (A : Type) : Type :=
  | Ok (a : A)
  | Raised (e : exn)
  | Undefined.
Arguments Ok {A} a.
Arguments Raised {A} e.
Arguments Undefined {A}.

Definition M (A : Type) : Type := world → world * result A.

Definition ret {A} (a : A) : M A := λ w, (w, Ok a).

Definition bind {A B} (m : M A) (f : A → M B) : M B :=
  λ w, match m w with
       | (w', Ok a) => f a w'
       | (w', Raised e) => (w', Raised e)
       | (w', Undefined) => (w', Undefined)
       end.

Declare Scope call_scope.
Delimit Scope call_scope with call.
Notation "x <- m ;; k" := (bind m (λ x, k))
  (at level 100, m at next level, right associativity) : call_scope.
Notation "m ;; k" := (bind m (λ _, k))
  (at level 100, right associativity) : call_scope.
Local Open Scope call_scope.

Definition rb_raise {A} (e : exn) : M A := λ w, (w, Raised e).
Definition undefined {A} : M A := λ w, (w, Undefined).

Definition lift {A} (r : result A) : M A := λ w, (w, r).

Definition emit (e : event) : M unit :=
  λ w, ({| live := live w; trace := trace w ++ [e] |}, Ok tt).

Definition alloc (k : native) : M unit :=
  λ w, ({| live := k :: live w; trace := trace w |}, Ok tt).

(** Removes the first occurrence of [k]; [None] when there is none. *)
Fixpoint release (k : native) (ks : list native) : option (list native) :=
  match ks with
  | [] => None
  | k' :: ks' =>
      if decide (k = k') then Some ks'
      else match release k ks' with
           | Some r => Some (k' :: r)
           | None => None
           end
  end.

(** [xfree(ptr)]; freeing what is not allocated is undefined. *)
Definition xfree (k : native) : M unit :=
  λ w, match release k (live w) with
       | Some ks => ({| live := ks; trace := trace w |}, Ok tt)
       | None => (w, Undefined)
       end.

(** [for (i = 0; i < n; i++) body]: the body runs [max n 0] times, and
    [i++] never wraps since [i < n <= INT_MAX]. *)
Fixpoint for_from {St : Type} (count : nat) (i : Z) (body : Z → St → M St) (s : St) : M St :=
  match count with
  | O => ret s
  | S count' => s' <- body i s ;; for_from count' (i + 1) body s'
  end.

Definition for_lt {St : Type} (n : Z) (body : Z → St → M St) (s : St) : M St :=
  for_from (Z.to_nat n) 0 body s.

(** ** Arrays in memory *)

(** [buf[i]] as an rvalue. *)
Definition load {A} (buf : list A) (i : Z) : M A :=
  if decide (0 <= i) then
    match buf !! Z.to_nat i with
    | Some v => ret v
    | None => undefined
    end
  else undefined.

(** [buf[i] = v]. *)
Definition store {A} (buf : list A) (i : Z) (v : A) : M (list A) :=
  if decide (0 <= i < Z.of_nat (length buf)) then ret (<[Z.to_nat i := v]> buf)
  else undefined.

(** [buf[i].field = v]. *)
Definition update {A} (buf : list A) (i : Z) (f : A → A) : M (list A) :=
  v <- load buf i ;; store buf i (f v).

(** A callee that writes [vals] to [&buf[off]], [&buf[off + 1]], ... *)
Definition store_many {A} (buf : list A) (off : Z) (vals : list A) : M (list A) :=
  if decide (0 <= off ∧ off + Z.of_nat (length vals) <= Z.of_nat (length buf)) then
    ret (take (Z.to_nat off) buf ++ vals ++ drop (Z.to_nat off + length vals) buf)
  else undefined.

(** ** The collaborators *)

(** The LIBSVM engine.  A function that fills a caller's buffer returns
    the values it writes, first cell first. *)
Class LibSVM : Type := {
  svm_train : svm_problem → svm_parameter → svm_model;
  svm_cross_validation : svm_problem → svm_parameter → Z → list float;
  svm_predict : svm_model → list svm_node → float;
  svm_predict_values : svm_model → list svm_node → list float;
  svm_predict_probability : svm_model → list svm_node → list float;
  svm_load_model : string → option svm_model;
  svm_save_model : string → svm_model → Z
}.

(** The converters of the extension between hashes and native structures;
    they live in other files of the repository. *)
Class Converter : Type := {
  rb_hash_to_svm_parameter : VALUE → result svm_parameter;
  rb_hash_to_svm_model : VALUE → result svm_model;
  svm_parameter_to_rb_hash : svm_parameter → list (string * VALUE);
  svm_model_to_rb_hash : svm_model → list (string * VALUE)
}.

(** The Ruby and Numo runtime: [Numo::DFloat.cast], and the content of
    memory that [xmalloc] hands out (cell by cell). *)
Class Runtime : Type := {
  numo_cDFloat_cast : VALUE → result narray;
  fresh_double : nat → float;
  fresh_node : nat → svm_node
}.

Section Extension.

Context `{!LibSVM, !Converter, !Runtime}.

(** *** Ruby and Numo helpers *)

(** [if (CLASS_OF(v) != numo_cDFloat) v = rb_funcall(numo_cDFloat, rb_intern("cast"), 1, v);] *)
Definition cast_unless_DFloat (v : VALUE) : M narray :=
  match v with
  | DFloat a => ret a
  | _ => emit (E_cast v) ;; lift (numo_cDFloat_cast v)
  end.

Definition nary_check_contiguous (a : narray) : bool := na_contiguous a.

(** Modelled from the spec: [nary_dup] of the Numo runtime, "materialize
    a contiguous copy if not already contiguous". *)
Definition nary_dup (a : narray) : narray :=
  {| na_contiguous := true; na_shape := na_shape a; na_data := na_data a |}.

(** [if (!RTEST(nary_check_contiguous(v))) v = nary_dup(v);] *)
Definition dup_unless_contiguous (a : narray) : narray :=
  if nary_check_contiguous a then a else nary_dup a.

(** [(int)NA_SHAPE(nary)[k]] *)
Definition NA_SHAPE (a : narray) (k : Z) : M Z :=
  s <- load (na_shape a) k ;; ret (int_of_size_t s).

Definition na_get_pointer_for_read (a : narray) : list float := na_data a.

(** [rb_narray_new(numo_cDFloat, ndim, shape)] followed by
    [na_get_pointer_for_write]: a contiguous array of the first [ndim]
    extents, its cells not yet written. *)
Definition rb_narray_new (ndim : nat) (shape : list Z) : narray :=
  {| na_contiguous := true;
     na_shape := take ndim shape;
     na_data := fresh_double <$> seq 0 (Z.to_nat (foldr Z.mul 1 (take ndim shape))) |}.

Definition na_get_pointer_for_write (a : narray) : list float := na_data a.

(** The array object after the writes through its data pointer. *)
Definition written (a : narray) (pt : list float) : VALUE :=
  DFloat {| na_contiguous := na_contiguous a; na_shape := na_shape a; na_data := pt |}.

(** [(long)d] for a Float [d]: the integral part, when there is one. *)
Definition truncate (f : float) : option Z :=
  match Prim2SF f with
  | S754_zero _ => Some 0
  | S754_finite s m e => Some ((if s then -1 else 1) * Z.shiftl (Z.pos m) e)
  | S754_infinity _ | S754_nan => None
  end.

(** [NUM2INT(v)]: an Integer or the integral part of a Float, inside the
    range of [int]. *)
Definition NUM2INT (v : VALUE) : M Z :=
  match v with
  | Fixnum n => if decide (INT_MIN <= n <= INT_MAX) then ret n else rb_raise RangeError
  | RFloat f =>
      match truncate f with
      | Some n => if decide (INT_MIN <= n <= INT_MAX) then ret n else rb_raise RangeError
      | None => rb_raise RangeError
      end
  | _ => rb_raise TypeError
  end.

(** [StringValuePtr(v)] *)
Definition StringValuePtr (v : VALUE) : M string :=
  match v with
  | RString s => ret s
  | _ => rb_raise TypeError
  end.

(** [ALLOC_N(type, n)]: [ruby_xmalloc2] refuses a negative count, which
    is out of range once converted to [size_t]; running out of memory is
    not modelled. *)
Definition ALLOC_N {A} (k : native) (fresh : nat → A) (n : Z) : M (list A) :=
  if decide (0 <= n) then alloc k ;; ret (fresh <$> seq 0 (Z.to_nat n))
  else rb_raise ArgumentError.

(** *** Converters and engine, as calls *)

(** Modelled from the spec: [rb_hash_to_svm_parameter] allocates the
    structure it returns (section 3, lifecycle of the Parameter Record). *)
Definition hash_to_svm_parameter (h : VALUE) : M svm_parameter :=
  prm <- lift (rb_hash_to_svm_parameter h) ;; alloc N_parameter ;; ret prm.

(** Modelled from the spec: [rb_hash_to_svm_model] allocates the
    structure it returns (section 3, lifecycle of the Model Record). *)
Definition hash_to_svm_model (h : VALUE) : M svm_model :=
  model <- lift (rb_hash_to_svm_model h) ;; alloc N_model ;; ret model.

(** Modelled from the spec: [xfree_svm_parameter], section 4.1 release. *)
Definition xfree_svm_parameter : M unit := xfree N_parameter.

(** Modelled from the spec: [xfree_svm_model], section 4.2 release. *)
Definition xfree_svm_model : M unit := xfree N_model.

Definition call_svm_train (prob : svm_problem) (prm : svm_parameter) : M svm_model :=
  emit (E_svm_train prob prm) ;; alloc N_engine_model ;; ret (svm_train prob prm).

Definition call_svm_cross_validation (prob : svm_problem) (prm : svm_parameter)
    (nr_fold : Z) (target : list float) : M (list float) :=
  emit (E_svm_cross_validation prob prm nr_fold) ;;
  store_many target 0 (svm_cross_validation prob prm nr_fold).

Definition call_svm_predict (model : svm_model) (x : list svm_node) : M float :=
  emit (E_svm_predict model x) ;; ret (svm_predict model x).

(** [svm_predict_values(model, x, &buf[off])] *)
Definition call_svm_predict_values (model : svm_model) (x : list svm_node)
    (buf : list float) (off : Z) : M (list float) :=
  emit (E_svm_predict_values model x) ;;
  store_many buf off (svm_predict_values model x).

Definition call_svm_predict_probability (model : svm_model) (x : list svm_node)
    (buf : list float) : M (list float) :=
  emit (E_svm_predict_probability model x) ;;
  store_many buf 0 (svm_predict_probability model x).

Definition call_svm_load_model (path : string) : M (option svm_model) :=
  emit (E_svm_load_model path) ;;
  match svm_load_model path with
  | Some model => alloc N_engine_model ;; ret (Some model)
  | None => ret None
  end.

Definition call_svm_save_model (path : string) (model : svm_model) : M Z :=
  emit (E_svm_save_model path model) ;; ret (svm_save_model path model).

(** [svm_free_and_destroy_model(&model)] *)
Definition svm_free_and_destroy_model (model : svm_model) : M unit :=
  emit (E_svm_free_and_destroy_model model) ;; xfree N_engine_model.

(** *** Dense rows to sparse nodes *)

(** The inner loop shared by all five conversion sites:
<<
    for (j = 0; j < n_features; j++) {
      x_nodes[j].index = j + 1;
      x_nodes[j].value = x_pt[i * n_features + j];
    }
>> *)
Definition fill_row (x_pt : list float) (i n_features : Z)
    (x_nodes : list svm_node) : M (list svm_node) :=
  for_lt n_features (λ j x_nodes,
    x_nodes <- update x_nodes j (set_index (int_add j 1)) ;;
    v <- load x_pt (int_add (int_mul i n_features) j) ;;
    update x_nodes j (set_value v)) x_nodes.

(** [x_nodes[n_features].index = -1; x_nodes[n_features].value = 0.0;] *)
Definition put_sentinel (x_nodes : list svm_node) (n_features : Z) : M (list svm_node) :=
  x_nodes <- update x_nodes n_features (set_index (-1)) ;;
  update x_nodes n_features (set_value 0%float).

(** "Prepare LIBSVM problem", the same text in [train] and
    [cross_validation].  [problem->x[i]] points to the node array of
    sample [i]; the array is entered in [problem_x] once it is filled. *)
Definition prepare_problem (x_pt y_pt : list float) (n_samples n_features : Z)
    : M svm_problem :=
  alloc N_problem ;;
  let problem_l := n_samples in
  problem_x <- ALLOC_N N_problem_x (λ _, []) n_samples ;;
  problem_y <- ALLOC_N N_problem_y fresh_double n_samples ;;
  xy <- for_lt n_samples (λ i xy,
    let problem_x := xy.1 in
    let problem_y := xy.2 in
    row <- ALLOC_N (N_problem_row i) fresh_node (int_add n_features 1) ;;
    row <- fill_row x_pt i n_features row ;;
    row <- put_sentinel row n_features ;;
    problem_x <- store problem_x i row ;;
    y_i <- load y_pt i ;;
    problem_y <- store problem_y i y_i ;;
    ret (problem_x, problem_y)) (problem_x, problem_y) ;;
  ret {| prob_l := problem_l; prob_y := xy.2; prob_x := xy.1 |}.

(** [for (i = 0; i < n_samples; xfree(problem->x[i++]));
    xfree(problem->x); xfree(problem->y); xfree(problem);] *)
Definition free_problem (n_samples : Z) : M unit :=
  for_lt n_samples (λ i _, xfree (N_problem_row i)) tt ;;
  xfree N_problem_x ;;
  xfree N_problem_y ;;
  xfree N_problem.

(** *** The module functions *)

Definition train (x_val y_val param_hash : VALUE) : M VALUE :=
  x_val <- cast_unless_DFloat x_val ;;
  y_val <- cast_unless_DFloat y_val ;;
  let x_val := dup_unless_contiguous x_val in
  let y_val := dup_unless_contiguous y_val in
  prm <- hash_to_svm_parameter param_hash ;;
  n_samples <- NA_SHAPE x_val 0 ;;
  n_features <- NA_SHAPE x_val 1 ;;
  let x_pt := na_get_pointer_for_read x_val in
  let y_pt := na_get_pointer_for_read y_val in
  problem <- prepare_problem x_pt y_pt n_samples n_features ;;
  emit E_svm_set_print_string_function ;;
  model <- call_svm_train problem prm ;;
  let model_hash := RHash (svm_model_to_rb_hash model) in
  svm_free_and_destroy_model model ;;
  free_problem n_samples ;;
  xfree_svm_parameter ;;
  ret model_hash.

Definition cross_validation (x_val y_val param_hash nr_folds : VALUE) : M VALUE :=
  n_folds <- NUM2INT nr_folds ;;
  x_val <- cast_unless_DFloat x_val ;;
  y_val <- cast_unless_DFloat y_val ;;
  let x_val := dup_unless_contiguous x_val in
  let y_val := dup_unless_contiguous y_val in
  prm <- hash_to_svm_parameter param_hash ;;
  n_samples <- NA_SHAPE x_val 0 ;;
  n_features <- NA_SHAPE x_val 1 ;;
  let x_pt := na_get_pointer_for_read x_val in
  let y_pt := na_get_pointer_for_read y_val in
  problem <- prepare_problem x_pt y_pt n_samples n_features ;;
  let t_shape := [size_t_of_int n_samples] in
  let t_val := rb_narray_new 1 t_shape in
  let t_pt := na_get_pointer_for_write t_val in
  emit E_svm_set_print_string_function ;;
  t_pt <- call_svm_cross_validation problem prm n_folds t_pt ;;
  free_problem n_samples ;;
  xfree_svm_parameter ;;
  ret (written t_val t_pt).

Definition predict (x_val param_hash model_hash : VALUE) : M VALUE :=
  x_val <- cast_unless_DFloat x_val ;;
  let x_val := dup_unless_contiguous x_val in
  prm <- hash_to_svm_parameter param_hash ;;
  model <- hash_to_svm_model model_hash ;;
  let model := assign_param model prm in
  n_samples <- NA_SHAPE x_val 0 ;;
  n_features <- NA_SHAPE x_val 1 ;;
  let y_shape := [size_t_of_int n_samples] in
  let y_val := rb_narray_new 1 y_shape in
  let y_pt := na_get_pointer_for_write y_val in
  let x_pt := na_get_pointer_for_read x_val in
  x_nodes <- ALLOC_N N_x_nodes fresh_node (int_add n_features 1) ;;
  x_nodes <- put_sentinel x_nodes n_features ;;
  st <- for_lt n_samples (λ i st,
    x_nodes <- fill_row x_pt i n_features st.1 ;;
    y_i <- call_svm_predict model x_nodes ;;
    y_pt <- store st.2 i y_i ;;
    ret (x_nodes, y_pt)) (x_nodes, y_pt) ;;
  xfree N_x_nodes ;;
  xfree_svm_model ;;
  xfree_svm_parameter ;;
  ret (written y_val st.2).

(** [model->param.svm_type == ONE_CLASS || ... == EPSILON_SVR || ... == NU_SVR] *)
Definition one_value_per_sample (model : svm_model) : bool :=
  bool_decide (svm_type (param model) = ONE_CLASS)
  || bool_decide (svm_type (param model) = EPSILON_SVR)
  || bool_decide (svm_type (param model) = NU_SVR).

(** [model->nr_class * (model->nr_class - 1) / 2] *)
Definition n_pairs (model : svm_model) : Z :=
  int_div (int_mul (nr_class model) (int_sub (nr_class model) 1)) 2.

Definition decision_function (x_val param_hash model_hash : VALUE) : M VALUE :=
  x_val <- cast_unless_DFloat x_val ;;
  let x_val := dup_unless_contiguous x_val in
  prm <- hash_to_svm_parameter param_hash ;;
  model <- hash_to_svm_model model_hash ;;
  let model := assign_param model prm in
  n_samples <- NA_SHAPE x_val 0 ;;
  n_features <- NA_SHAPE x_val 1 ;;
  let y_shape :=
    if one_value_per_sample model then [size_t_of_int n_samples; 1]
    else [size_t_of_int n_samples; size_t_of_int (n_pairs model)] in
  let y_val :=
    if one_value_per_sample model then rb_narray_new 1 y_shape
    else rb_narray_new 2 y_shape in
  let x_pt := na_get_pointer_for_read x_val in
  let y_pt := na_get_pointer_for_write y_val in
  y_pt <-
    (if one_value_per_sample model then
       x_nodes <- ALLOC_N N_x_nodes fresh_node (int_add n_features 1) ;;
       x_nodes <- put_sentinel x_nodes n_features ;;
       st <- for_lt n_samples (λ i st,
         x_nodes <- fill_row x_pt i n_features st.1 ;;
         y_pt <- call_svm_predict_values model x_nodes st.2 i ;;
         ret (x_nodes, y_pt)) (x_nodes, y_pt) ;;
       xfree N_x_nodes ;;
       ret st.2
     else
       y_cols <- (s <- load y_shape 1 ;; ret (int_of_size_t s)) ;;
       dec_values <- ALLOC_N N_dec_values fresh_double y_cols ;;
       x_nodes <- ALLOC_N N_x_nodes fresh_node (int_add n_features 1) ;;
       x_nodes <- put_sentinel x_nodes n_features ;;
       st <- for_lt n_samples (λ i st,
         x_nodes <- fill_row x_pt i n_features st.1.1 ;;
         dec_values <- call_svm_predict_values model x_nodes st.1.2 0 ;;
         y_pt <- for_lt y_cols (λ j y_pt,
           d_j <- load dec_values j ;;
           store y_pt (int_add (int_mul i y_cols) j) d_j) st.2 ;;
         ret (x_nodes, dec_values, y_pt)) (x_nodes, dec_values, y_pt) ;;
       xfree N_x_nodes ;;
       xfree N_dec_values ;;
       ret st.2) ;;
  xfree_svm_model ;;
  xfree_svm_parameter ;;
  ret (written y_val y_pt).

(** [(svm_type == C_SVC || svm_type == NU_SVC) && model->probA != NULL && model->probB != NULL] *)
Definition has_probability (model : svm_model) : bool :=
  (bool_decide (svm_type (param model) = C_SVC)
   || bool_decide (svm_type (param model) = NU_SVC))
  && bool_decide (probA model ≠ None) && bool_decide (probB model ≠ None).

Definition predict_proba (x_val param_hash model_hash : VALUE) : M VALUE :=
  let y_val := Qnil in
  prm <- hash_to_svm_parameter param_hash ;;
  model <- hash_to_svm_model model_hash ;;
  let model := assign_param model prm in
  y_val <-
    (if has_probability model then
       x_val <- cast_unless_DFloat x_val ;;
       let x_val := dup_unless_contiguous x_val in
       n_samples <- NA_SHAPE x_val 0 ;;
       n_features <- NA_SHAPE x_val 1 ;;
       let y_shape := [size_t_of_int n_samples; size_t_of_int (nr_class model)] in
       let y_val := rb_narray_new 2 y_shape in
       let x_pt := na_get_pointer_for_read x_val in
       let y_pt := na_get_pointer_for_write y_val in
       probs <- ALLOC_N N_probs fresh_double (nr_class model) ;;
       x_nodes <- ALLOC_N N_x_nodes fresh_node (int_add n_features 1) ;;
       x_nodes <- put_sentinel x_nodes n_features ;;
       st <- for_lt n_samples (λ i st,
         x_nodes <- fill_row x_pt i n_features st.1.1 ;;
         probs <- call_svm_predict_probability model x_nodes st.1.2 ;;
         y_pt <- for_lt (nr_class model) (λ j y_pt,
           p_j <- load probs j ;;
           store y_pt (int_add (int_mul i (nr_class model)) j) p_j) st.2 ;;
         ret (x_nodes, probs, y_pt)) (x_nodes, probs, y_pt) ;;
       xfree N_x_nodes ;;
       xfree N_probs ;;
       ret (written y_val st.2)
     else ret y_val) ;;
  xfree_svm_model ;;
  xfree_svm_parameter ;;
  ret y_val.

Definition load_svm_model (filename : VALUE) : M VALUE :=
  path <- StringValuePtr filename ;;
  model <- call_svm_load_model path ;;
  hashes <-
    match model with
    | Some model =>
        let param_hash := RHash (svm_parameter_to_rb_hash (param model)) in
        let model_hash := RHash (svm_model_to_rb_hash model) in
        svm_free_and_destroy_model model ;;
        ret (param_hash, model_hash)
    | None => ret (Qnil, Qnil)
    end ;;
  ret (RArray [hashes.1; hashes.2]).

Definition save_svm_model (filename param_hash model_hash : VALUE) : M VALUE :=
  prm <- hash_to_svm_parameter param_hash ;;
  model <- hash_to_svm_model model_hash ;;
  let model := assign_param model prm in
  path <- StringValuePtr filename ;;
  res <- call_svm_save_model path model ;;
  xfree_svm_model ;;
  xfree_svm_parameter ;;
  ret (if decide (res < 0) then Qfalse else Qtrue).

(** *** Per-row allocation, as the specification words it

    Section 4.3 describes [toSparseSample(denseRow)] as a conversion
    that yields a node array per row; the definitions below follow
    those words, with a fresh node array for every row.  They are what
    the buffer-reusing loops above are compared with. *)

(** 1-based indices [1..n_features] with the values of the row, then
    the sentinel [{-1, 0.0}]. *)
Definition dense_nodes (denseRow : list float) : list svm_node :=
  imap (λ j v, {| index := Z.of_nat j + 1; value := v |}) denseRow.

Definition sentinel : svm_node := {| index := -1; value := 0%float |}.

Definition toSparseSample (denseRow : list float) : list svm_node :=
  dense_nodes denseRow ++ [sentinel].

(** Row [i] of a row-major matrix with [n_features] columns. *)
Definition dense_row (x_pt : list float) (n_features i : Z) : list float :=
  take (Z.to_nat n_features) (drop (Z.to_nat (i * n_features)) x_pt).

Definition fresh_sparse_sample (x_pt : list float) (n_features i : Z)
    : M (list svm_node) :=
  alloc N_x_nodes ;; ret (toSparseSample (dense_row x_pt n_features i)).

Definition predict_naive (x_val param_hash model_hash : VALUE) : M VALUE :=
  x_val <- cast_unless_DFloat x_val ;;
  let x_val := dup_unless_contiguous x_val in
  prm <- hash_to_svm_parameter param_hash ;;
  model <- hash_to_svm_model model_hash ;;
  let model := assign_param model prm in
  n_samples <- NA_SHAPE x_val 0 ;;
  n_features <- NA_SHAPE x_val 1 ;;
  let y_val := rb_narray_new 1 [size_t_of_int n_samples] in
  let y_pt := na_get_pointer_for_write y_val in
  let x_pt := na_get_pointer_for_read x_val in
  y_pt <- for_lt n_samples (λ i y_pt,
    x_nodes <- fresh_sparse_sample x_pt n_features i ;;
    y_i <- call_svm_predict model x_nodes ;;
    xfree N_x_nodes ;;
    store y_pt i y_i) y_pt ;;
  xfree_svm_model ;;
  xfree_svm_parameter ;;
  ret (written y_val y_pt).

Definition decision_function_naive (x_val param_hash model_hash : VALUE) : M VALUE :=
  x_val <- cast_unless_DFloat x_val ;;
  let x_val := dup_unless_contiguous x_val in
  prm <- hash_to_svm_parameter param_hash ;;
  model <- hash_to_svm_model model_hash ;;
  let model := assign_param model prm in
  n_samples <- NA_SHAPE x_val 0 ;;
  n_features <- NA_SHAPE x_val 1 ;;
  let y_shape :=
    if one_value_per_sample model then [size_t_of_int n_samples; 1]
    else [size_t_of_int n_samples; size_t_of_int (n_pairs model)] in
  let y_val :=
    if one_value_per_sample model then rb_narray_new 1 y_shape
    else rb_narray_new 2 y_shape in
  let x_pt := na_get_pointer_for_read x_val in
  let y_pt := na_get_pointer_for_write y_val in
  y_pt <-
    (if one_value_per_sample model then
       for_lt n_samples (λ i y_pt,
         x_nodes <- fresh_sparse_sample x_pt n_features i ;;
         y_pt <- call_svm_predict_values model x_nodes y_pt i ;;
         xfree N_x_nodes ;;
         ret y_pt) y_pt
     else
       y_cols <- (s <- load y_shape 1 ;; ret (int_of_size_t s)) ;;
       dec_values <- ALLOC_N N_dec_values fresh_double y_cols ;;
       st <- for_lt n_samples (λ i st,
         x_nodes <- fresh_sparse_sample x_pt n_features i ;;
         dec_values <- call_svm_predict_values model x_nodes st.1 0 ;;
         xfree N_x_nodes ;;
         y_pt <- for_lt y_cols (λ j y_pt,
           d_j <- load dec_values j ;;
           store y_pt (int_add (int_mul i y_cols) j) d_j) st.2 ;;
         ret (dec_values, y_pt)) (dec_values, y_pt) ;;
       xfree N_dec_values ;;
       ret st.2) ;;
  xfree_svm_model ;;
  xfree_svm_parameter ;;
  ret (written y_val y_pt).

Definition predict_proba_naive (x_val param_hash model_hash : VALUE) : M VALUE :=
  prm <- hash_to_svm_parameter param_hash ;;
  model <- hash_to_svm_model model_hash ;;
  let model := assign_param model prm in
  y_val <-
    (if has_probability model then
       x_val <- cast_unless_DFloat x_val ;;
       let x_val := dup_unless_contiguous x_val in
       n_samples <- NA_SHAPE x_val 0 ;;
       n_features <- NA_SHAPE x_val 1 ;;
       let y_shape := [size_t_of_int n_samples; size_t_of_int (nr_class model)] in
       let y_val := rb_narray_new 2 y_shape in
       let x_pt := na_get_pointer_for_read x_val in
       let y_pt := na_get_pointer_for_write y_val in
       probs <- ALLOC_N N_probs fresh_double (nr_class model) ;;
       st <- for_lt n_samples (λ i st,
         x_nodes <- fresh_sparse_sample x_pt n_features i ;;
         probs <- call_svm_predict_probability model x_nodes st.1 ;;
         xfree N_x_nodes ;;
         y_pt <- for_lt (nr_class model) (λ j y_pt,
           p_j <- load probs j ;;
           store y_pt (int_add (int_mul i (nr_class model)) j) p_j) st.2 ;;
         ret (probs, y_pt)) (probs, y_pt) ;;
       xfree N_probs ;;
       ret (written y_val st.2)
     else ret Qnil) ;;
  xfree_svm_model ;;
  xfree_svm_parameter ;;
  ret y_val.

End Extension.

(** ** A concrete set of collaborators *)

Module Fixture.

Definition and_then {A B} (r : result A) (f : A → result B) : result B :=
  match r with
  | Ok a => f a
  | Raised e => Raised e
  | Undefined => Undefined
  end.

(** [rb_hash_aref(hash, ID2SYM(rb_intern(key)))] *)
Fixpoint rb_hash_aref (h : list (string * VALUE)) (key : string) : VALUE :=
  match h with
  | [] => Qnil
  | (k, v) :: h' => if String.eqb k key then v else rb_hash_aref h' key
  end.

Definition int_or (default : Z) (v : VALUE) : result Z :=
  match v with
  | Qnil => Ok default
  | Fixnum n => Ok n
  | _ => Raised TypeError
  end.

Definition dbl_or (default : float) (v : VALUE) : result float :=
  match v with
  | Qnil => Ok default
  | RFloat f => Ok f
  | _ => Raised TypeError
  end.

Definition flag (v : VALUE) : Z :=
  match v with
  | Qnil | Qfalse => 0
  | _ => 1
  end.

Fixpoint ints (vs : list VALUE) : result (list Z) :=
  match vs with
  | [] => Ok []
  | Fixnum n :: vs' => and_then (ints vs') (λ ns, Ok (n :: ns))
  | _ :: _ => Raised TypeError
  end.

Definition int_vec (v : VALUE) : result (option (list Z)) :=
  match v with
  | Qnil => Ok None
  | RArray vs => and_then (ints vs) (λ ns, Ok (Some ns))
  | _ => Raised TypeError
  end.

Definition dbl_vec (v : VALUE) : result (option (list float)) :=
  match v with
  | Qnil => Ok None
  | DFloat a => Ok (Some (na_data a))
  | _ => Raised TypeError
  end.

(** The rows of a two-dimensional Numo::DFloat. *)
Definition dbl_rows (a : narray) : list (list float) :=
  match na_shape a with
  | [n; d] => (λ i, dense_row (na_data a) d (Z.of_nat i)) <$> seq 0 (Z.to_nat n)
  | _ => []
  end.

Definition dbl_mat (v : VALUE) : result (option (list (list float))) :=
  match v with
  | Qnil => Ok None
  | DFloat a => Ok (Some (dbl_rows a))
  | _ => Raised TypeError
  end.

(** Modelled from the spec: the parameter decoder of section 4.1, which
    is in the converter sources of the extension. *)
Definition decode_parameter (v : VALUE) : result svm_parameter :=
  match v with
  | RHash h =>
      and_then (int_or 0 (rb_hash_aref h "svm_type")) (λ svm_type,
      and_then (int_or 0 (rb_hash_aref h "kernel_type")) (λ kernel_type,
      and_then (int_or 0 (rb_hash_aref h "degree")) (λ degree,
      and_then (dbl_or 0 (rb_hash_aref h "gamma")) (λ gamma,
      and_then (dbl_or 0 (rb_hash_aref h "coef0")) (λ coef0,
      and_then (dbl_or 0 (rb_hash_aref h "cache_size")) (λ cache_size,
      and_then (dbl_or 0 (rb_hash_aref h "eps")) (λ eps,
      and_then (dbl_or 0 (rb_hash_aref h "C")) (λ C,
      and_then (dbl_or 0 (rb_hash_aref h "nu")) (λ nu,
      and_then (dbl_or 0 (rb_hash_aref h "p")) (λ p,
      and_then (int_vec (rb_hash_aref h "weight_label")) (λ weight_label,
      and_then (dbl_vec (rb_hash_aref h "weight")) (λ weight,
      if negb (bool_decide (0 <= svm_type <= 4) && bool_decide (0 <= kernel_type <= 4))
      then Raised InvalidParameterError
      else
        let scalars wl wv :=
          {| svm_type := svm_type; kernel_type := kernel_type; degree := degree;
             gamma := gamma; coef0 := coef0; cache_size := cache_size; eps := eps;
             C := C; nr_weight := Z.of_nat (length wl); weight_label := wl;
             weight := wv; nu := nu; p := p;
             shrinking := flag (rb_hash_aref h "shrinking");
             probability := flag (rb_hash_aref h "probability") |} in
        match weight_label, weight with
        | Some wl, Some wv =>
            if bool_decide (length wl = length wv) then Ok (scalars wl wv)
            else Raised InvalidParameterError
        | _, _ => Ok (scalars [] [])
        end))))))))))))
  | _ => Raised TypeError
  end.

(** Modelled from the spec: the model decoder of section 4.2. *)
Definition decode_model (v : VALUE) : result svm_model :=
  match v with
  | RHash h =>
      and_then (match rb_hash_aref h "param" with
                | Qnil => decode_parameter (RHash [])
                | ph => decode_parameter ph
                end) (λ param,
      and_then (int_or 0 (rb_hash_aref h "nr_class")) (λ nr_class,
      and_then (int_or 0 (rb_hash_aref h "l")) (λ l,
      and_then (dbl_mat (rb_hash_aref h "SV")) (λ SV,
      and_then (dbl_mat (rb_hash_aref h "sv_coef")) (λ sv_coef,
      and_then (dbl_vec (rb_hash_aref h "rho")) (λ rho,
      and_then (dbl_vec (rb_hash_aref h "probA")) (λ probA,
      and_then (dbl_vec (rb_hash_aref h "probB")) (λ probB,
      and_then (int_vec (rb_hash_aref h "label")) (λ label,
      and_then (int_vec (rb_hash_aref h "nSV")) (λ nSV,
      match SV, sv_coef, rho with
      | Some SV, Some sv_coef, Some rho =>
          if bool_decide (Z.of_nat (length SV) = l)
             && bool_decide (Z.of_nat (length sv_coef) = nr_class - 1)
             && forallb (λ row, bool_decide (Z.of_nat (length row) = l)) sv_coef
             && bool_decide (Z.of_nat (length rho) = nr_class * (nr_class - 1) / 2)
          then Ok {| param := param; nr_class := nr_class; l := l;
                     SV := toSparseSample <$> SV; sv_coef := sv_coef; rho := rho;
                     probA := probA; probB := probB; label := label; nSV := nSV;
                     free_sv := 1 |}
          else Raised InvalidModelError
      | _, _, _ => Raised InvalidModelError
      end))))))))))
  | _ => Raised TypeError
  end.

Definition vec_value (vs : list float) : VALUE :=
  DFloat {| na_contiguous := true; na_shape := [Z.of_nat (length vs)]; na_data := vs |}.

Definition mat_value (rows : list (list float)) : VALUE :=
  DFloat {| na_contiguous := true;
            na_shape := [Z.of_nat (length rows);
                         Z.of_nat (length (default [] (head rows)))];
            na_data := concat rows |}.

Definition optional (key : string) (v : option VALUE) : list (string * VALUE) :=
  match v with
  | Some v => [(key, v)]
  | None => []
  end.

(** Modelled from the spec: the parameter encoder of section 4.1. *)
Definition encode_parameter (prm : svm_parameter) : list (string * VALUE) :=
  [ ("svm_type", Fixnum (svm_type prm)); ("kernel_type", Fixnum (kernel_type prm));
    ("degree", Fixnum (degree prm)); ("gamma", RFloat (gamma prm));
    ("coef0", RFloat (coef0 prm)); ("cache_size", RFloat (cache_size prm));
    ("eps", RFloat (eps prm)); ("C", RFloat (C prm)); ("nu", RFloat (nu prm));
    ("p", RFloat (p prm));
    ("shrinking", if decide (shrinking prm = 0) then Qfalse else Qtrue);
    ("probability", if decide (probability prm = 0) then Qfalse else Qtrue) ]
  ++ (if decide (0 < nr_weight prm)
      then [ ("weight_label", RArray (Fixnum <$> weight_label prm));
             ("weight", vec_value (weight prm)) ]
      else []).

(** Modelled from the spec: the model encoder of section 4.2. *)
Definition encode_model (model : svm_model) : list (string * VALUE) :=
  [ ("param", RHash (encode_parameter (param model)));
    ("nr_class", Fixnum (nr_class model)); ("l", Fixnum (l model));
    ("SV", mat_value ((λ nodes, value <$> take (length nodes - 1) nodes) <$> SV model));
    ("sv_coef", mat_value (sv_coef model)); ("rho", vec_value (rho model)) ]
  ++ optional "probA" (vec_value <$> probA model)
  ++ optional "probB" (vec_value <$> probB model)
  ++ optional "label" ((λ ns, RArray (Fixnum <$> ns)) <$> label model)
  ++ optional "nSV" ((λ ns, RArray (Fixnum <$> ns)) <$> nSV model)
  ++ [ ("free_sv", Fixnum (free_sv model)) ].

#[local] Instance converter : Converter := {|
  rb_hash_to_svm_parameter := decode_parameter;
  rb_hash_to_svm_model := decode_model;
  svm_parameter_to_rb_hash := encode_parameter;
  svm_model_to_rb_hash := encode_model
|}.

(** An engine that answers with the first feature of the sample. *)
Definition first_feature (x : list svm_node) : float :=
  match x with
  | nd :: _ => value nd
  | [] => 0%float
  end.

Definition stored_model : svm_model :=
  {| param := {| svm_type := C_SVC; kernel_type := 0; degree := 0; gamma := 0;
                 coef0 := 0; cache_size := 0; eps := 0; C := 1; nr_weight := 0;
                 weight_label := []; weight := []; nu := 0; p := 0;
                 shrinking := 1; probability := 0 |};
     nr_class := 2; l := 1; SV := [toSparseSample [1%float]];
     sv_coef := [[1%float]]; rho := [0%float]; probA := None; probB := None;
     label := Some [0; 1]; nSV := Some [1; 0]; free_sv := 1 |}.

#[local] Instance engine : LibSVM := {|
  svm_train prob prm :=
    {| param := prm; nr_class := 2; l := prob_l prob; SV := prob_x prob;
       sv_coef := [prob_y prob]; rho := [0%float]; probA := None; probB := None;
       label := Some [0; 1]; nSV := Some [prob_l prob; 0]; free_sv := 0 |};
  svm_cross_validation prob prm nr_fold :=
    resize (Z.to_nat (prob_l prob)) 0%float (prob_y prob);
  svm_predict model x := first_feature x;
  svm_predict_values model x :=
    replicate
      (if one_value_per_sample model then 1%nat
       else Z.to_nat (nr_class model * (nr_class model - 1) / 2))
      (first_feature x);
  svm_predict_probability model x :=
    replicate (Z.to_nat (nr_class model)) (first_feature x);
  svm_load_model path :=
    if String.eqb path "model.txt" then Some stored_model else None;
  svm_save_model path model := if String.eqb path "" then -1 else 0
|}.

(** [Numo::DFloat.cast]: an Array of Floats becomes a one-dimensional
    array, an Array of such Arrays of one length a matrix; what is not
    an array of numbers raises. *)
Fixpoint floats (vs : list VALUE) : option (list float) :=
  match vs with
  | [] => Some []
  | RFloat f :: vs' => cons f <$> floats vs'
  | _ :: _ => None
  end.

Fixpoint float_rows (vs : list VALUE) : option (list (list float)) :=
  match vs with
  | [] => Some []
  | RArray r :: vs' =>
      match floats r, float_rows vs' with
      | Some r, Some rs => Some (r :: rs)
      | _, _ => None
      end
  | _ :: _ => None
  end.

Definition cast (v : VALUE) : result narray :=
  match v with
  | DFloat a => Ok a
  | RArray vs =>
      match floats vs, float_rows vs with
      | Some r, _ =>
          Ok {| na_contiguous := true; na_shape := [Z.of_nat (length r)]; na_data := r |}
      | None, Some rs =>
          if forallb (λ r, bool_decide (length r = length (default [] (head rs)))) rs
          then Ok {| na_contiguous := true;
                     na_shape := [Z.of_nat (length rs);
                                  Z.of_nat (length (default [] (head rs)))];
                     na_data := concat rs |}
          else Raised CastError
      | None, None => Raised CastError
      end
  | _ => Raised CastError
  end.

#[local] Instance runtime : Runtime := {|
  numo_cDFloat_cast := cast;
  fresh_double := λ _, 0%float;
  fresh_node := λ _, {| index := 0; value := 0%float |}
|}.

Definition w0 : world := {| live := []; trace := [] |}.

(** What [param_of_type] and [model_hash] below decode to. *)
Definition decoded_parameter (t : Z) : svm_parameter :=
  {| svm_type := t; kernel_type := 0; degree := 0; gamma := 0; coef0 := 0;
     cache_size := 0; eps := 0; C := 1; nr_weight := 0; weight_label := [];
     weight := []; nu := 0; p := 0; shrinking := 0; probability := 0 |}.

Definition decoded_model_of_type (t : Z) (prob : option (list float)) : svm_model :=
  {| param := decoded_parameter t; nr_class := 2; l := 1;
     SV := [[{| index := 1; value := 1 |}; {| index := -1; value := 0 |}]];
     sv_coef := [[1%float]]; rho := [0%float]; probA := prob; probB := prob;
     label := Some [0; 1]; nSV := Some [1; 0]; free_sv := 1 |}.

Definition decoded_model : option (list float) → svm_model := decoded_model_of_type C_SVC.

Definition matrix (n d : Z) (data : list float) : VALUE :=
  DFloat {| na_contiguous := true; na_shape := [n; d]; na_data := data |}.

Definition vector (data : list float) : VALUE := vec_value data.

Definition param_of_type (t : Z) : VALUE :=
  RHash [("svm_type", Fixnum t); ("kernel_type", Fixnum 0); ("C", RFloat 1)].

(** A two-class model with one support vector whose own parameter
    record says [t]. *)
Definition model_hash_of_type (t : Z) (prob : option (list float)) : VALUE :=
  RHash ([ ("param", param_of_type t); ("nr_class", Fixnum 2); ("l", Fixnum 1);
           ("SV", matrix 1 1 [1%float]); ("sv_coef", matrix 1 1 [1%float]);
           ("rho", vector [0%float]) ]
         ++ optional "probA" (vector <$> prob)
         ++ optional "probB" (vector <$> prob)
         ++ [ ("label", RArray [Fixnum 0; Fixnum 1]);
              ("nSV", RArray [Fixnum 1; Fixnum 0]) ]).

Definition model_hash : option (list float) → VALUE := model_hash_of_type C_SVC.

End Fixture.

(** ** Vocabulary of the statements *)

(** A computation that neither touches the world nor depends on it. *)
Definition pure {A} (m : M A) : Prop := ∃ r, ∀ w, m w = (w, r).

(** A computation that leaves the set of live allocations as it found
    it, however it ends. *)
Definition steady {A} (m : M A) : Prop :=
  ∀ w w' r, m w = (w', r) → live w' = live w.

(** A computation all of whose events satisfy [P], however it ends. *)
Definition emits {A} (P : event → Prop) (m : M A) : Prop :=
  ∀ w w' r, m w = (w', r) → ∃ evs, trace w' = trace w ++ evs ∧ Forall P evs.

(** A node buffer of [d] features whose last cell holds the sentinel. *)
Definition node_buffer (d : nat) (buf : list svm_node) : Prop :=
  length buf = S d ∧ buf !! d = Some sentinel.

(** What a caller can see of a run: the calls that left the file and the
    way the call ended. *)
Definition obs {A} (run : world * result A) : list event * result A :=
  (trace run.1, run.2).

(** Two runs that end the same way after the same calls: when both
    return, with related values in related worlds. *)
Definition sim {A B} (R : A → B → Prop) (Rw : world → world → Prop)
    (run1 : world * result A) (run2 : world * result B) : Prop :=
  match run1.2, run2.2 with
  | Ok a, Ok b => R a b ∧ Rw run1.1 run2.1
  | Raised e1, Raised e2 => e1 = e2 ∧ trace run1.1 = trace run2.1
  | Undefined, Undefined => trace run1.1 = trace run2.1
  | _, _ => False
  end.

(** The world of the buffer-reusing loop next to the world of the
    per-row loop: the same calls, and the one buffer still allocated. *)
Definition holds_buffer (w1 w2 : world) : Prop :=
  trace w1 = trace w2 ∧ live w1 = N_x_nodes :: live w2.

(** A two-dimensional array of [n] rows and [d] columns whose extents
    and element count are values of [int], as the C code takes them. *)
Definition dense_matrix (a : narray) (n d : Z) : Prop :=
  na_shape a = [n; d]
  ∧ 0 <= n <= INT_MAX ∧ 0 <= d < INT_MAX ∧ n * d <= INT_MAX
  ∧ Z.of_nat (length (na_data a)) = n * d.

(** The condition under which the specification lets [predictProba]
    answer: a classification type in effect, and both calibration arrays
    on the decoded model. *)
Definition calibrated (prm : svm_parameter) (model : svm_model) : Prop :=
  (svm_type prm = C_SVC ∨ svm_type prm = NU_SVC)
  ∧ probA model ≠ None ∧ probB model ≠ None.

(** The node arrays of the first [n] samples, last allocated first. *)
Definition problem_rows (n : nat) : list native :=
  reverse ((λ i, N_problem_row (Z.of_nat i)) <$> seq 0 n).

(** The sparse form of the first [n] rows of a matrix. *)
Definition sparse_rows (x_pt : list float) (d : Z) (n : nat) : list (list svm_node) :=
  (λ i, toSparseSample (dense_row x_pt d (Z.of_nat i))) <$> seq 0 n.

(** [rows] is the sparse form of the [n] rows of the row-major matrix
    [x_pt] with [d] columns: row [i] has [d + 1] nodes, node [j] carries
    the 1-based index [j + 1] and the value [x_pt[i * d + j]], and the
    last node is the sentinel [{-1, 0.0}]. *)
Definition sparse_form_of (x_pt : list float) (n d : nat)
    (rows : list (list svm_node)) : Prop :=
  length rows = n
  ∧ ∀ i, (i < n)%nat →
      ∃ row, rows !! i = Some row
        ∧ length row = S d
        ∧ row !! d = Some {| index := -1; value := 0%float |}
        ∧ ∀ j v, (j < d)%nat → x_pt !! (i * d + j)%nat = Some v →
            row !! j = Some {| index := Z.of_nat j + 1; value := v |}.

(** An engine call that takes a model takes one whose parameter record
    is the one decoded from the caller's mapping [ph]. *)
Definition under_caller_parameter `{!Converter} (ph : VALUE) (ev : event) : Prop :=
  match ev with
  | E_svm_predict model _
  | E_svm_predict_values model _
  | E_svm_predict_probability model _
  | E_svm_save_model _ model => rb_hash_to_svm_parameter ph = Ok (param model)
  | _ => True
  end.

(** [CLASS_OF(v) == numo_cDFloat] *)
Definition is_DFloat (v : VALUE) : bool :=
  match v with
  | DFloat _ => true
  | _ => false
  end.

(** A value [StringValuePtr] takes as it is. *)
Definition is_String (v : VALUE) : bool :=
  match v with
  | RString _ => true
  | _ => false
  end.

(** A value [NUM2INT] converts: an Integer or a Float. *)
Definition is_Numeric (v : VALUE) : bool :=
  match v with
  | Fixnum _ | RFloat _ => true
  | _ => false
  end.

(** The world after [Numo::DFloat.cast] was called on [v]. *)
Definition after_cast (v : VALUE) (w : world) : world :=
  {| live := live w; trace := trace w ++ [E_cast v] |}.

(** The world in which the structures [ks] were allocated, last first,
    and not released. *)
Definition holding (ks : list native) (w : world) : world :=
  {| live := ks ++ live w; trace := trace w |}.

(** The sparse form of row [i] of a matrix with [d] columns. *)
Definition sparse_row (a : narray) (d : Z) (i : nat) : list svm_node :=
  toSparseSample (dense_row (na_data a) d (Z.of_nat i)).

(** The world after the calls [ev 0], ..., [ev (n - 1)]. *)
Definition after_calls (ev : nat → event) (n : Z) (w : world) : world :=
  {| live := live w; trace := trace w ++ (ev <$> seq 0 (Z.to_nat n)) |}.

(** The values of [n] engine calls, one block per sample, in the order
    of the samples. *)
Definition row_major (vals : nat → list float) (n : Z) : list float :=
  concat (vals <$> seq 0 (Z.to_nat n)).

(** The calls that may leave each of the seven operations. *)
Definition train_call (ev : event) : Prop :=
  match ev with
  | E_cast _ | E_svm_set_print_string_function | E_svm_train _ _
  | E_svm_free_and_destroy_model _ => True
  | _ => False
  end.

Definition cross_validation_call (ev : event) : Prop :=
  match ev with
  | E_cast _ | E_svm_set_print_string_function | E_svm_cross_validation _ _ _ => True
  | _ => False
  end.

Definition predict_call (ev : event) : Prop :=
  match ev with
  | E_cast _ | E_svm_predict _ _ => True
  | _ => False
  end.

Definition decision_function_call (ev : event) : Prop :=
  match ev with
  | E_cast _ | E_svm_predict_values _ _ => True
  | _ => False
  end.

Definition predict_proba_call (ev : event) : Prop :=
  match ev with
  | E_cast _ | E_svm_predict_probability _ _ => True
  | _ => False
  end.

Definition load_svm_model_call (ev : event) : Prop :=
  match ev with
  | E_svm_load_model _ | E_svm_free_and_destroy_model _ => True
  | _ => False
  end.

Definition save_svm_model_call (ev : event) : Prop :=
  match ev with
  | E_svm_save_model _ _ => True
  | _ => False
  end.

(** A runtime whose fresh memory holds what an earlier owner left there. *)
Definition stale_runtime : Runtime :=
  {| numo_cDFloat_cast := Fixture.cast;
     fresh_double := λ i, (if Nat.even i then 42 else 7)%float;
     fresh_node := λ i, {| index := 7 + Z.of_nat i; value := 42%float |} |}.

(** A computation that leaves through an exception only with one that
    satisfies [P]. *)
Definition raises {A} (P : exn → Prop) (m : M A) : Prop :=
  ∀ w w' e, m w = (w', Raised e) → P e.

(** A computation that returns only values that satisfy [Q]. *)
Definition returns {A} (Q : A → Prop) (m : M A) : Prop :=
  ∀ w w' a, m w = (w', Ok a) → Q a.

(** A contiguous [Numo::DFloat] of [rank] dimensions. *)
Definition fresh_DFloat (rank : nat) (v : VALUE) : Prop :=
  ∃ a, v = DFloat a ∧ na_contiguous a = true ∧ length (na_shape a) = rank.

(** * Properties *)

(** ** C integers *)

Lemma wrap_int_id (z : Z) : in_int z → wrap_int z = z.
Proof.
  unfold in_int, wrap_int, INT_MIN, INT_MAX. intros Hz.
  rewrite Z.mod_small by lia. lia.
Qed.

Lemma int_add_id (a b : Z) : in_int (a + b) → int_add a b = a + b.
Proof. apply wrap_int_id. Qed.

Lemma int_sub_id (a b : Z) : in_int (a - b) → int_sub a b = a - b.
Proof. apply wrap_int_id. Qed.

Lemma int_mul_id (a b : Z) : in_int (a * b) → int_mul a b = a * b.
Proof. apply wrap_int_id. Qed.

Lemma int_of_size_t_id (s : Z) : 0 <= s <= INT_MAX → int_of_size_t s = s.
Proof. intros Hs. apply wrap_int_id. unfold in_int, INT_MIN, INT_MAX in *. lia. Qed.

Lemma size_t_of_int_id (z : Z) : 0 <= z <= INT_MAX → size_t_of_int z = z.
Proof.
  unfold size_t_of_int, INT_MAX. intros Hz. apply Z.mod_small. lia.
Qed.

(** The number of one-vs-one pairs, when the product fits an [int]. *)
Lemma n_pairs_exact (model : svm_model) :
  0 <= nr_class model →
  nr_class model * (nr_class model - 1) <= INT_MAX →
  n_pairs model = nr_class model * (nr_class model - 1) / 2
  ∧ 0 <= n_pairs model <= INT_MAX.
Proof.
  intros Hn Hfit. unfold n_pairs. set (c := nr_class model) in *.
  assert (Hc : 0 <= c * (c - 1)) by nia.
  assert (Hs : in_int (c - 1)) by (unfold in_int, INT_MIN, INT_MAX in *; nia).
  rewrite (int_sub_id _ _ Hs).
  assert (Hm : in_int (c * (c - 1))) by (unfold in_int, INT_MIN, INT_MAX in *; lia).
  rewrite (int_mul_id _ _ Hm). unfold int_div.
  rewrite Z.quot_div_nonneg by lia.
  assert (Hq : 0 <= c * (c - 1) / 2 <= c * (c - 1)).
  { split; [apply Z.div_pos; lia | apply Z.div_le_upper_bound; lia]. }
  rewrite wrap_int_id by (unfold in_int, INT_MIN, INT_MAX in *; lia).
  unfold INT_MAX in *. lia.
Qed.

(** ** Running a call step by step *)

Section Steps.

Context {A B : Type}.
Implicit Types (m : M A) (f : A → M B) (w : world).

Lemma bind_Ok m f w w1 a : m w = (w1, Ok a) → bind m f w = f a w1.
Proof. unfold bind. by intros ->. Qed.

Lemma bind_Raised m f w w1 e : m w = (w1, Raised e) → bind m f w = (w1, Raised e).
Proof. unfold bind. by intros ->. Qed.

Lemma bind_Undefined m f w w1 : m w = (w1, Undefined) → bind m f w = (w1, Undefined).
Proof. unfold bind. by intros ->. Qed.

Lemma bind_inv_Ok m f w w' b :
  bind m f w = (w', Ok b) → ∃ w1 a, m w = (w1, Ok a) ∧ f a w1 = (w', Ok b).
Proof.
  unfold bind. destruct (m w) as [w1 [a | e |]]; intros Hrun; try discriminate.
  by exists w1, a.
Qed.

End Steps.

Lemma ret_inv {A} (a b : A) (w w' : world) : ret a w = (w', Ok b) → w' = w ∧ b = a.
Proof. unfold ret. by intros [= -> ->]. Qed.

(** A loop whose body succeeds under an invariant succeeds, and the
    invariant holds at its end. *)
Lemma for_from_ok {St} (Inv : nat → St → world → Prop) count i
    (body : Z → St → M St) s w :
  Inv 0%nat s w →
  (∀ k s w, (k < count)%nat → Inv k s w →
     ∃ s1 w1, body (i + Z.of_nat k) s w = (w1, Ok s1) ∧ Inv (S k) s1 w1) →
  ∃ s' w', for_from count i body s w = (w', Ok s') ∧ Inv count s' w'.
Proof.
  revert Inv i s w. induction count as [|count IH]; intros Inv i s w H0 Hstep.
  - exists s, w. done.
  - destruct (Hstep 0%nat s w ltac:(lia) H0) as (s1 & w1 & Hbody & H1).
    rewrite Z.add_0_r in Hbody.
    destruct (IH (λ k, Inv (S k)) (i + 1) s1 w1 H1) as (s' & w' & Hrun & Hend).
    { intros k s2 w2 Hk Hinv. destruct (Hstep (S k) s2 w2 ltac:(lia) Hinv) as (s3 & w3 & Hb & H3).
      exists s3, w3. split; [|done]. rewrite <- Hb. f_equal. lia. }
    exists s', w'. split; [|done]. simpl. by rewrite (bind_Ok _ _ _ _ _ Hbody).
Qed.

(** What a loop that returned went through. *)
Lemma for_from_inv {St} (Inv : nat → world → Prop) count i
    (body : Z → St → M St) s w s' w' :
  for_from count i body s w = (w', Ok s') →
  Inv 0%nat w →
  (∀ k s w s1 w1, (k < count)%nat → Inv k w →
     body (i + Z.of_nat k) s w = (w1, Ok s1) → Inv (S k) w1) →
  Inv count w'.
Proof.
  revert Inv i s w. induction count as [|count IH]; intros Inv i s w Hrun H0 Hstep.
  - apply ret_inv in Hrun as [-> _]. done.
  - simpl in Hrun. apply bind_inv_Ok in Hrun as (w1 & s1 & Hbody & Hrun).
    apply (IH (λ k, Inv (S k)) (i + 1) s1 w1 Hrun).
    + apply (Hstep 0%nat s w s1 w1); [lia | done |]. by rewrite Z.add_0_r.
    + intros k s2 w2 s3 w3 Hk Hinv Hb. apply (Hstep (S k) s2 w2 s3 w3); [lia | done |].
      rewrite <- Hb. f_equal. lia.
Qed.

(** ** Memory accesses inside their object *)

Section Memory.

Context {A : Type}.
Implicit Types (buf : list A) (w : world).

Lemma load_ok buf (i : Z) v w :
  0 <= i → buf !! Z.to_nat i = Some v → load buf i w = (w, Ok v).
Proof. intros Hi Hv. unfold load. rewrite decide_True by done. by rewrite Hv. Qed.

Lemma store_ok buf (i : Z) v w :
  0 <= i < Z.of_nat (length buf) → store buf i v w = (w, Ok (<[Z.to_nat i := v]> buf)).
Proof. intros Hi. unfold store. by rewrite decide_True. Qed.

Lemma update_ok buf (i : Z) (f : A → A) v w :
  0 <= i → buf !! Z.to_nat i = Some v →
  update buf i f w = (w, Ok (<[Z.to_nat i := f v]> buf)).
Proof.
  intros Hi Hv. unfold update. rewrite (bind_Ok _ _ _ _ _ (load_ok _ _ _ w Hi Hv)).
  apply store_ok. apply lookup_lt_Some in Hv. lia.
Qed.

Lemma store_many_ok buf (off : Z) vals w :
  0 <= off → off + Z.of_nat (length vals) <= Z.of_nat (length buf) →
  store_many buf off vals w
  = (w, Ok (take (Z.to_nat off) buf ++ vals ++ drop (Z.to_nat off + length vals) buf)).
Proof. intros Hoff Hfit. unfold store_many. by rewrite decide_True. Qed.

Lemma store_many_length buf (off : Z) vals :
  0 <= off → off + Z.of_nat (length vals) <= Z.of_nat (length buf) →
  length (take (Z.to_nat off) buf ++ vals ++ drop (Z.to_nat off + length vals) buf)
  = length buf.
Proof. intros Hoff Hfit. rewrite !length_app, length_take, length_drop. lia. Qed.

End Memory.

(** ** The conversion loop *)

Lemma dense_nodes_length (row : list float) : length (dense_nodes row) = length row.
Proof. apply length_imap. Qed.

Lemma dense_nodes_snoc (row : list float) (v : float) :
  dense_nodes (row ++ [v])
  = dense_nodes row ++ [{| index := Z.of_nat (length row) + 1; value := v |}].
Proof.
  unfold dense_nodes. rewrite imap_app. simpl. by rewrite Nat.add_0_r.
Qed.

Lemma dense_row_length (x_pt : list float) (d i : Z) :
  0 <= i → 0 <= d → (i + 1) * d <= Z.of_nat (length x_pt) →
  length (dense_row x_pt d i) = Z.to_nat d.
Proof.
  intros Hi Hd Hin. unfold dense_row. rewrite length_take, length_drop. nia.
Qed.

Lemma dense_row_lookup (x_pt : list float) (d i : Z) (j : nat) :
  0 <= i → 0 <= d → (j < Z.to_nat d)%nat →
  dense_row x_pt d i !! j = x_pt !! Z.to_nat (i * d + Z.of_nat j).
Proof.
  intros Hi Hd Hj. unfold dense_row.
  rewrite lookup_take_lt by done. rewrite lookup_drop. f_equal. nia.
Qed.

Section Conversion.

Context `{!Runtime}.

(** After the loop the first [n_features] cells of the buffer hold row
    [i]; the cells behind them are as they were. *)
Lemma fill_row_ok (x_pt : list float) (i d : Z) (buf : list svm_node) (w : world) :
  0 <= i → 0 <= d → (i + 1) * d <= INT_MAX →
  (i + 1) * d <= Z.of_nat (length x_pt) →
  (Z.to_nat d < length buf)%nat →
  fill_row x_pt i d buf w
  = (w, Ok (dense_nodes (dense_row x_pt d i) ++ drop (Z.to_nat d) buf)).
Proof.
  intros Hi Hd Hfit Hin Hbuf.
  pose proof (dense_row_length x_pt d i Hi Hd Hin) as Hlen.
  set (row := dense_row x_pt d i) in *.
  destruct (for_from_ok
    (λ k nodes w', w' = w ∧ nodes = dense_nodes (take k row) ++ drop k buf)
    (Z.to_nat d) 0
    (λ j x_nodes,
       x_nodes <- update x_nodes j (set_index (int_add j 1)) ;;
       v <- load x_pt (int_add (int_mul i d) j) ;;
       update x_nodes j (set_value v))%call buf w) as (nodes & w' & Hrun & -> & ->).
  - split; [done|]. by rewrite take_0, drop_0.
  - intros k nodes w1 Hk [-> ->]. rewrite Z.add_0_l.
    destruct (lookup_lt_is_Some_2 row k ltac:(lia)) as [v Hv].
    destruct (lookup_lt_is_Some_2 buf k ltac:(lia)) as [nd Hnd].
    assert (Hprefix : length (dense_nodes (take k row)) = k).
    { rewrite dense_nodes_length, length_take. lia. }
    assert (Hat : (dense_nodes (take k row) ++ drop k buf) !! k = Some nd).
    { rewrite lookup_app_r by lia. rewrite Hprefix, Nat.sub_diag, lookup_drop.
      by rewrite Nat.add_0_r. }
    eexists _, w. split.
    + erewrite bind_Ok; cycle 1.
      { apply update_ok; [lia|]. rewrite Nat2Z.id. exact Hat. }
      erewrite bind_Ok; cycle 1.
      { apply load_ok.
        - rewrite int_mul_id, int_add_id; unfold in_int, INT_MIN; nia.
        - rewrite int_mul_id, int_add_id by (unfold in_int, INT_MIN; nia).
          rewrite <- (dense_row_lookup x_pt d i k) by lia. exact Hv. }
      apply update_ok; [lia|]. rewrite Nat2Z.id.
      apply list_lookup_insert_eq. by apply lookup_lt_Some in Hat.
    + split; [done|]. rewrite Nat2Z.id, list_insert_insert_eq.
      rewrite (take_S_r _ _ _ Hv), dense_nodes_snoc, length_take.
      rewrite (drop_S _ _ _ Hnd). rewrite insert_app_r_alt by lia.
      rewrite Hprefix, Nat.sub_diag. simpl. rewrite <- app_assoc. simpl.
      rewrite int_add_id by (unfold in_int, INT_MIN; nia).
      unfold set_value, set_index. simpl. do 4 f_equal. lia.
  - unfold fill_row, for_lt. rewrite Hrun. do 3 f_equal.
    rewrite take_ge by lia. done.
Qed.

End Conversion.

Lemma node_buffer_tail (d : nat) (buf : list svm_node) :
  node_buffer d buf → drop d buf = [sentinel].
Proof.
  intros [Hlen Hlast]. rewrite (drop_S _ _ _ Hlast).
  by rewrite drop_ge by lia.
Qed.

Lemma toSparseSample_buffer (row : list float) :
  node_buffer (length row) (toSparseSample row).
Proof.
  unfold node_buffer, toSparseSample. split.
  - rewrite length_app, dense_nodes_length. simpl. lia.
  - rewrite lookup_app_r by (rewrite dense_nodes_length; lia).
    by rewrite dense_nodes_length, Nat.sub_diag.
Qed.

Section Buffer.

Context `{!Runtime}.

(** With the sentinel in place, one pass of the loop turns the buffer
    into the sparse form of row [i], whatever it held before. *)
Lemma fill_row_buffer (x_pt : list float) (i d : Z) (buf : list svm_node) (w : world) :
  0 <= i → 0 <= d → (i + 1) * d <= INT_MAX →
  (i + 1) * d <= Z.of_nat (length x_pt) →
  node_buffer (Z.to_nat d) buf →
  fill_row x_pt i d buf w = (w, Ok (toSparseSample (dense_row x_pt d i))).
Proof.
  intros Hi Hd Hfit Hin Hbuf. rewrite fill_row_ok; try done.
  - by rewrite (node_buffer_tail _ _ Hbuf).
  - destruct Hbuf as [-> _]. lia.
Qed.

Lemma put_sentinel_ok (buf : list svm_node) (d : Z) (w : world) :
  0 <= d → length buf = S (Z.to_nat d) →
  ∃ buf', put_sentinel buf d w = (w, Ok buf') ∧ node_buffer (Z.to_nat d) buf'.
Proof.
  intros Hd Hlen.
  destruct (lookup_lt_is_Some_2 buf (Z.to_nat d) ltac:(lia)) as [nd Hnd].
  eexists. split.
  - unfold put_sentinel. erewrite bind_Ok; [|by apply update_ok].
    apply update_ok; [done|]. apply list_lookup_insert_eq. lia.
  - rewrite list_insert_insert_eq. split.
    + by rewrite length_insert.
    + rewrite list_lookup_insert_eq by lia. done.
Qed.

Lemma ALLOC_N_ok {A} (k : native) (fresh : nat → A) (n : Z) (w : world) :
  0 <= n →
  ALLOC_N k fresh n w
  = ({| live := k :: live w; trace := trace w |}, Ok (fresh <$> seq 0 (Z.to_nat n))).
Proof. intros Hn. unfold ALLOC_N. by rewrite decide_True. Qed.

End Buffer.

(** ** Computations that leave the world alone *)

Lemma pure_run {A} (m : M A) (w w' : world) (r : result A) :
  pure m → m w = (w', r) → w' = w.
Proof. intros [r' Hm]. rewrite Hm. by intros [= ->]. Qed.

Lemma pure_ret {A} (a : A) : pure (ret a).
Proof. by exists (Ok a). Qed.

Lemma pure_lift {A} (r : result A) : pure (lift r).
Proof. by exists r. Qed.

Lemma pure_rb_raise {A} (e : exn) : pure (@rb_raise A e).
Proof. by exists (Raised e). Qed.

Lemma pure_undefined {A} : pure (@undefined A).
Proof. by exists Undefined. Qed.

Lemma pure_bind {A B} (m : M A) (f : A → M B) :
  pure m → (∀ a, pure (f a)) → pure (bind m f).
Proof.
  intros [[a | e |] Hm] Hf.
  - destruct (Hf a) as [r Hr]. exists r. intros w. unfold bind. by rewrite Hm.
  - exists (Raised e). intros w. unfold bind. by rewrite Hm.
  - exists Undefined. intros w. unfold bind. by rewrite Hm.
Qed.

Lemma pure_if {A} (b : bool) (m1 m2 : M A) :
  pure m1 → pure m2 → pure (if b then m1 else m2).
Proof. by destruct b. Qed.

Lemma pure_load {A} (buf : list A) (i : Z) : pure (load buf i).
Proof.
  unfold load. destruct (decide _); [destruct (_ !! _)|];
    auto using pure_ret, pure_undefined.
Qed.

Lemma pure_store {A} (buf : list A) (i : Z) (v : A) : pure (store buf i v).
Proof. unfold store. destruct (decide _); auto using pure_ret, pure_undefined. Qed.

Lemma pure_update {A} (buf : list A) (i : Z) (f : A → A) : pure (update buf i f).
Proof. unfold update. auto using pure_bind, pure_load, pure_store. Qed.

Lemma pure_store_many {A} (buf : list A) (off : Z) (vals : list A) :
  pure (store_many buf off vals).
Proof. unfold store_many. destruct (decide _); auto using pure_ret, pure_undefined. Qed.

Lemma pure_for_from {St} count i (body : Z → St → M St) s :
  (∀ i s, pure (body i s)) → pure (for_from count i body s).
Proof.
  intros Hbody. revert i s. induction count as [|count IH]; intros i s; simpl.
  - apply pure_ret.
  - apply pure_bind; auto.
Qed.

Lemma pure_for_lt {St} n (body : Z → St → M St) s :
  (∀ i s, pure (body i s)) → pure (for_lt n body s).
Proof. apply pure_for_from. Qed.

Create HintDb pure discriminated.
#[global] Hint Resolve pure_ret pure_lift pure_rb_raise pure_undefined pure_bind
  pure_if pure_load pure_store pure_update pure_store_many pure_for_lt : pure.

Section PureHelpers.

Context `{!Runtime}.

Lemma pure_fill_row x_pt i d buf : pure (fill_row x_pt i d buf).
Proof. unfold fill_row. auto 10 with pure. Qed.

Lemma pure_put_sentinel buf d : pure (put_sentinel buf d).
Proof. unfold put_sentinel. auto with pure. Qed.

Lemma pure_NA_SHAPE a k : pure (NA_SHAPE a k).
Proof. unfold NA_SHAPE. auto with pure. Qed.

Lemma pure_NUM2INT v : pure (NUM2INT v).
Proof.
  unfold NUM2INT. destruct v; try destruct (truncate _); try destruct (decide _);
    auto with pure.
Qed.

Lemma pure_StringValuePtr v : pure (StringValuePtr v).
Proof. unfold StringValuePtr. destruct v; auto with pure. Qed.

End PureHelpers.

#[global] Hint Resolve pure_fill_row pure_put_sentinel pure_NA_SHAPE pure_NUM2INT
  pure_StringValuePtr : pure.

(** ** Computations that keep the allocations *)

Lemma pure_steady {A} (m : M A) : pure m → steady m.
Proof. intros Hm w w' r Hrun. by rewrite (pure_run m w w' r Hm Hrun). Qed.

Lemma steady_emit (e : event) : steady (emit e).
Proof. intros w w' r [= <- _]. done. Qed.

Lemma steady_bind {A B} (m : M A) (f : A → M B) :
  steady m → (∀ a, steady (f a)) → steady (bind m f).
Proof.
  intros Hm Hf w w' r. unfold bind.
  destruct (m w) as [w1 [a | e |]] eqn:Hrun; intros Hrest.
  - rewrite (Hf a w1 w' r Hrest). eauto.
  - injection Hrest as <- _. eauto.
  - injection Hrest as <- _. eauto.
Qed.

Lemma steady_for_lt {St} n (body : Z → St → M St) s :
  (∀ i s, steady (body i s)) → steady (for_lt n body s).
Proof.
  intros Hbody. unfold for_lt. generalize 0 as i. revert s.
  induction (Z.to_nat n) as [|count IH]; intros s i; simpl.
  - apply pure_steady, pure_ret.
  - apply steady_bind; auto.
Qed.

Lemma steady_if {A} (b : bool) (m1 m2 : M A) :
  steady m1 → steady m2 → steady (if b then m1 else m2).
Proof. by destruct b. Qed.

Create HintDb steady discriminated.
#[global] Hint Resolve steady_emit steady_bind steady_for_lt steady_if : steady.
#[global] Hint Extern 5 (steady _) => (apply pure_steady; solve [auto 10 with pure]) : steady.

Section SteadyCalls.

Context `{!LibSVM, !Converter, !Runtime}.

Lemma steady_cast_unless_DFloat v : steady (cast_unless_DFloat v).
Proof. unfold cast_unless_DFloat. destruct v; auto with steady. Qed.

Lemma steady_call_svm_predict model x : steady (call_svm_predict model x).
Proof. unfold call_svm_predict. auto with steady. Qed.

Lemma steady_call_svm_predict_values model x buf off :
  steady (call_svm_predict_values model x buf off).
Proof. unfold call_svm_predict_values. auto with steady. Qed.

Lemma steady_call_svm_predict_probability model x buf :
  steady (call_svm_predict_probability model x buf).
Proof. unfold call_svm_predict_probability. auto with steady. Qed.

Lemma steady_call_svm_cross_validation prob prm k target :
  steady (call_svm_cross_validation prob prm k target).
Proof. unfold call_svm_cross_validation. auto with steady. Qed.

Lemma steady_call_svm_save_model path model : steady (call_svm_save_model path model).
Proof. unfold call_svm_save_model. auto with steady. Qed.

End SteadyCalls.

#[global] Hint Resolve steady_cast_unless_DFloat steady_call_svm_predict
  steady_call_svm_predict_values steady_call_svm_predict_probability
  steady_call_svm_cross_validation steady_call_svm_save_model : steady.

(** What a step that returned did to the allocations. *)
Lemma steady_Ok {A} (m : M A) (w w' : world) (a : A) :
  steady m → m w = (w', Ok a) → live w' = live w.
Proof. intros Hm Hrun. eauto. Qed.

Lemma alloc_Ok (k : native) (w w' : world) (u : unit) :
  alloc k w = (w', Ok u) → live w' = k :: live w.
Proof. by intros [= <- _]. Qed.

Lemma xfree_Ok (k : native) (w w' : world) (u : unit) :
  xfree k w = (w', Ok u) → release k (live w) = Some (live w').
Proof.
  unfold xfree. destruct (release k (live w)); [|discriminate].
  by intros [= <- _].
Qed.

Section AllocatingCalls.

Context `{!LibSVM, !Converter, !Runtime}.

Lemma ALLOC_N_Ok {A} (k : native) (fresh : nat → A) (n : Z) (w w' : world) buf :
  ALLOC_N k fresh n w = (w', Ok buf) → live w' = k :: live w.
Proof.
  unfold ALLOC_N. destruct (decide _); [|discriminate].
  intros Hrun. apply bind_inv_Ok in Hrun as (w1 & u & Halloc & Hret).
  apply ret_inv in Hret as [-> _]. by apply alloc_Ok in Halloc.
Qed.

Lemma hash_to_svm_parameter_Ok (h : VALUE) (w w' : world) prm :
  hash_to_svm_parameter h w = (w', Ok prm) →
  rb_hash_to_svm_parameter h = Ok prm
  ∧ live w' = N_parameter :: live w ∧ trace w' = trace w.
Proof.
  unfold hash_to_svm_parameter, bind, lift.
  destruct (rb_hash_to_svm_parameter h); [|discriminate..].
  simpl. by intros [= <- <-].
Qed.

Lemma hash_to_svm_model_Ok (h : VALUE) (w w' : world) model :
  hash_to_svm_model h w = (w', Ok model) →
  rb_hash_to_svm_model h = Ok model
  ∧ live w' = N_model :: live w ∧ trace w' = trace w.
Proof.
  unfold hash_to_svm_model, bind, lift.
  destruct (rb_hash_to_svm_model h); [|discriminate..].
  simpl. by intros [= <- <-].
Qed.

Lemma call_svm_train_Ok prob prm (w w' : world) model :
  call_svm_train prob prm w = (w', Ok model) → live w' = N_engine_model :: live w.
Proof. by intros [= <- _]. Qed.

Lemma svm_free_and_destroy_model_Ok model (w w' : world) (u : unit) :
  svm_free_and_destroy_model model w = (w', Ok u) →
  release N_engine_model (live w) = Some (live w').
Proof.
  unfold svm_free_and_destroy_model. intros Hrun.
  apply bind_inv_Ok in Hrun as (w1 & u1 & [= <-] & Hfree).
  by apply xfree_Ok in Hfree.
Qed.

End AllocatingCalls.

(** ** Computations and the calls they make *)

Lemma pure_emits {A} (P : event → Prop) (m : M A) : pure m → emits P m.
Proof.
  intros Hm w w' r Hrun. rewrite (pure_run m w w' r Hm Hrun).
  exists []. by rewrite app_nil_r.
Qed.

Lemma emits_emit (P : event → Prop) (e : event) : P e → emits P (emit e).
Proof. intros He w w' r [= <- _]. exists [e]. auto. Qed.

Lemma emits_alloc (P : event → Prop) (k : native) : emits P (alloc k).
Proof. intros w w' r [= <- _]. exists []. by rewrite app_nil_r. Qed.

Lemma emits_xfree (P : event → Prop) (k : native) : emits P (xfree k).
Proof.
  intros w w' r. unfold xfree. destruct (release k (live w)); intros [= <- _];
    exists []; by rewrite app_nil_r.
Qed.

Lemma emits_bind {A B} (P : event → Prop) (m : M A) (f : A → M B) :
  emits P m → (∀ a w w1, m w = (w1, Ok a) → emits P (f a)) → emits P (bind m f).
Proof.
  intros Hm Hf w w' r. unfold bind.
  destruct (m w) as [w1 [a | e |]] eqn:Hrun; intros Hrest.
  - destruct (Hm _ _ _ Hrun) as (evs1 & Htr1 & H1).
    destruct (Hf a w w1 Hrun _ _ _ Hrest) as (evs2 & Htr2 & H2).
    exists (evs1 ++ evs2). rewrite Htr2, Htr1, app_assoc.
    split; [done|]. by apply Forall_app.
  - injection Hrest as <- _. eauto.
  - injection Hrest as <- _. eauto.
Qed.

Lemma emits_for_lt {St} (P : event → Prop) n (body : Z → St → M St) s :
  (∀ i s, emits P (body i s)) → emits P (for_lt n body s).
Proof.
  intros Hbody. unfold for_lt. generalize 0 as i. revert s.
  induction (Z.to_nat n) as [|count IH]; intros s i; simpl.
  - apply pure_emits, pure_ret.
  - apply emits_bind; auto.
Qed.

Lemma emits_if {A} (P : event → Prop) (b : bool) (m1 m2 : M A) :
  emits P m1 → emits P m2 → emits P (if b then m1 else m2).
Proof. by destruct b. Qed.

(** ** Loading a model *)

(** C7: for every path string, [load_svm_model] hands the path to the
    engine's [svm_load_model]; when that returns no model, the call
    returns the pair [[nil, nil]] and raises nothing; when it returns a
    model, both slots hold the hashes encoded from it, and the native
    model has been freed by [svm_free_and_destroy_model] when the call
    returns (the allocations are those the call started with). *)
Theorem load_svm_model_outcome `{!LibSVM, !Converter, !Runtime}
    (path : string) (w : world) :
  match svm_load_model path with
  | None =>
      load_svm_model (RString path) w
      = ({| live := live w; trace := trace w ++ [E_svm_load_model path] |},
         Ok (RArray [Qnil; Qnil]))
  | Some model =>
      load_svm_model (RString path) w
      = ({| live := live w;
            trace := trace w ++ [E_svm_load_model path;
                                 E_svm_free_and_destroy_model model] |},
         Ok (RArray [RHash (svm_parameter_to_rb_hash (param model));
                     RHash (svm_model_to_rb_hash model)]))
  end.
Proof.
  unfold load_svm_model, call_svm_load_model, svm_free_and_destroy_model,
    StringValuePtr, xfree, bind, emit, alloc, ret.
  destruct (svm_load_model path) as [model|]; simpl.
  - by rewrite <- app_assoc.
  - done.
Qed.

Lemma load_svm_model_outcome_witness :
  @load_svm_model Fixture.engine Fixture.converter (RString "/nonexistent/path") Fixture.w0
  = ({| live := []; trace := [E_svm_load_model "/nonexistent/path"] |},
     Ok (RArray [Qnil; Qnil])).
Proof.
  exact (@load_svm_model_outcome Fixture.engine Fixture.converter Fixture.runtime
           "/nonexistent/path" Fixture.w0).
Defined.

(** ** Steps that are known to succeed *)

Section Forward.

Context `{!LibSVM, !Converter, !Runtime}.

Lemma hash_to_svm_parameter_run (h : VALUE) (prm : svm_parameter) (w : world) :
  rb_hash_to_svm_parameter h = Ok prm →
  hash_to_svm_parameter h w
  = ({| live := N_parameter :: live w; trace := trace w |}, Ok prm).
Proof. intros Hdec. unfold hash_to_svm_parameter, bind, lift. by rewrite Hdec. Qed.

Lemma hash_to_svm_model_run (h : VALUE) (model : svm_model) (w : world) :
  rb_hash_to_svm_model h = Ok model →
  hash_to_svm_model h w
  = ({| live := N_model :: live w; trace := trace w |}, Ok model).
Proof. intros Hdec. unfold hash_to_svm_model, bind, lift. by rewrite Hdec. Qed.

Lemma NA_SHAPE_run (a : narray) (k : nat) (s : Z) (w : world) :
  na_shape a !! k = Some s → 0 <= s <= INT_MAX →
  NA_SHAPE a (Z.of_nat k) w = (w, Ok s).
Proof.
  intros Hk Hs. unfold NA_SHAPE.
  erewrite bind_Ok; [|apply load_ok; [lia | by rewrite Nat2Z.id]].
  unfold ret. by rewrite int_of_size_t_id.
Qed.

Lemma xfree_run (k : native) (ks : list native) (w : world) :
  release k (live w) = Some ks →
  xfree k w = ({| live := ks; trace := trace w |}, Ok tt).
Proof. intros Hrel. unfold xfree. by rewrite Hrel. Qed.

(** The loop that copies one row of engine output into the result:
<<
      for (j = 0; j < cols; j++) dst[i * cols + j] = src[j];
>> *)
Lemma copy_row_ok (src dst : list float) (i cols : Z) (w : world) :
  0 <= i → 0 <= cols → cols <= Z.of_nat (length src) →
  (i + 1) * cols <= Z.of_nat (length dst) → (i + 1) * cols <= INT_MAX →
  ∃ dst',
    for_lt cols (λ j y_pt,
      d_j <- load src j ;;
      store y_pt (int_add (int_mul i cols) j) d_j)%call dst w = (w, Ok dst')
    ∧ length dst' = length dst.
Proof.
  intros Hi Hcols Hsrc Hdst Hfit.
  destruct (for_from_ok (λ _ y_pt w', w' = w ∧ length y_pt = length dst)
    (Z.to_nat cols) 0
    (λ j y_pt, d_j <- load src j ;;
               store y_pt (int_add (int_mul i cols) j) d_j)%call dst w)
    as (dst' & w' & Hrun & -> & Hlen); [done | |by exists dst'].
  intros k y_pt w1 Hk [-> Hlen]. rewrite Z.add_0_l.
  destruct (lookup_lt_is_Some_2 src k ltac:(lia)) as [v Hv].
  eexists _, w. split.
  - erewrite bind_Ok; [|apply load_ok; [lia | by rewrite Nat2Z.id]].
    apply store_ok.
    rewrite int_mul_id, int_add_id; unfold in_int, INT_MIN; nia.
  - split; [done|]. by rewrite length_insert.
Qed.

End Forward.

Lemma bind_ret_l {A B} (a : A) (f : A → M B) (w : world) : bind (ret a) f w = f a w.
Proof. done. Qed.

Lemma bind_assoc {A B D} (m : M A) (f : A → M B) (g : B → M D) (w : world) :
  bind (bind m f) g w = bind m (λ a, bind (f a) g) w.
Proof. unfold bind. by destruct (m w) as [w1 [a | e |]]. Qed.

(** Closes a side condition on concrete numbers and lists. *)
Ltac concrete :=
  unfold dense_matrix, in_int, INT_MAX, INT_MIN; simpl;
  repeat split; first [reflexivity | lia | by vm_compute].

Ltac flatten_binds := repeat (rewrite bind_assoc || rewrite bind_ret_l).

(** Runs the first step of the goal with the equation [H] for it. *)
Tactic Notation "step" uconstr(H) := rewrite (bind_Ok _ _ _ _ _ H); flatten_binds.

Lemma xfree_head (k : native) (ks : list native) (w : world) :
  live w = k :: ks → xfree k w = ({| live := ks; trace := trace w |}, Ok tt).
Proof. intros Hlive. apply xfree_run. rewrite Hlive. simpl. by rewrite decide_True. Qed.

Lemma dup_unless_contiguous_shape (a : narray) :
  na_shape (dup_unless_contiguous a) = na_shape a.
Proof. unfold dup_unless_contiguous. by destruct (nary_check_contiguous a). Qed.

Lemma dup_unless_contiguous_data (a : narray) :
  na_data (dup_unless_contiguous a) = na_data a.
Proof. unfold dup_unless_contiguous. by destruct (nary_check_contiguous a). Qed.

Lemma dense_matrix_dup (a : narray) (n d : Z) :
  dense_matrix a n d → dense_matrix (dup_unless_contiguous a) n d.
Proof.
  unfold dense_matrix.
  by rewrite dup_unless_contiguous_shape, dup_unless_contiguous_data.
Qed.

Section Shapes.

Context `{!LibSVM, !Converter, !Runtime}.

Lemma NA_SHAPE_matrix (a : narray) (n d : Z) (w : world) :
  dense_matrix a n d →
  NA_SHAPE a 0 w = (w, Ok n) ∧ NA_SHAPE a 1 w = (w, Ok d).
Proof.
  intros (Hshape & Hn & Hd & _). split.
  - apply (NA_SHAPE_run a 0%nat); [by rewrite Hshape | lia].
  - apply (NA_SHAPE_run a 1%nat); [by rewrite Hshape | lia].
Qed.

(** The node buffer as the prediction loops set it up. *)
Lemma node_buffer_alloc (d : Z) (w : world) :
  0 <= d < INT_MAX →
  ALLOC_N N_x_nodes fresh_node (int_add d 1) w
  = ({| live := N_x_nodes :: live w; trace := trace w |},
     Ok (fresh_node <$> seq 0 (Z.to_nat (d + 1)))).
Proof.
  intros Hd. rewrite int_add_id by (unfold in_int, INT_MIN; lia).
  apply ALLOC_N_ok. lia.
Qed.

Lemma node_buffer_sentinel (d : Z) (w : world) :
  0 <= d →
  ∃ buf, put_sentinel (fresh_node <$> seq 0 (Z.to_nat (d + 1))) d w = (w, Ok buf)
         ∧ node_buffer (Z.to_nat d) buf.
Proof.
  intros Hd. apply put_sentinel_ok; [done|].
  rewrite length_fmap, length_seq. lia.
Qed.

Lemma rb_narray_new_2 (n c : Z) :
  0 <= n → 0 <= c →
  na_shape (rb_narray_new 2 [n; c]) = [n; c]
  ∧ Z.of_nat (length (na_data (rb_narray_new 2 [n; c]))) = n * c.
Proof.
  intros Hn Hc. unfold rb_narray_new. simpl. split; [done|].
  rewrite length_fmap, length_seq. nia.
Qed.

Lemma rb_narray_new_1 (n c : Z) :
  0 <= n →
  na_shape (rb_narray_new 1 [n; c]) = [n]
  ∧ Z.of_nat (length (na_data (rb_narray_new 1 [n; c]))) = n.
Proof.
  intros Hn. unfold rb_narray_new. simpl. split; [done|].
  rewrite length_fmap, length_seq. nia.
Qed.

End Shapes.

Lemma dense_row_buffer (x_pt : list float) (d i : Z) :
  0 <= i → 0 <= d → (i + 1) * d <= Z.of_nat (length x_pt) →
  node_buffer (Z.to_nat d) (toSparseSample (dense_row x_pt d i)).
Proof.
  intros Hi Hd Hin. rewrite <- (dense_row_length x_pt d i Hi Hd Hin).
  apply toSparseSample_buffer.
Qed.

(** ** Class probabilities *)

Section Proba.

Context `{!LibSVM, !Converter, !Runtime}.

(** A callee that fills the whole scratch buffer succeeds and keeps the
    allocations. *)
Lemma fill_scratch_ok (ev : event) (vals scratch : list float) (w : world) :
  length vals = length scratch →
  ∃ scratch',
    (emit ev ;; store_many scratch 0 vals)%call w
    = ({| live := live w; trace := trace w ++ [ev] |}, Ok scratch')
    ∧ length scratch' = length scratch.
Proof.
  intros Hlen. eexists. split.
  - unfold bind, emit. apply store_many_ok; lia.
  - apply store_many_length; lia.
Qed.

(** The batch loop of [decision_function] (classification) and of
    [predict_proba]: convert row [i], let the engine fill the scratch
    buffer, copy the scratch buffer into row [i] of the result. *)
Lemma batch_loop_ok (call : list svm_node → list float → M (list float))
    (x_pt : list float) (n d cols : Z)
    (buf : list svm_node) (scratch y_pt : list float) (w : world) :
  0 <= n → 0 <= d → n * d <= INT_MAX → n * d <= Z.of_nat (length x_pt) →
  node_buffer (Z.to_nat d) buf →
  0 <= cols → n * cols <= INT_MAX →
  Z.of_nat (length scratch) = cols →
  Z.of_nat (length y_pt) = n * cols →
  (∀ x s w1, length s = length scratch →
     ∃ s' w2, call x s w1 = (w2, Ok s') ∧ length s' = length s ∧ live w2 = live w1) →
  ∃ st w',
    for_lt n (λ i st,
      x_nodes <- fill_row x_pt i d st.1.1 ;;
      s <- call x_nodes st.1.2 ;;
      y_pt <- for_lt cols (λ j y_pt,
        v <- load s j ;;
        store y_pt (int_add (int_mul i cols) j) v) st.2 ;;
      ret (x_nodes, s, y_pt))%call (buf, scratch, y_pt) w = (w', Ok st)
    ∧ live w' = live w ∧ length st.2 = length y_pt.
Proof.
  intros Hn Hd Hnd Hx Hbuf Hc Hnc Hscratch Hy Hcall.
  destruct (for_from_ok
    (λ _ (st : list svm_node * list float * list float) w',
       node_buffer (Z.to_nat d) st.1.1 ∧ length st.1.2 = length scratch
       ∧ length st.2 = length y_pt ∧ live w' = live w)
    (Z.to_nat n) 0
    (λ i st,
      x_nodes <- fill_row x_pt i d st.1.1 ;;
      s <- call x_nodes st.1.2 ;;
      y_pt <- for_lt cols (λ j y_pt,
        v <- load s j ;;
        store y_pt (int_add (int_mul i cols) j) v) st.2 ;;
      ret (x_nodes, s, y_pt))%call (buf, scratch, y_pt) w)
    as (st & w' & Hrun & _ & _ & Hlen & Hlive); [done | |by exists st, w'].
  intros k [[nodes sc] yp] w1 Hk (Hnodes & Hsc & Hyp & Hlive). simpl in *.
  rewrite Z.add_0_l.
  rewrite (bind_Ok _ _ _ _ _
    (fill_row_buffer x_pt (Z.of_nat k) d nodes w1 ltac:(lia) Hd ltac:(nia) ltac:(nia) Hnodes)).
  set (x := toSparseSample (dense_row x_pt d (Z.of_nat k))).
  destruct (Hcall x sc w1 Hsc) as (sc' & w2 & Hfill & Hsc' & Hlive2).
  destruct (copy_row_ok sc' yp (Z.of_nat k) cols w2)
    as (yp' & Hcopy & Hyp'); [lia | lia | lia | nia | nia |].
  exists (x, sc', yp'), w2. split.
  - rewrite (bind_Ok _ _ _ _ _ Hfill). by rewrite (bind_Ok _ _ _ _ _ Hcopy).
  - simpl. split; [apply dense_row_buffer; nia|].
    split; [by rewrite Hsc'|]. split; [by rewrite Hyp'|by rewrite Hlive2].
Qed.


(** The same loop in [decision_function], for a classification type. *)
Lemma decision_function_pairs_loop_ok (model : svm_model) (x_pt : list float)
    (n d y_cols : Z) (buf : list svm_node) (dec_values y_pt : list float) (w : world) :
  0 <= n → 0 <= d → n * d <= INT_MAX → n * d <= Z.of_nat (length x_pt) →
  node_buffer (Z.to_nat d) buf →
  0 <= y_cols → n * y_cols <= INT_MAX →
  Z.of_nat (length dec_values) = y_cols →
  Z.of_nat (length y_pt) = n * y_cols →
  (∀ x, length (svm_predict_values model x) = Z.to_nat y_cols) →
  ∃ st w',
    for_lt n (λ i st,
      x_nodes <- fill_row x_pt i d st.1.1 ;;
      dec_values <- call_svm_predict_values model x_nodes st.1.2 0 ;;
      y_pt <- for_lt y_cols (λ j y_pt,
        d_j <- load dec_values j ;;
        store y_pt (int_add (int_mul i y_cols) j) d_j) st.2 ;;
      ret (x_nodes, dec_values, y_pt))%call (buf, dec_values, y_pt) w = (w', Ok st)
    ∧ live w' = live w ∧ length st.2 = length y_pt.
Proof.
  intros Hn Hd Hnd Hx Hbuf Hc Hnc Hdec Hy Hcontract.
  apply (batch_loop_ok (λ x s, call_svm_predict_values model x s 0)); try done.
  intros x s w1 Hs.
  destruct (fill_scratch_ok (E_svm_predict_values model x)
              (svm_predict_values model x) s w1) as (s' & Hrun & Hs').
  { rewrite Hcontract, Hs. lia. }
  by eexists s', _.
Qed.

(** The loop of [decision_function] for a regression or one-class type:
    the engine writes its one value straight into cell [i] of the
    result. *)
Lemma decision_function_single_loop_ok (model : svm_model) (x_pt : list float)
    (n d : Z) (buf : list svm_node) (y_pt : list float) (w : world) :
  0 <= n → 0 <= d → n * d <= INT_MAX → n * d <= Z.of_nat (length x_pt) →
  node_buffer (Z.to_nat d) buf →
  Z.of_nat (length y_pt) = n →
  (∀ x, length (svm_predict_values model x) = 1%nat) →
  ∃ st w',
    for_lt n (λ i st,
      x_nodes <- fill_row x_pt i d st.1 ;;
      y_pt <- call_svm_predict_values model x_nodes st.2 i ;;
      ret (x_nodes, y_pt))%call (buf, y_pt) w = (w', Ok st)
    ∧ live w' = live w ∧ length st.2 = length y_pt.
Proof.
  intros Hn Hd Hnd Hx Hbuf Hy Hcontract.
  destruct (for_from_ok
    (λ _ (st : list svm_node * list float) w',
       node_buffer (Z.to_nat d) st.1 ∧ length st.2 = length y_pt ∧ live w' = live w)
    (Z.to_nat n) 0
    (λ i st,
      x_nodes <- fill_row x_pt i d st.1 ;;
      y_pt <- call_svm_predict_values model x_nodes st.2 i ;;
      ret (x_nodes, y_pt))%call (buf, y_pt) w)
    as (st & w' & Hrun & _ & Hlen & Hlive); [done | |by exists st, w'].
  intros k [nodes yp] w1 Hk (Hnodes & Hyp & Hlive). simpl in *.
  rewrite Z.add_0_l.
  rewrite (bind_Ok _ _ _ _ _
    (fill_row_buffer x_pt (Z.of_nat k) d nodes w1 ltac:(lia) Hd ltac:(nia) ltac:(nia) Hnodes)).
  set (x := toSparseSample (dense_row x_pt d (Z.of_nat k))).
  set (w2 := {| live := live w1; trace := trace w1 ++ [E_svm_predict_values model x] |}).
  assert (Hfits : Z.of_nat k + Z.of_nat (length (svm_predict_values model x))
                  <= Z.of_nat (length yp)) by (rewrite Hcontract; lia).
  pose proof (store_many_ok yp (Z.of_nat k) (svm_predict_values model x) w2
                ltac:(lia) Hfits) as Hstore.
  pose proof (store_many_length yp (Z.of_nat k) (svm_predict_values model x)
                ltac:(lia) Hfits) as Hyp'.
  eexists (x, _), w2. split.
  - unfold call_svm_predict_values.
    erewrite bind_Ok; [|unfold bind, emit; exact Hstore]. done.
  - simpl. split; [apply dense_row_buffer; nia|].
    split; [by rewrite Hyp'|done].
Qed.

End Proba.

Section ProbaCalls.

Context `{!LibSVM, !Converter, !Runtime}.

Lemma has_probability_spec (model : svm_model) :
  has_probability model = true
  ↔ (svm_type (param model) = C_SVC ∨ svm_type (param model) = NU_SVC)
    ∧ probA model ≠ None ∧ probB model ≠ None.
Proof.
  unfold has_probability.
  rewrite !andb_true_iff, orb_true_iff, !bool_decide_eq_true. tauto.
Qed.

(** The branch that [predict_proba] skips: nothing of [x_val] is looked
    at, and both decoded structures are released. *)
Lemma predict_proba_unsupported (x_val ph mh : VALUE) prm model (w : world) :
  rb_hash_to_svm_parameter ph = Ok prm →
  rb_hash_to_svm_model mh = Ok model →
  has_probability (assign_param model prm) = false →
  predict_proba x_val ph mh w = (w, Ok Qnil).
Proof.
  intros Hprm Hmodel Hno. unfold predict_proba.
  rewrite (bind_Ok _ _ _ _ _ (hash_to_svm_parameter_run ph prm w Hprm)).
  rewrite (bind_Ok _ _ _ _ _ (hash_to_svm_model_run mh model _ Hmodel)).
  cbv zeta. rewrite Hno. by destruct w.
Qed.


Lemma calibrated_has_probability prm model :
  calibrated prm model ↔ has_probability (assign_param model prm) = true.
Proof. by rewrite has_probability_spec. Qed.

End ProbaCalls.



(** C10: on the branch that does not predict (effective [svm_type]
    outside [C_SVC], [NU_SVC], or [probA] or [probB] missing)
    [predict_proba] returns [nil] for every [x], also one that is no
    array at all: the world is left as it was, so [x] was never cast
    (no [E_cast] event) and nothing was raised. *)
Theorem predict_proba_unsupported_ignores_x `{!LibSVM, !Converter, !Runtime}
    (x_val ph mh : VALUE) prm model (w : world) :
  rb_hash_to_svm_parameter ph = Ok prm →
  rb_hash_to_svm_model mh = Ok model →
  ¬ calibrated prm model →
  predict_proba x_val ph mh w = (w, Ok Qnil).
Proof.
  intros Hprm Hmodel Hno. apply (predict_proba_unsupported x_val ph mh prm model);
    [done..|].
  rewrite calibrated_has_probability in Hno. by destruct (has_probability _).
Qed.

Lemma predict_proba_unsupported_ignores_x_witness :
  @predict_proba Fixture.engine Fixture.converter Fixture.runtime
    (RString "not an array") (Fixture.param_of_type C_SVC) (Fixture.model_hash None)
    Fixture.w0
  = (Fixture.w0, Ok Qnil).
Proof.
  apply (@predict_proba_unsupported_ignores_x Fixture.engine Fixture.converter
           Fixture.runtime (RString "not an array") (Fixture.param_of_type C_SVC)
           (Fixture.model_hash None) (Fixture.decoded_parameter C_SVC)
           (Fixture.decoded_model None) Fixture.w0).
  - reflexivity.
  - reflexivity.
  - intros (_ & HA & _). by apply HA.
Defined.

(** ** The shape of the decision values *)

Section DecisionFunction.

Context `{!LibSVM, !Converter, !Runtime}.

Lemma one_value_per_sample_spec (model : svm_model) :
  one_value_per_sample model = true
  ↔ svm_type (param model) = ONE_CLASS ∨ svm_type (param model) = EPSILON_SVR
    ∨ svm_type (param model) = NU_SVR.
Proof.
  unfold one_value_per_sample.
  rewrite !orb_true_iff, !bool_decide_eq_true. tauto.
Qed.

Lemma decision_function_single (a : narray) (n d : Z) (ph mh : VALUE) prm model
    (w : world) :
  rb_hash_to_svm_parameter ph = Ok prm →
  rb_hash_to_svm_model mh = Ok model →
  one_value_per_sample (assign_param model prm) = true →
  dense_matrix a n d →
  (∀ x, length (svm_predict_values (assign_param model prm) x) = 1%nat) →
  ∃ w' data,
    decision_function (DFloat a) ph mh w
    = (w', Ok (DFloat {| na_contiguous := true; na_shape := [n]; na_data := data |}))
    ∧ Z.of_nat (length data) = n
    ∧ live w' = live w.
Proof.
  intros Hprm Hmodel Hone Hmat Hcontract.
  apply dense_matrix_dup in Hmat.
  pose proof Hmat as (Hshape & Hn & Hd & Hnd & Hlen).
  unfold decision_function, cast_unless_DFloat. flatten_binds.
  step (hash_to_svm_parameter_run ph prm w Hprm).
  step (hash_to_svm_model_run mh model _ Hmodel).
  set (w1 := {| live := N_model :: _; trace := _ |}).
  set (m := assign_param model prm) in *.
  destruct (NA_SHAPE_matrix _ n d w1 Hmat) as [HS0 HS1].
  step HS0. step HS1. cbv zeta. rewrite Hone.
  rewrite !size_t_of_int_id by lia.
  destruct (rb_narray_new_1 n 1) as [Hyshape Hylen]; [lia|].
  set (y_val := rb_narray_new 1 [n; 1]) in *.
  flatten_binds.
  step (node_buffer_alloc d w1 ltac:(lia)).
  set (w2 := {| live := N_x_nodes :: live w1; trace := trace w1 |}).
  destruct (node_buffer_sentinel d w2) as (buf & Hput & Hbuf); [lia|].
  step Hput.
  destruct (decision_function_single_loop_ok m (na_data (dup_unless_contiguous a))
    n d buf (na_get_pointer_for_write y_val) w2)
    as (st & w3 & Hloop & Hlive & Hst); try done; try lia.
  unfold na_get_pointer_for_read.
  step Hloop.
  step (xfree_head N_x_nodes _ w3 Hlive).
  unfold xfree_svm_model, xfree_svm_parameter.
  erewrite bind_Ok; [|by apply xfree_head].
  erewrite bind_Ok; [|by apply xfree_head].
  eexists _, st.2. split; [|split].
  - unfold ret, written. by rewrite Hyshape.
  - rewrite Hst. exact Hylen.
  - done.
Qed.

Lemma decision_function_pairs (a : narray) (n d : Z) (ph mh : VALUE) prm model
    (w : world) :
  rb_hash_to_svm_parameter ph = Ok prm →
  rb_hash_to_svm_model mh = Ok model →
  one_value_per_sample (assign_param model prm) = false →
  dense_matrix a n d →
  0 <= nr_class model →
  nr_class model * (nr_class model - 1) <= INT_MAX →
  n * (nr_class model * (nr_class model - 1) / 2) <= INT_MAX →
  (∀ x, length (svm_predict_values (assign_param model prm) x)
        = Z.to_nat (nr_class model * (nr_class model - 1) / 2)) →
  ∃ w' data,
    decision_function (DFloat a) ph mh w
    = (w', Ok (DFloat {| na_contiguous := true;
                         na_shape := [n; nr_class model * (nr_class model - 1) / 2];
                         na_data := data |}))
    ∧ Z.of_nat (length data) = n * (nr_class model * (nr_class model - 1) / 2)
    ∧ live w' = live w.
Proof.
  intros Hprm Hmodel Hone Hmat Hc Hfit Hnc Hcontract.
  apply dense_matrix_dup in Hmat.
  pose proof Hmat as (Hshape & Hn & Hd & Hnd & Hlen).
  unfold decision_function, cast_unless_DFloat. flatten_binds.
  step (hash_to_svm_parameter_run ph prm w Hprm).
  step (hash_to_svm_model_run mh model _ Hmodel).
  set (w1 := {| live := N_model :: _; trace := _ |}).
  set (m := assign_param model prm) in *.
  destruct (n_pairs_exact m Hc Hfit) as [Hpairs Hrange].
  change (nr_class m) with (nr_class model) in Hpairs.
  set (c := nr_class model * (nr_class model - 1) / 2) in *.
  destruct (NA_SHAPE_matrix _ n d w1 Hmat) as [HS0 HS1].
  step HS0. step HS1. cbv zeta. rewrite Hone, Hpairs.
  rewrite !size_t_of_int_id by lia.
  destruct (rb_narray_new_2 n c) as [Hyshape Hylen]; [lia..|].
  set (y_val := rb_narray_new 2 [n; c]) in *.
  flatten_binds.
  step (load_ok [n; c] 1 c w1 ltac:(lia) eq_refl).
  rewrite (int_of_size_t_id c) by lia.
  step (ALLOC_N_ok N_dec_values fresh_double c w1 ltac:(lia)).
  set (w2 := {| live := N_dec_values :: live w1; trace := trace w1 |}).
  step (node_buffer_alloc d w2 ltac:(lia)).
  set (w3 := {| live := N_x_nodes :: live w2; trace := trace w2 |}).
  destruct (node_buffer_sentinel d w3) as (buf & Hput & Hbuf); [lia|].
  step Hput.
  destruct (decision_function_pairs_loop_ok m (na_data (dup_unless_contiguous a))
    n d c buf (fresh_double <$> seq 0 (Z.to_nat c))
    (na_get_pointer_for_write y_val) w3)
    as (st & w4 & Hloop & Hlive & Hst); try done; try lia.
  { rewrite length_fmap, length_seq. lia. }
  unfold na_get_pointer_for_read.
  step Hloop.
  step (xfree_head N_x_nodes _ w4 Hlive).
  erewrite bind_Ok; [|by apply xfree_head]. flatten_binds.
  unfold xfree_svm_model, xfree_svm_parameter.
  erewrite bind_Ok; [|by apply xfree_head].
  erewrite bind_Ok; [|by apply xfree_head].
  eexists _, st.2. split; [|split].
  - unfold ret, written. by rewrite Hyshape.
  - rewrite Hst. exact Hylen.
  - done.
Qed.

End DecisionFunction.

(** C1: for a model mapping and a parameter mapping that decode, and an
    input matrix of shape [[n_samples, n_features]], [decision_function]
    returns a flat vector of [n_samples] values (width 1) when the
    [svm_type] in effect is [ONE_CLASS], [EPSILON_SVR] or [NU_SVR], and
    otherwise a matrix of shape
    [[n_samples, nr_class * (nr_class - 1) / 2]].  The sizes are those a
    C [int] holds, and the engine writes as many decision values as
    LIBSVM documents. *)
Theorem decision_function_shape `{!LibSVM, !Converter, !Runtime}
    (a : narray) (n d : Z) (ph mh : VALUE) prm model (w : world) :
  rb_hash_to_svm_parameter ph = Ok prm →
  rb_hash_to_svm_model mh = Ok model →
  dense_matrix a n d →
  0 <= nr_class model →
  nr_class model * (nr_class model - 1) <= INT_MAX →
  n * (nr_class model * (nr_class model - 1) / 2) <= INT_MAX →
  (∀ m x, length (svm_predict_values m x)
          = if one_value_per_sample m then 1%nat
            else Z.to_nat (nr_class m * (nr_class m - 1) / 2)) →
  (svm_type prm = ONE_CLASS ∨ svm_type prm = EPSILON_SVR ∨ svm_type prm = NU_SVR →
   ∃ w' data,
     decision_function (DFloat a) ph mh w
     = (w', Ok (DFloat {| na_contiguous := true; na_shape := [n]; na_data := data |}))
     ∧ Z.of_nat (length data) = n)
  ∧ (¬ (svm_type prm = ONE_CLASS ∨ svm_type prm = EPSILON_SVR ∨ svm_type prm = NU_SVR) →
     ∃ w' data,
       decision_function (DFloat a) ph mh w
       = (w', Ok (DFloat {| na_contiguous := true;
                            na_shape := [n; nr_class model * (nr_class model - 1) / 2];
                            na_data := data |}))
       ∧ Z.of_nat (length data) = n * (nr_class model * (nr_class model - 1) / 2)).
Proof.
  intros Hprm Hmodel Hmat Hc Hfit Hnc Hcontract.
  pose proof (one_value_per_sample_spec (assign_param model prm)) as Hspec.
  simpl in Hspec. split; intros Htype.
  - apply Hspec in Htype.
    destruct (decision_function_single a n d ph mh prm model w)
      as (w' & data & Hrun & Hlen & _); try done.
    + intros x. by rewrite Hcontract, Htype.
    + by exists w', data.
  - assert (Hone : one_value_per_sample (assign_param model prm) = false).
    { destruct (one_value_per_sample _); [|done]. destruct Htype. by apply Hspec. }
    destruct (decision_function_pairs a n d ph mh prm model w)
      as (w' & data & Hrun & Hlen & _); try done.
    + intros x. by rewrite Hcontract, Hone.
    + by exists w', data.
Qed.

Lemma decision_function_shape_witness :
  let a := {| na_contiguous := true; na_shape := [2; 2];
              na_data := [1; 2; 3; 4]%float |} in
  let ph := Fixture.param_of_type EPSILON_SVR in
  let mh := Fixture.model_hash None in
  let run := @decision_function Fixture.engine Fixture.converter Fixture.runtime
               (DFloat a) ph mh Fixture.w0 in
  (EPSILON_SVR = ONE_CLASS ∨ EPSILON_SVR = EPSILON_SVR ∨ EPSILON_SVR = NU_SVR →
   ∃ w' data,
     run = (w', Ok (DFloat {| na_contiguous := true; na_shape := [2]; na_data := data |}))
     ∧ Z.of_nat (length data) = 2)
  ∧ (¬ (EPSILON_SVR = ONE_CLASS ∨ EPSILON_SVR = EPSILON_SVR ∨ EPSILON_SVR = NU_SVR) →
     ∃ w' data,
       run = (w', Ok (DFloat {| na_contiguous := true; na_shape := [2; 2 * (2 - 1) / 2];
                                na_data := data |}))
       ∧ Z.of_nat (length data) = 2 * (2 * (2 - 1) / 2)).
Proof.
  intros a ph mh run.
  apply (@decision_function_shape Fixture.engine Fixture.converter Fixture.runtime
           a 2 2 ph mh (Fixture.decoded_parameter EPSILON_SVR)
           (Fixture.decoded_model None) Fixture.w0).
  - reflexivity.
  - reflexivity.
  - concrete.
  - concrete.
  - concrete.
  - concrete.
  - intros m x. simpl. rewrite length_replicate. by destruct (one_value_per_sample m).
Defined.

(** ** The training problem *)

Lemma insert_prefix {A} (pre l0 : list A) (k : nat) (x : A) :
  length pre = k → (k < length l0)%nat →
  <[k := x]> (pre ++ drop k l0) = (pre ++ [x]) ++ drop (S k) l0.
Proof.
  intros Hpre Hk. destruct (lookup_lt_is_Some_2 l0 k Hk) as [y Hy].
  rewrite (drop_S _ _ _ Hy), insert_app_r_alt by lia.
  rewrite Hpre, Nat.sub_diag. simpl. by rewrite <- app_assoc.
Qed.

Lemma problem_rows_S (n : nat) :
  problem_rows (S n) = N_problem_row (Z.of_nat n) :: problem_rows n.
Proof. unfold problem_rows. by rewrite seq_S, fmap_app, reverse_app. Qed.

Lemma sparse_rows_S (x_pt : list float) (d : Z) (n : nat) :
  sparse_rows x_pt d (S n)
  = sparse_rows x_pt d n ++ [toSparseSample (dense_row x_pt d (Z.of_nat n))].
Proof. unfold sparse_rows. by rewrite seq_S, fmap_app. Qed.

Lemma sparse_rows_length (x_pt : list float) (d : Z) (n : nat) :
  length (sparse_rows x_pt d n) = n.
Proof. unfold sparse_rows. by rewrite length_fmap, length_seq. Qed.

Lemma release_app (k : native) (ks rest : list native) :
  k ∉ ks → release k (ks ++ k :: rest) = Some (ks ++ rest).
Proof.
  induction ks as [|k' ks IH]; intros Hnotin; simpl.
  - by rewrite decide_True.
  - rewrite decide_False by (intros ->; apply Hnotin; left).
    rewrite IH; [done|]. intros Hin. apply Hnotin. by right.
Qed.

Section Problem.

Context `{!LibSVM, !Converter, !Runtime}.

Lemma put_sentinel_exact (buf : list svm_node) (d : Z) (w : world) :
  0 <= d → (Z.to_nat d < length buf)%nat →
  put_sentinel buf d w = (w, Ok (<[Z.to_nat d := sentinel]> buf)).
Proof.
  intros Hd Hlen.
  destruct (lookup_lt_is_Some_2 buf (Z.to_nat d) Hlen) as [nd Hnd].
  unfold put_sentinel. erewrite bind_Ok; [|by apply update_ok].
  erewrite update_ok; [|done|by apply list_lookup_insert_eq].
  by rewrite list_insert_insert_eq.
Qed.

(** One sample of the problem: the row in the first [n_features] cells
    of a fresh array, the sentinel in the last. *)
Lemma fresh_row_sparse (buf : list svm_node) (row : list float) :
  length buf = S (length row) →
  <[length row := sentinel]> (dense_nodes row ++ drop (length row) buf)
  = toSparseSample row.
Proof.
  intros Hbuf. unfold toSparseSample.
  destruct (lookup_lt_is_Some_2 buf (length row) ltac:(lia)) as [nd Hnd].
  rewrite (drop_S _ _ _ Hnd), drop_ge by lia.
  rewrite insert_app_r_alt by (rewrite dense_nodes_length; lia).
  by rewrite dense_nodes_length, Nat.sub_diag.
Qed.

Lemma prepare_problem_ok (x_pt y_pt : list float) (n d : Z) (w : world) :
  0 <= n → 0 <= d < INT_MAX → n * d <= INT_MAX →
  n * d <= Z.of_nat (length x_pt) → n <= Z.of_nat (length y_pt) →
  prepare_problem x_pt y_pt n d w
  = ({| live := problem_rows (Z.to_nat n)
                ++ N_problem_y :: N_problem_x :: N_problem :: live w;
        trace := trace w |},
     Ok {| prob_l := n; prob_y := take (Z.to_nat n) y_pt;
           prob_x := sparse_rows x_pt d (Z.to_nat n) |}).
Proof.
  intros Hn Hd Hnd Hx Hy. unfold prepare_problem.
  rewrite (bind_Ok _ _ _ _ _ (eq_refl : alloc N_problem w = (_, Ok tt))).
  erewrite bind_Ok; [|by apply ALLOC_N_ok].
  erewrite bind_Ok; [|by apply ALLOC_N_ok].
  simpl live. simpl trace.
  set (px0 := (λ _ : nat, []) <$> seq 0 (Z.to_nat n)).
  set (py0 := fresh_double <$> seq 0 (Z.to_nat n)).
  set (rest := N_problem_y :: N_problem_x :: N_problem :: live w).
  assert (Hpx0 : length px0 = Z.to_nat n) by (unfold px0; by rewrite length_fmap, length_seq).
  assert (Hpy0 : length py0 = Z.to_nat n) by (unfold py0; by rewrite length_fmap, length_seq).
  destruct (for_from_ok
    (λ k (xy : list (list svm_node) * list float) w',
       xy.1 = sparse_rows x_pt d k ++ drop k px0
       ∧ xy.2 = take k y_pt ++ drop k py0
       ∧ w' = {| live := problem_rows k ++ rest; trace := trace w |})
    (Z.to_nat n) 0
    (λ i xy,
      let problem_x := xy.1 in
      let problem_y := xy.2 in
      row <- ALLOC_N (N_problem_row i) fresh_node (int_add d 1) ;;
      row <- fill_row x_pt i d row ;;
      row <- put_sentinel row d ;;
      problem_x <- store problem_x i row ;;
      y_i <- load y_pt i ;;
      problem_y <- store problem_y i y_i ;;
      ret (problem_x, problem_y))%call (px0, py0)
    {| live := rest; trace := trace w |})
    as ([px py] & w' & Hrun & Hpx & Hpy & ->).
  - by rewrite take_0, !drop_0.
  - intros k [px py] w1 Hk (Hpx & Hpy & ->). simpl in Hpx, Hpy. subst px py.
    rewrite Z.add_0_l. cbv zeta.
    destruct (lookup_lt_is_Some_2 y_pt k ltac:(lia)) as [y_k Hyk].
    pose proof (dense_row_length x_pt d (Z.of_nat k) ltac:(lia) ltac:(lia) ltac:(nia))
      as Hrow.
    set (buf := fresh_node <$> seq 0 (Z.to_nat (d + 1))).
    assert (Hbuf : length buf = S (Z.to_nat d)).
    { unfold buf. rewrite length_fmap, length_seq. lia. }
    eexists (_, _), _. split.
    + rewrite int_add_id by (unfold in_int, INT_MIN; lia).
      erewrite bind_Ok; [|apply ALLOC_N_ok; lia]. fold buf.
      erewrite bind_Ok; [|apply fill_row_ok; [lia | lia | nia | nia | rewrite Hbuf; lia]].
      erewrite bind_Ok; cycle 1.
      { apply put_sentinel_exact; [lia|].
        rewrite length_app, dense_nodes_length, length_drop. lia. }
      rewrite <- Hrow at 1 2. rewrite fresh_row_sparse by (rewrite Hbuf; lia).
      cbn [fst snd].
      erewrite bind_Ok; cycle 1.
      { apply store_ok. rewrite length_app, sparse_rows_length, length_drop. lia. }
      erewrite bind_Ok; [|apply load_ok; [lia | by rewrite Nat2Z.id]].
      erewrite bind_Ok; cycle 1.
      { apply store_ok. rewrite length_app, length_take, length_drop. lia. }
      reflexivity.
    + cbn [fst snd]. rewrite Nat2Z.id. split; [|split].
      * rewrite insert_prefix by (rewrite ?sparse_rows_length; lia).
        by rewrite sparse_rows_S.
      * rewrite insert_prefix by (rewrite ?length_take; lia).
        by rewrite (take_S_r _ _ _ Hyk).
      * by rewrite problem_rows_S.
  - simpl in Hpx, Hpy. unfold for_lt. rewrite (bind_Ok _ _ _ _ _ Hrun).
    unfold ret. simpl. rewrite Hpx, Hpy, !drop_ge, !app_nil_r by lia. done.
Qed.

End Problem.

Lemma release_problem_row (k j : nat) (rest : list native) :
  release (N_problem_row (Z.of_nat k))
    (reverse ((λ i, N_problem_row (Z.of_nat i)) <$> seq k (S j)) ++ rest)
  = Some (reverse ((λ i, N_problem_row (Z.of_nat i)) <$> seq (S k) j) ++ rest).
Proof.
  simpl. rewrite reverse_cons, <- app_assoc. simpl. apply release_app.
  rewrite elem_of_reverse, list_elem_of_fmap. intros (i & Heq & Hin).
  injection Heq as Heq. apply elem_of_seq in Hin. lia.
Qed.

(** Releasing the node arrays in the order of the samples gives back all
    of them. *)
Lemma free_rows_ok (n : Z) (rest : list native) (w : world) :
  live w = problem_rows (Z.to_nat n) ++ rest →
  for_lt n (λ i _, xfree (N_problem_row i)) tt w
  = ({| live := rest; trace := trace w |}, Ok tt).
Proof.
  intros Hlive.
  destruct (for_from_ok
    (λ k (_ : unit) w',
       trace w' = trace w
       ∧ live w' = reverse ((λ i, N_problem_row (Z.of_nat i)) <$> seq k (Z.to_nat n - k))
                   ++ rest)
    (Z.to_nat n) 0 (λ i _, xfree (N_problem_row i)) tt w)
    as ([] & [ks tr] & Hrun & Htrace & Hks).
  - split; [done|]. by rewrite Nat.sub_0_r.
  - intros k [] w1 Hk [Htrace Hks]. rewrite Z.add_0_l.
    replace (Z.to_nat n - k)%nat with (S (Z.to_nat n - S k)) in Hks by lia.
    eexists tt, _. split.
    + apply xfree_run. rewrite Hks. apply release_problem_row.
    + done.
  - unfold for_lt. rewrite Hrun. simpl in *. rewrite Nat.sub_diag in Hks.
    by rewrite Htrace, Hks.
Qed.

Lemma free_problem_ok (n : Z) (rest : list native) (w : world) :
  live w = problem_rows (Z.to_nat n) ++ N_problem_y :: N_problem_x :: N_problem :: rest →
  free_problem n w = ({| live := rest; trace := trace w |}, Ok tt).
Proof.
  intros Hlive. unfold free_problem.
  rewrite (bind_Ok _ _ _ _ _ (free_rows_ok n _ w Hlive)).
  erewrite bind_Ok; [|by apply (xfree_run N_problem_x (N_problem_y :: N_problem :: rest))].
  erewrite bind_Ok; [|by apply xfree_head].
  by erewrite xfree_head.
Qed.

Lemma emit_run (e : event) (w : world) :
  emit e w = ({| live := live w; trace := trace w ++ [e] |}, Ok tt).
Proof. done. Qed.

Section Training.

Context `{!LibSVM, !Converter, !Runtime}.

Lemma call_svm_train_run (prob : svm_problem) (prm : svm_parameter) (w : world) :
  call_svm_train prob prm w
  = ({| live := N_engine_model :: live w; trace := trace w ++ [E_svm_train prob prm] |},
     Ok (svm_train prob prm)).
Proof. done. Qed.

Lemma svm_free_and_destroy_model_run (model : svm_model) (ks : list native) (w : world) :
  live w = N_engine_model :: ks →
  svm_free_and_destroy_model model w
  = ({| live := ks; trace := trace w ++ [E_svm_free_and_destroy_model model] |}, Ok tt).
Proof.
  intros Hlive. unfold svm_free_and_destroy_model.
  rewrite (bind_Ok _ _ _ _ _ (emit_run _ w)). by erewrite xfree_head.
Qed.

(** A run of [train] on a matrix and at least as many targets as it has
    rows. *)
Lemma train_ok (x y : narray) (n d : Z) (ph : VALUE) prm (w : world) :
  rb_hash_to_svm_parameter ph = Ok prm →
  dense_matrix x n d →
  n <= Z.of_nat (length (na_data y)) →
  let problem :=
    {| prob_l := n; prob_y := take (Z.to_nat n) (na_data y);
       prob_x := sparse_rows (na_data x) d (Z.to_nat n) |} in
  train (DFloat x) (DFloat y) ph w
  = ({| live := live w;
        trace := trace w ++ [E_svm_set_print_string_function;
                             E_svm_train problem prm;
                             E_svm_free_and_destroy_model (svm_train problem prm)] |},
     Ok (RHash (svm_model_to_rb_hash (svm_train problem prm)))).
Proof.
  intros Hprm Hmat Hy problem.
  apply dense_matrix_dup in Hmat.
  pose proof Hmat as (Hshape & Hn & Hd & Hnd & Hlen).
  unfold train, cast_unless_DFloat. flatten_binds.
  step (hash_to_svm_parameter_run ph prm w Hprm).
  set (w1 := {| live := N_parameter :: _; trace := _ |}).
  destruct (NA_SHAPE_matrix _ n d w1 Hmat) as [HS0 HS1].
  step HS0. step HS1. unfold na_get_pointer_for_read.
  rewrite !dup_unless_contiguous_data.
  rewrite dup_unless_contiguous_data in Hlen.
  step (prepare_problem_ok (na_data x) (na_data y) n d w1
          ltac:(lia) Hd Hnd ltac:(lia) Hy).
  fold problem.
  step (emit_run E_svm_set_print_string_function _).
  step (call_svm_train_run problem prm _).
  erewrite bind_Ok; [|by apply svm_free_and_destroy_model_run].
  cbn [live trace].
  erewrite bind_Ok; [|by apply free_problem_ok].
  unfold xfree_svm_parameter.
  erewrite bind_Ok; [|by apply xfree_head].
  unfold ret. cbn [live trace]. by rewrite <- !app_assoc.
Qed.

(** A run of [cross_validation], when the engine writes one target per
    sample. *)
Lemma cross_validation_ok (x y : narray) (n d k : Z) (ph : VALUE) prm (w : world) :
  rb_hash_to_svm_parameter ph = Ok prm →
  dense_matrix x n d →
  n <= Z.of_nat (length (na_data y)) →
  INT_MIN <= k <= INT_MAX →
  let problem :=
    {| prob_l := n; prob_y := take (Z.to_nat n) (na_data y);
       prob_x := sparse_rows (na_data x) d (Z.to_nat n) |} in
  Z.of_nat (length (svm_cross_validation problem prm k)) = n →
  cross_validation (DFloat x) (DFloat y) ph (Fixnum k) w
  = ({| live := live w;
        trace := trace w ++ [E_svm_set_print_string_function;
                             E_svm_cross_validation problem prm k] |},
     Ok (DFloat {| na_contiguous := true; na_shape := [n];
                   na_data := svm_cross_validation problem prm k |})).
Proof.
  intros Hprm Hmat Hy Hk problem Hcontract.
  apply dense_matrix_dup in Hmat.
  pose proof Hmat as (Hshape & Hn & Hd & Hnd & Hlen).
  unfold cross_validation, NUM2INT, cast_unless_DFloat.
  rewrite decide_True by done. flatten_binds.
  step (hash_to_svm_parameter_run ph prm w Hprm).
  set (w1 := {| live := N_parameter :: _; trace := _ |}).
  destruct (NA_SHAPE_matrix _ n d w1 Hmat) as [HS0 HS1].
  step HS0. step HS1. unfold na_get_pointer_for_read.
  rewrite !dup_unless_contiguous_data.
  rewrite dup_unless_contiguous_data in Hlen.
  step (prepare_problem_ok (na_data x) (na_data y) n d w1
          ltac:(lia) Hd Hnd ltac:(lia) Hy).
  fold problem. rewrite size_t_of_int_id by lia.
  unfold call_svm_cross_validation, na_get_pointer_for_write. flatten_binds.
  set (vals := svm_cross_validation problem prm k) in *.
  set (t_val := rb_narray_new 1 [n]).
  assert (Ht : length (na_data t_val) = length vals).
  { unfold t_val, rb_narray_new. simpl. rewrite length_fmap, length_seq. lia. }
  step (emit_run E_svm_set_print_string_function _).
  step (emit_run (E_svm_cross_validation problem prm k) _).
  erewrite bind_Ok; [|apply store_many_ok; lia].
  erewrite bind_Ok; [|by apply free_problem_ok].
  unfold xfree_svm_parameter.
  erewrite bind_Ok; [|by apply xfree_head].
  unfold ret, written. cbn [live trace]. rewrite <- !app_assoc.
  do 4 f_equal. simpl.
  rewrite drop_ge by (rewrite length_fmap, length_seq; lia). by rewrite app_nil_r.
Qed.

End Training.

Lemma toSparseSample_lookup (row : list float) (j : nat) (v : float) :
  row !! j = Some v →
  toSparseSample row !! j = Some {| index := Z.of_nat j + 1; value := v |}.
Proof.
  intros Hv. unfold toSparseSample, dense_nodes.
  rewrite lookup_app_l by (rewrite length_imap; by apply lookup_lt_Some in Hv).
  by rewrite list_lookup_imap, Hv.
Qed.

Lemma sparse_rows_form (x_pt : list float) (n d : Z) :
  0 <= n → 0 <= d → n * d <= Z.of_nat (length x_pt) →
  sparse_form_of x_pt (Z.to_nat n) (Z.to_nat d) (sparse_rows x_pt d (Z.to_nat n)).
Proof.
  intros Hn Hd Hx. split; [apply sparse_rows_length|].
  intros i Hi. exists (toSparseSample (dense_row x_pt d (Z.of_nat i))).
  pose proof (dense_row_buffer x_pt d (Z.of_nat i) ltac:(lia) Hd ltac:(nia)) as [Hlen Hlast].
  split; [|split; [done|split; [done|]]].
  - unfold sparse_rows. rewrite list_lookup_fmap, lookup_seq_lt by done. done.
  - intros j v Hj Hv. apply toSparseSample_lookup.
    rewrite dense_row_lookup by lia. rewrite <- Hv. f_equal. nia.
Qed.

(** C2: for a matrix [X] of shape [[n_samples, n_features]] and a
    target vector [y] of [n_samples] values, the problem that [train] and
    [cross_validation] hand to the engine has one node array per row, of
    length [n_features + 1], whose node [j] is
    [{index: j + 1, value: X[i][j]}] and whose last node is the sentinel
    [{index: -1, value: 0.0}], and its targets are [y] as it is; a row
    [[v1, v2, v3]] becomes [[{1,v1}, {2,v2}, {3,v3}, {-1,0}]]. *)
Theorem problem_is_sparse_conversion `{!LibSVM, !Converter, !Runtime}
    (x y : narray) (n d k : Z) (ph : VALUE) prm (w : world) :
  rb_hash_to_svm_parameter ph = Ok prm →
  dense_matrix x n d →
  Z.of_nat (length (na_data y)) = n →
  INT_MIN <= k <= INT_MAX →
  (∀ prob prm k, length (svm_cross_validation prob prm k) = Z.to_nat (prob_l prob)) →
  ∃ problem,
    prob_l problem = n
    ∧ prob_y problem = na_data y
    ∧ sparse_form_of (na_data x) (Z.to_nat n) (Z.to_nat d) (prob_x problem)
    ∧ (∀ v1 v2 v3, n = 1 → d = 3 → na_data x = [v1; v2; v3] →
       prob_x problem = [[ {| index := 1; value := v1 |}; {| index := 2; value := v2 |};
                           {| index := 3; value := v3 |};
                           {| index := -1; value := 0%float |} ]])
    ∧ (∃ w', train (DFloat x) (DFloat y) ph w
             = (w', Ok (RHash (svm_model_to_rb_hash (svm_train problem prm))))
             ∧ E_svm_train problem prm ∈ trace w')
    ∧ (∃ w', cross_validation (DFloat x) (DFloat y) ph (Fixnum k) w
             = (w', Ok (DFloat {| na_contiguous := true; na_shape := [n];
                                  na_data := svm_cross_validation problem prm k |}))
             ∧ E_svm_cross_validation problem prm k ∈ trace w').
Proof.
  intros Hprm Hmat Hy Hk Hcontract.
  pose proof Hmat as (Hshape & Hn & Hd & Hnd & Hlen).
  exists {| prob_l := n; prob_y := take (Z.to_nat n) (na_data y);
            prob_x := sparse_rows (na_data x) d (Z.to_nat n) |}.
  split; [done|]. split; [by rewrite take_ge by lia|].
  split; [apply sparse_rows_form; lia|]. split; [|split].
  - intros v1 v2 v3 -> -> Hdata. simpl. rewrite Hdata. done.
  - eexists. split; [apply (train_ok x y n d); [done | done | lia]|].
    simpl. rewrite !elem_of_app, !elem_of_cons. auto.
  - eexists. split.
    + apply (cross_validation_ok x y n d); [done | done | lia | done |].
      rewrite Hcontract. simpl. lia.
    + simpl. rewrite !elem_of_app, !elem_of_cons. auto.
Qed.

Lemma problem_is_sparse_conversion_witness :
  let x := {| na_contiguous := true; na_shape := [1; 3];
              na_data := [1.5; 2.5; 3.5]%float |} in
  let y := {| na_contiguous := true; na_shape := [1]; na_data := [1%float] |} in
  let ph := Fixture.param_of_type C_SVC in
  let prm := Fixture.decoded_parameter C_SVC in
  ∃ problem,
    prob_l problem = 1
    ∧ prob_y problem = [1%float]
    ∧ sparse_form_of [1.5; 2.5; 3.5]%float 1 3 (prob_x problem)
    ∧ (∀ v1 v2 v3, 1 = 1 → 3 = 3 → [1.5; 2.5; 3.5]%float = [v1; v2; v3] →
       prob_x problem = [[ {| index := 1; value := v1 |}; {| index := 2; value := v2 |};
                           {| index := 3; value := v3 |};
                           {| index := -1; value := 0%float |} ]])
    ∧ (∃ w', @train Fixture.engine Fixture.converter Fixture.runtime
               (DFloat x) (DFloat y) ph Fixture.w0
             = (w', Ok (RHash (Fixture.encode_model
                                 (@svm_train Fixture.engine problem prm))))
             ∧ E_svm_train problem prm ∈ trace w')
    ∧ (∃ w', @cross_validation Fixture.engine Fixture.converter Fixture.runtime
               (DFloat x) (DFloat y) ph (Fixnum 2) Fixture.w0
             = (w', Ok (DFloat {| na_contiguous := true; na_shape := [1];
                                  na_data := @svm_cross_validation Fixture.engine
                                               problem prm 2 |}))
             ∧ E_svm_cross_validation problem prm 2 ∈ trace w').
Proof.
  intros x y ph prm.
  apply (@problem_is_sparse_conversion Fixture.engine Fixture.converter Fixture.runtime
           x y 1 3 2 ph prm Fixture.w0).
  - reflexivity.
  - concrete.
  - reflexivity.
  - concrete.
  - intros prob prm' k. simpl. apply length_resize.
Defined.

(** C6, as the code has it: [train] and [cross_validation] never compare
    the length of [y] with [n_samples] and raise no shape error.  For a
    matrix [X] of shape [[n_samples, n_features]] and a target array
    that holds at least [n_samples] values, the problem is built from the
    first [n_samples] values of [y], the engine is invoked on it, and the
    call returns what the engine answered, with nothing left
    allocated. *)
Theorem train_takes_the_leading_targets `{!LibSVM, !Converter, !Runtime}
    (x y : narray) (n d k : Z) (ph : VALUE) prm (w : world) :
  rb_hash_to_svm_parameter ph = Ok prm →
  dense_matrix x n d →
  n <= Z.of_nat (length (na_data y)) →
  INT_MIN <= k <= INT_MAX →
  (∀ prob prm k, length (svm_cross_validation prob prm k) = Z.to_nat (prob_l prob)) →
  ∃ problem,
    prob_l problem = n
    ∧ prob_y problem = take (Z.to_nat n) (na_data y)
    ∧ sparse_form_of (na_data x) (Z.to_nat n) (Z.to_nat d) (prob_x problem)
    ∧ train (DFloat x) (DFloat y) ph w
      = ({| live := live w;
            trace := trace w ++ [E_svm_set_print_string_function;
                                 E_svm_train problem prm;
                                 E_svm_free_and_destroy_model (svm_train problem prm)] |},
         Ok (RHash (svm_model_to_rb_hash (svm_train problem prm))))
    ∧ cross_validation (DFloat x) (DFloat y) ph (Fixnum k) w
      = ({| live := live w;
            trace := trace w ++ [E_svm_set_print_string_function;
                                 E_svm_cross_validation problem prm k] |},
         Ok (DFloat {| na_contiguous := true; na_shape := [n];
                       na_data := svm_cross_validation problem prm k |})).
Proof.
  intros Hprm Hmat Hy Hk Hcontract.
  pose proof Hmat as (Hshape & Hn & Hd & Hnd & Hlen).
  exists {| prob_l := n; prob_y := take (Z.to_nat n) (na_data y);
            prob_x := sparse_rows (na_data x) d (Z.to_nat n) |}.
  split; [done|]. split; [done|].
  split; [apply sparse_rows_form; lia|]. split.
  - by apply (train_ok x y n d).
  - apply (cross_validation_ok x y n d); [done..|].
    rewrite Hcontract. simpl. lia.
Qed.

Lemma train_takes_the_leading_targets_witness :
  let x := {| na_contiguous := true; na_shape := [1; 1]; na_data := [1%float] |} in
  let y := {| na_contiguous := true; na_shape := [2];
              na_data := [0%float; 1%float] |} in
  let ph := Fixture.param_of_type C_SVC in
  let prm := Fixture.decoded_parameter C_SVC in
  ∃ problem,
    prob_l problem = 1
    ∧ prob_y problem = take (Z.to_nat 1) [0%float; 1%float]
    ∧ sparse_form_of [1%float] (Z.to_nat 1) (Z.to_nat 1) (prob_x problem)
    ∧ @train Fixture.engine Fixture.converter Fixture.runtime
        (DFloat x) (DFloat y) ph Fixture.w0
      = ({| live := [];
            trace := [] ++ [E_svm_set_print_string_function;
                            E_svm_train problem prm;
                            E_svm_free_and_destroy_model
                              (@svm_train Fixture.engine problem prm)] |},
         Ok (RHash (Fixture.encode_model (@svm_train Fixture.engine problem prm))))
    ∧ @cross_validation Fixture.engine Fixture.converter Fixture.runtime
        (DFloat x) (DFloat y) ph (Fixnum 2) Fixture.w0
      = ({| live := [];
            trace := [] ++ [E_svm_set_print_string_function;
                            E_svm_cross_validation problem prm 2] |},
         Ok (DFloat {| na_contiguous := true; na_shape := [1];
                       na_data := @svm_cross_validation Fixture.engine problem prm 2 |})).
Proof.
  intros x y ph prm.
  apply (@train_takes_the_leading_targets Fixture.engine Fixture.converter
           Fixture.runtime x y 1 1 2 ph prm Fixture.w0).
  - reflexivity.
  - concrete.
  - concrete.
  - concrete.
  - intros prob prm' k. simpl. apply length_resize.
Defined.

(** C6, as the specification has it, fails: one sample and two targets
    are accepted, no [ShapeMismatchError] is raised, and the engine is
    trained on the first target. *)
Lemma train_accepts_a_longer_target_vector :
  let x := Fixture.matrix 1 1 [1%float] in
  let y := Fixture.vector [0%float; 1%float] in
  let run := @train Fixture.engine Fixture.converter Fixture.runtime
               x y (Fixture.param_of_type C_SVC) Fixture.w0 in
  let problem :=
    {| prob_l := 1; prob_y := [0%float];
       prob_x := [[ {| index := 1; value := 1 |}; {| index := -1; value := 0 |} ]] |} in
  length [0%float; 1%float] ≠ 1%nat
  ∧ run.2 ≠ Raised ShapeMismatchError
  ∧ run.2 = Ok (RHash (Fixture.encode_model
                         (@svm_train Fixture.engine problem
                            (Fixture.decoded_parameter C_SVC))))
  ∧ trace run.1
    = [E_svm_set_print_string_function;
       E_svm_train problem (Fixture.decoded_parameter C_SVC);
       E_svm_free_and_destroy_model
         (@svm_train Fixture.engine problem (Fixture.decoded_parameter C_SVC))].
Proof.
  intros x y run problem.
  assert (Hrun : run = ({| live := [];
                           trace := [E_svm_set_print_string_function;
                                     E_svm_train problem (Fixture.decoded_parameter C_SVC);
                                     E_svm_free_and_destroy_model
                                       (@svm_train Fixture.engine problem
                                          (Fixture.decoded_parameter C_SVC))] |},
                        Ok (RHash (Fixture.encode_model
                                     (@svm_train Fixture.engine problem
                                        (Fixture.decoded_parameter C_SVC))))))
    by (vm_compute; reflexivity).
  rewrite Hrun. simpl. repeat split; discriminate.
Qed.

(** ** Which record decides the branch *)

Lemma bind_ext {A B} (m : M A) (f g : A → M B) (w : world) :
  (∀ a w1, f a w1 = g a w1) → bind m f w = bind m g w.
Proof. intros Hfg. unfold bind. destruct (m w) as [w1 [a | e |]]; auto. Qed.

(** C5, as the code has it: the parameter record the model mapping
    carries plays no part in the dispatch.  Two model mappings that
    decode to records differing only in that record give the same run of
    [decision_function] and of [predict_proba]; the branch is taken on
    the [svm_type] of the caller's parameter mapping (for
    [predict_proba] together with the presence of [probA] and [probB] on
    the decoded model). *)
Theorem dispatch_on_the_caller_parameter `{!LibSVM, !Converter, !Runtime}
    (x_val ph mh1 mh2 : VALUE) model1 model2 (w : world) :
  rb_hash_to_svm_model mh1 = Ok model1 →
  rb_hash_to_svm_model mh2 = Ok model2 →
  (∀ prm, assign_param model1 prm = assign_param model2 prm) →
  decision_function x_val ph mh1 w = decision_function x_val ph mh2 w
  ∧ predict_proba x_val ph mh1 w = predict_proba x_val ph mh2 w
  ∧ (∀ prm, one_value_per_sample (assign_param model1 prm) = true
            ↔ svm_type prm = ONE_CLASS ∨ svm_type prm = EPSILON_SVR
              ∨ svm_type prm = NU_SVR)
  ∧ (∀ prm, has_probability (assign_param model1 prm) = true
            ↔ calibrated prm model1).
Proof.
  intros Hm1 Hm2 Hsame. split; [|split; [|split]].
  - unfold decision_function.
    apply bind_ext; intros x_val' w1. apply bind_ext; intros prm w2.
    rewrite (bind_Ok _ _ _ _ _ (hash_to_svm_model_run mh1 model1 w2 Hm1)).
    rewrite (bind_Ok _ _ _ _ _ (hash_to_svm_model_run mh2 model2 w2 Hm2)).
    cbv zeta. by rewrite (Hsame prm).
  - unfold predict_proba.
    apply bind_ext; intros prm w1.
    rewrite (bind_Ok _ _ _ _ _ (hash_to_svm_model_run mh1 model1 w1 Hm1)).
    rewrite (bind_Ok _ _ _ _ _ (hash_to_svm_model_run mh2 model2 w1 Hm2)).
    cbv zeta. by rewrite (Hsame prm).
  - intros prm. apply (one_value_per_sample_spec (assign_param model1 prm)).
  - intros prm. symmetry. apply calibrated_has_probability.
Qed.

Lemma dispatch_on_the_caller_parameter_witness :
  let x := Fixture.matrix 2 2 [1; 2; 3; 4]%float in
  let ph := Fixture.param_of_type EPSILON_SVR in
  let mh1 := Fixture.model_hash_of_type C_SVC (Some [1%float]) in
  let mh2 := Fixture.model_hash_of_type NU_SVR (Some [1%float]) in
  let model1 := Fixture.decoded_model_of_type C_SVC (Some [1%float]) in
  @decision_function Fixture.engine Fixture.converter Fixture.runtime x ph mh1 Fixture.w0
  = @decision_function Fixture.engine Fixture.converter Fixture.runtime x ph mh2 Fixture.w0
  ∧ @predict_proba Fixture.engine Fixture.converter Fixture.runtime x ph mh1 Fixture.w0
    = @predict_proba Fixture.engine Fixture.converter Fixture.runtime x ph mh2 Fixture.w0
  ∧ (∀ prm, one_value_per_sample (assign_param model1 prm) = true
            ↔ svm_type prm = ONE_CLASS ∨ svm_type prm = EPSILON_SVR
              ∨ svm_type prm = NU_SVR)
  ∧ (∀ prm, has_probability (assign_param model1 prm) = true
            ↔ calibrated prm model1).
Proof.
  intros x ph mh1 mh2 model1.
  apply (@dispatch_on_the_caller_parameter Fixture.engine Fixture.converter
           Fixture.runtime x ph mh1 mh2 model1
           (Fixture.decoded_model_of_type NU_SVR (Some [1%float])) Fixture.w0).
  - reflexivity.
  - reflexivity.
  - intros prm. reflexivity.
Defined.

(** C5, as the specification has it, fails: one and the same model
    mapping, whose own parameter record says [C_SVC], is sent down the
    classification branch (a matrix with one column per pair of classes)
    by a caller parameter of type [C_SVC] and down the regression branch
    (a flat vector) by a caller parameter of type [EPSILON_SVR]; and
    with [C_SVC] everywhere, [predict_proba] answers or not with the
    presence of [probA] and [probB]. *)
Lemma decision_branch_differs_for_one_model :
  let x := Fixture.matrix 2 2 [1; 2; 3; 4]%float in
  let mh := Fixture.model_hash None in
  let result ph :=
    (@decision_function Fixture.engine Fixture.converter Fixture.runtime
       x ph mh Fixture.w0).2 in
  let proba mh :=
    (@predict_proba Fixture.engine Fixture.converter Fixture.runtime
       x (Fixture.param_of_type C_SVC) mh Fixture.w0).2 in
  @rb_hash_to_svm_model Fixture.converter mh = Ok (Fixture.decoded_model None)
  ∧ svm_type (param (Fixture.decoded_model None)) = C_SVC
  ∧ result (Fixture.param_of_type C_SVC)
    = Ok (DFloat {| na_contiguous := true; na_shape := [2; 1];
                    na_data := [1; 3]%float |})
  ∧ result (Fixture.param_of_type EPSILON_SVR)
    = Ok (DFloat {| na_contiguous := true; na_shape := [2];
                    na_data := [1; 3]%float |})
  ∧ result (Fixture.param_of_type C_SVC) ≠ result (Fixture.param_of_type EPSILON_SVR)
  ∧ proba (Fixture.model_hash None) = Ok Qnil
  ∧ proba (Fixture.model_hash (Some [1%float]))
    = Ok (DFloat {| na_contiguous := true; na_shape := [2; 2];
                    na_data := [1; 1; 3; 3]%float |}).
Proof.
  intros x mh result proba.
  assert (H1 : result (Fixture.param_of_type C_SVC)
               = Ok (DFloat {| na_contiguous := true; na_shape := [2; 1];
                               na_data := [1; 3]%float |}))
    by (vm_compute; reflexivity).
  assert (H2 : result (Fixture.param_of_type EPSILON_SVR)
               = Ok (DFloat {| na_contiguous := true; na_shape := [2];
                               na_data := [1; 3]%float |}))
    by (vm_compute; reflexivity).
  split; [reflexivity|]. split; [reflexivity|].
  split; [exact H1|]. split; [exact H2|].
  split; [rewrite H1, H2; discriminate|].
  split; vm_compute; reflexivity.
Qed.

(** ** The parameter record the engine sees *)

Section Events.

Context `{!LibSVM, !Converter, !Runtime}.
Context (P : event → Prop).

Lemma emits_cast_unless_DFloat v : P (E_cast v) → emits P (cast_unless_DFloat v).
Proof.
  intros Hv. unfold cast_unless_DFloat.
  destruct v; try (apply pure_emits, pure_ret);
    (apply emits_bind; [by apply emits_emit | intros; apply pure_emits, pure_lift]).
Qed.

Lemma emits_ALLOC_N {A} (k : native) (fresh : nat → A) (n : Z) :
  emits P (ALLOC_N k fresh n).
Proof.
  unfold ALLOC_N. destruct (decide _).
  - apply emits_bind; [apply emits_alloc | intros; apply pure_emits, pure_ret].
  - apply pure_emits, pure_rb_raise.
Qed.

Lemma emits_hash_to_svm_parameter h : emits P (hash_to_svm_parameter h).
Proof.
  unfold hash_to_svm_parameter.
  apply emits_bind; [apply pure_emits, pure_lift | intros].
  apply emits_bind; [apply emits_alloc | intros; apply pure_emits, pure_ret].
Qed.

Lemma emits_hash_to_svm_model h : emits P (hash_to_svm_model h).
Proof.
  unfold hash_to_svm_model.
  apply emits_bind; [apply pure_emits, pure_lift | intros].
  apply emits_bind; [apply emits_alloc | intros; apply pure_emits, pure_ret].
Qed.

Lemma emits_call_svm_predict model x :
  P (E_svm_predict model x) → emits P (call_svm_predict model x).
Proof.
  intros Hev. unfold call_svm_predict.
  apply emits_bind; [by apply emits_emit | intros; apply pure_emits, pure_ret].
Qed.

Lemma emits_call_svm_predict_values model x buf off :
  P (E_svm_predict_values model x) → emits P (call_svm_predict_values model x buf off).
Proof.
  intros Hev. unfold call_svm_predict_values.
  apply emits_bind; [by apply emits_emit | intros; apply pure_emits, pure_store_many].
Qed.

Lemma emits_call_svm_predict_probability model x buf :
  P (E_svm_predict_probability model x) →
  emits P (call_svm_predict_probability model x buf).
Proof.
  intros Hev. unfold call_svm_predict_probability.
  apply emits_bind; [by apply emits_emit | intros; apply pure_emits, pure_store_many].
Qed.

Lemma emits_call_svm_save_model path model :
  P (E_svm_save_model path model) → emits P (call_svm_save_model path model).
Proof.
  intros Hev. unfold call_svm_save_model.
  apply emits_bind; [by apply emits_emit | intros; apply pure_emits, pure_ret].
Qed.

End Events.

(** Walks through a function body, one statement at a time. *)
Ltac emits_walk :=
  repeat match goal with
    | |- emits _ (bind _ _) => apply emits_bind; [|intros ? ? ? ?]
    | |- emits _ (for_lt _ _ _) => apply emits_for_lt; intros ? ?
    | |- emits _ (if _ then _ else _) => apply emits_if
    | |- emits _ (cast_unless_DFloat _) => apply emits_cast_unless_DFloat
    | |- emits _ (ALLOC_N _ _ _) => apply emits_ALLOC_N
    | |- emits _ (hash_to_svm_parameter _) => apply emits_hash_to_svm_parameter
    | |- emits _ (hash_to_svm_model _) => apply emits_hash_to_svm_model
    | |- emits _ (call_svm_predict _ _) => apply emits_call_svm_predict
    | |- emits _ (call_svm_predict_values _ _ _ _) => apply emits_call_svm_predict_values
    | |- emits _ (call_svm_predict_probability _ _ _) =>
        apply emits_call_svm_predict_probability
    | |- emits _ (call_svm_save_model _ _) => apply emits_call_svm_save_model
    | |- emits _ (xfree _) => apply emits_xfree
    | |- emits _ _ => apply pure_emits; solve [auto 10 with pure]
    end.

(** On every path, whatever the arguments: a call into the engine that
    takes the model takes one whose parameter record is the record
    decoded from the caller's parameter mapping. *)
Lemma calls_carry_the_caller_parameter `{!LibSVM, !Converter, !Runtime}
    (x_val filename ph mh : VALUE) :
  emits (under_caller_parameter ph) (predict x_val ph mh)
  ∧ emits (under_caller_parameter ph) (decision_function x_val ph mh)
  ∧ emits (under_caller_parameter ph) (predict_proba x_val ph mh)
  ∧ emits (under_caller_parameter ph) (save_svm_model filename ph mh).
Proof.
  split; [|split; [|split]].
  - unfold predict, xfree_svm_model, xfree_svm_parameter. emits_walk.
    all: try done.
    all: simpl; by match goal with
         | H : hash_to_svm_parameter _ _ = (_, Ok _) |- _ =>
             apply hash_to_svm_parameter_Ok in H as [? _]
         end.
  - unfold decision_function, xfree_svm_model, xfree_svm_parameter. emits_walk.
    all: try done.
    all: simpl; by match goal with
         | H : hash_to_svm_parameter _ _ = (_, Ok _) |- _ =>
             apply hash_to_svm_parameter_Ok in H as [? _]
         end.
  - unfold predict_proba, xfree_svm_model, xfree_svm_parameter. emits_walk.
    all: try done.
    all: simpl; by match goal with
         | H : hash_to_svm_parameter _ _ = (_, Ok _) |- _ =>
             apply hash_to_svm_parameter_Ok in H as [? _]
         end.
  - unfold save_svm_model, xfree_svm_model, xfree_svm_parameter. emits_walk.
    all: try done.
    all: simpl; by match goal with
         | H : hash_to_svm_parameter _ _ = (_, Ok _) |- _ =>
             apply hash_to_svm_parameter_Ok in H as [? _]
         end.
Qed.

(** ** What is still allocated when a call returns *)

Section Release.

Context `{!LibSVM, !Converter, !Runtime}.

Lemma steady_row_loop_body (x_pt : list float) (i d : Z) (row : list svm_node)
    (problem_x : list (list svm_node)) (y_pt problem_y : list float) :
  steady (row <- fill_row x_pt i d row ;;
          row <- put_sentinel row d ;;
          problem_x <- store problem_x i row ;;
          y_i <- load y_pt i ;;
          problem_y <- store problem_y i y_i ;;
          ret (problem_x, problem_y))%call.
Proof. apply pure_steady. auto 20 with pure. Qed.

Lemma prepare_problem_live (x_pt y_pt : list float) (n d : Z) (w w' : world) problem :
  prepare_problem x_pt y_pt n d w = (w', Ok problem) →
  live w' = problem_rows (Z.to_nat n)
            ++ N_problem_y :: N_problem_x :: N_problem :: live w.
Proof.
  unfold prepare_problem. intros Hrun.
  apply bind_inv_Ok in Hrun as (w1 & ? & Ha & Hrun). apply alloc_Ok in Ha.
  apply bind_inv_Ok in Hrun as (w2 & px & Hb & Hrun). apply ALLOC_N_Ok in Hb.
  apply bind_inv_Ok in Hrun as (w3 & py & Hc & Hrun). apply ALLOC_N_Ok in Hc.
  apply bind_inv_Ok in Hrun as (w4 & xy & Hloop & Hrun).
  apply ret_inv in Hrun as [-> _].
  apply (for_from_inv (λ k w', live w' = problem_rows k ++ live w3)) in Hloop.
  - rewrite Hloop, Hc, Hb, Ha. done.
  - done.
  - intros k s wa s1 wb Hk Hlive Hbody. rewrite Z.add_0_l in Hbody. cbv zeta in Hbody.
    apply bind_inv_Ok in Hbody as (wc & row & Hrow & Hbody). apply ALLOC_N_Ok in Hrow.
    apply (steady_Ok _ _ _ _ (steady_row_loop_body _ _ _ _ _ _ _)) in Hbody.
    by rewrite Hbody, Hrow, Hlive, problem_rows_S.
Qed.

Lemma free_problem_live (n : Z) (rest : list native) (w w' : world) (u : unit) :
  free_problem n w = (w', Ok u) →
  live w = problem_rows (Z.to_nat n) ++ N_problem_y :: N_problem_x :: N_problem :: rest →
  live w' = rest.
Proof. intros Hrun Hlive. rewrite (free_problem_ok n rest w Hlive) in Hrun. by injection Hrun as <-. Qed.

Lemma steady_predict_loop model x_pt n d st :
  steady (for_lt n (λ i st,
    x_nodes <- fill_row x_pt i d st.1 ;;
    y_i <- call_svm_predict model x_nodes ;;
    y_pt <- store st.2 i y_i ;;
    ret (x_nodes, y_pt))%call st).
Proof.
  apply steady_for_lt. intros i s.
  apply steady_bind; [apply pure_steady, pure_fill_row|intros].
  apply steady_bind; [apply steady_call_svm_predict|intros].
  apply pure_steady. auto with pure.
Qed.

Lemma steady_single_loop model x_pt n d st :
  steady (for_lt n (λ i st,
    x_nodes <- fill_row x_pt i d st.1 ;;
    y_pt <- call_svm_predict_values model x_nodes st.2 i ;;
    ret (x_nodes, y_pt))%call st).
Proof.
  apply steady_for_lt. intros i s.
  apply steady_bind; [apply pure_steady, pure_fill_row|intros].
  apply steady_bind; [apply steady_call_svm_predict_values|intros].
  apply pure_steady, pure_ret.
Qed.

Lemma steady_batch_loop (call : list svm_node → list float → M (list float))
    x_pt n d cols st :
  (∀ x s, steady (call x s)) →
  steady (for_lt n (λ i st,
    x_nodes <- fill_row x_pt i d st.1.1 ;;
    s <- call x_nodes st.1.2 ;;
    y_pt <- for_lt cols (λ j y_pt,
      v <- load s j ;;
      store y_pt (int_add (int_mul i cols) j) v) st.2 ;;
    ret (x_nodes, s, y_pt))%call st).
Proof.
  intros Hcall. apply steady_for_lt. intros i s.
  apply steady_bind; [apply pure_steady, pure_fill_row|intros].
  apply steady_bind; [apply Hcall|intros].
  apply pure_steady. apply pure_bind; [|intros; apply pure_ret].
  apply pure_for_lt. intros. auto with pure.
Qed.

End Release.

Section ReleaseLoops.

Context `{!LibSVM, !Converter, !Runtime}.

Lemma steady_pairs_loop model x_pt n d y_cols st :
  steady (for_lt n (λ i st,
    x_nodes <- fill_row x_pt i d st.1.1 ;;
    dec_values <- call_svm_predict_values model x_nodes st.1.2 0 ;;
    y_pt <- for_lt y_cols (λ j y_pt,
      d_j <- load dec_values j ;;
      store y_pt (int_add (int_mul i y_cols) j) d_j) st.2 ;;
    ret (x_nodes, dec_values, y_pt))%call st).
Proof.
  apply (steady_batch_loop (λ x s, call_svm_predict_values model x s 0)).
  intros. apply steady_call_svm_predict_values.
Qed.

Lemma steady_proba_loop model x_pt n d st :
  steady (for_lt n (λ i st,
    x_nodes <- fill_row x_pt i d st.1.1 ;;
    probs <- call_svm_predict_probability model x_nodes st.1.2 ;;
    y_pt <- for_lt (nr_class model) (λ j y_pt,
      p_j <- load probs j ;;
      store y_pt (int_add (int_mul i (nr_class model)) j) p_j) st.2 ;;
    ret (x_nodes, probs, y_pt))%call st).
Proof.
  apply (steady_batch_loop (call_svm_predict_probability model)).
  intros. apply steady_call_svm_predict_probability.
Qed.

Lemma call_svm_load_model_Ok (path : string) (w w' : world) (model : option svm_model) :
  call_svm_load_model path w = (w', Ok model) →
  live w' = match model with
            | Some _ => N_engine_model :: live w
            | None => live w
            end.
Proof.
  unfold call_svm_load_model, bind, emit, alloc, ret.
  destruct (svm_load_model path); by intros [= <- <-].
Qed.

End ReleaseLoops.

#[global] Hint Resolve steady_predict_loop steady_single_loop steady_pairs_loop
  steady_proba_loop : steady.

(** Splits a run that returned into its steps, and records what each
    did to the allocations. *)
Ltac track H :=
  repeat lazymatch type of H with
  | bind _ _ _ = (_, Ok _) =>
      let Hm := fresh "Hstep" in
      apply bind_inv_Ok in H as (? & ? & Hm & H);
      lazymatch type of Hm with
      | hash_to_svm_parameter _ _ = _ =>
          apply hash_to_svm_parameter_Ok in Hm as (_ & Hm & _)
      | hash_to_svm_model _ _ = _ =>
          apply hash_to_svm_model_Ok in Hm as (_ & Hm & _)
      | ALLOC_N _ _ _ _ = _ => apply ALLOC_N_Ok in Hm
      | alloc _ _ = _ => apply alloc_Ok in Hm
      | xfree _ _ = _ => apply xfree_Ok in Hm
      | xfree_svm_model _ = _ => apply xfree_Ok in Hm
      | xfree_svm_parameter _ = _ => apply xfree_Ok in Hm
      | call_svm_train _ _ _ = _ => apply call_svm_train_Ok in Hm
      | svm_free_and_destroy_model _ _ = _ =>
          apply svm_free_and_destroy_model_Ok in Hm
      | call_svm_load_model _ _ = _ => apply call_svm_load_model_Ok in Hm
      | prepare_problem _ _ _ _ _ = _ => apply prepare_problem_live in Hm
      | free_problem _ _ = _ => idtac
      | (if _ then _ else _) _ = _ => idtac
      | match _ with _ => _ end _ = _ => idtac
      | _ => apply steady_Ok in Hm; [|solve [auto 10 with steady]]
      end
  | ret _ _ = (_, Ok _) => apply ret_inv in H as [-> ->]
  end.

(** Replays the record: every allocation list becomes explicit. *)
Ltac settle :=
  repeat match goal with
    | H : live ?w = _ |- _ => is_var w; try rewrite H in *; clear H
    | H : release _ _ = Some _ |- _ =>
        simpl in H; injection H as H; symmetry in H
    | H : free_problem _ _ = (_, Ok _) |- _ =>
        eapply free_problem_live in H; [|done]
    end.

(** C9, as the code has it: whenever one of the seven operations
    returns, every native structure it allocated (the parameter and model
    structures decoded from the mappings, the problem with its arrays and
    one node array per sample, the node and scratch buffers, the model
    the engine handed out) has been released: the allocations are those
    the call started with. *)
Theorem every_return_releases `{!LibSVM, !Converter, !Runtime}
    (x_val y_val ph mh nr_folds filename : VALUE) (w w' : world) (v : VALUE) :
  (train x_val y_val ph w = (w', Ok v) → live w' = live w)
  ∧ (cross_validation x_val y_val ph nr_folds w = (w', Ok v) → live w' = live w)
  ∧ (predict x_val ph mh w = (w', Ok v) → live w' = live w)
  ∧ (decision_function x_val ph mh w = (w', Ok v) → live w' = live w)
  ∧ (predict_proba x_val ph mh w = (w', Ok v) → live w' = live w)
  ∧ (load_svm_model filename w = (w', Ok v) → live w' = live w)
  ∧ (save_svm_model filename ph mh w = (w', Ok v) → live w' = live w).
Proof.
  repeat split.
  - unfold train. intros Hrun. track Hrun.
    match goal with
    | Hfree : free_problem _ _ = _ |- _ =>
        eapply free_problem_live in Hfree; [|settle; reflexivity]
    end.
    settle. done.
  - unfold cross_validation. intros Hrun. track Hrun.
    match goal with
    | Hfree : free_problem _ _ = _ |- _ =>
        eapply free_problem_live in Hfree; [|settle; reflexivity]
    end.
    settle. done.
  - unfold predict. intros Hrun. track Hrun. settle. done.
  - unfold decision_function. intros Hrun. track Hrun.
    match goal with
    | Hbranch : (if ?c then _ else _) _ = _ |- _ =>
        destruct c; track Hbranch; settle; done
    end.
  - unfold predict_proba. intros Hrun. track Hrun.
    match goal with
    | Hbranch : (if ?c then _ else _) _ = _ |- _ =>
        destruct c; track Hbranch; settle; done
    end.
  - unfold load_svm_model. intros Hrun. track Hrun.
    match goal with
    | Hhash : match ?o with Some _ => _ | None => _ end _ = _ |- _ =>
        destruct o; track Hhash; settle; done
    end.
  - unfold save_svm_model. intros Hrun. track Hrun. settle. done.
Qed.

Lemma every_return_releases_witness :
  let run := @predict Fixture.engine Fixture.converter Fixture.runtime
               (Fixture.matrix 2 2 [1; 2; 3; 4]%float) (Fixture.param_of_type C_SVC)
               (Fixture.model_hash None) Fixture.w0 in
  live run.1 = live Fixture.w0.
Proof.
  intros run.
  refine (proj1 (proj2 (proj2
    (@every_return_releases Fixture.engine Fixture.converter Fixture.runtime
       (Fixture.matrix 2 2 [1; 2; 3; 4]%float) Qnil (Fixture.param_of_type C_SVC)
       (Fixture.model_hash None) Qnil Qnil Fixture.w0 run.1
       (DFloat {| na_contiguous := true; na_shape := [2];
                  na_data := [1; 3]%float |})))) _).
  vm_compute. reflexivity.
Defined.

(** C9, as the specification has it, fails on the paths that leave
    through an exception.  [save_svm_model] with [nil] for a file name
    raises [TypeError] out of [StringValuePtr] after both structures were
    decoded, and [predict_proba] with a calibrated model and a string for
    [x] raises out of the cast: in both the parameter and the model
    structure stay allocated. *)
Lemma an_exception_skips_the_release :
  let saved := @save_svm_model Fixture.engine Fixture.converter
                 Qnil (Fixture.param_of_type C_SVC) (Fixture.model_hash None)
                 Fixture.w0 in
  let proba := @predict_proba Fixture.engine Fixture.converter Fixture.runtime
                 (RString "x") (Fixture.param_of_type C_SVC)
                 (Fixture.model_hash (Some [1%float])) Fixture.w0 in
  saved.2 = Raised TypeError
  ∧ live saved.1 = [N_model; N_parameter]
  ∧ live saved.1 ≠ live Fixture.w0
  ∧ proba.2 = Raised CastError
  ∧ live proba.1 = [N_model; N_parameter]
  ∧ live proba.1 ≠ live Fixture.w0.
Proof.
  intros saved proba.
  assert (Hs : saved = ({| live := [N_model; N_parameter]; trace := [] |},
                        Raised TypeError)) by (vm_compute; reflexivity).
  assert (Hp : proba = ({| live := [N_model; N_parameter];
                           trace := [E_cast (RString "x")] |},
                        Raised CastError)) by (vm_compute; reflexivity).
  rewrite Hs, Hp. simpl. repeat split; discriminate.
Qed.

(** ** One buffer for all rows, or one per row *)

Lemma for_from_sim {S1 S2} (R : S1 → S2 → Prop) (Rw : world → world → Prop)
    count i (body1 : Z → S1 → M S1) (body2 : Z → S2 → M S2) s1 s2 w1 w2 :
  R s1 s2 → Rw w1 w2 →
  (∀ k s1 s2 w1 w2, (k < count)%nat → R s1 s2 → Rw w1 w2 →
     sim R Rw (body1 (i + Z.of_nat k) s1 w1) (body2 (i + Z.of_nat k) s2 w2)) →
  sim R Rw (for_from count i body1 s1 w1) (for_from count i body2 s2 w2).
Proof.
  revert i s1 s2 w1 w2. induction count as [|count IH]; intros i s1 s2 w1 w2 Hs Hw Hbody.
  - by split.
  - simpl. unfold bind.
    pose proof (Hbody 0%nat s1 s2 w1 w2 ltac:(lia) Hs Hw) as Hfirst.
    rewrite Z.add_0_r in Hfirst. unfold sim in Hfirst.
    destruct (body1 i s1 w1) as [w1' [s1' | e1 |]],
             (body2 i s2 w2) as [w2' [s2' | e2 |]]; simpl in Hfirst; try done.
    destruct Hfirst as [Hr Hw'].
    apply IH; [done..|]. intros k sa sb wa wb Hk Ha Hb.
    replace (i + 1 + Z.of_nat k) with (i + Z.of_nat (S k)) by lia.
    apply Hbody; [lia | done..].
Qed.

(** When the two loops are done, releasing the one buffer makes the two
    worlds equal. *)
Lemma xfree_buffer (w1 w2 : world) :
  holds_buffer w1 w2 → xfree N_x_nodes w1 = (w2, Ok tt).
Proof.
  intros [Htrace Hlive]. rewrite (xfree_head N_x_nodes (live w2) w1 Hlive).
  rewrite Htrace. by destruct w2.
Qed.

Lemma obs_bind {A B} (m : M A) (f g : A → M B) (w : world) :
  (∀ a w1, m w = (w1, Ok a) → obs (f a w1) = obs (g a w1)) →
  obs (bind m f w) = obs (bind m g w).
Proof. intros Hfg. unfold bind. destruct (m w) as [w1 [a | e |]]; auto. Qed.

Lemma obs_after_sim {A B D} (R : A → B → Prop) (m1 : M A) (m2 : M B)
    (k1 : A → M D) (k2 : B → M D) (w1 w2 : world) :
  sim R holds_buffer (m1 w1) (m2 w2) →
  (∀ a b w1' w2', R a b → holds_buffer w1' w2' → obs (k1 a w1') = obs (k2 b w2')) →
  obs (bind m1 k1 w1) = obs (bind m2 k2 w2).
Proof.
  unfold sim, bind. intros Hsim Hk.
  destruct (m1 w1) as [w1' [a | e1 |]], (m2 w2) as [w2' [b | e2 |]];
    simpl in Hsim; try done.
  - destruct Hsim. by apply Hk.
  - unfold obs. simpl. by destruct Hsim as [-> ->].
  - unfold obs. simpl. by rewrite Hsim.
Qed.

Section Reuse.

Context `{!LibSVM, !Converter, !Runtime}.

Lemma fresh_sparse_sample_run (x_pt : list float) (d i : Z) (w : world) :
  fresh_sparse_sample x_pt d i w
  = ({| live := N_x_nodes :: live w; trace := trace w |},
     Ok (toSparseSample (dense_row x_pt d i))).
Proof. done. Qed.

Lemma predict_body_sim model (x_pt : list float) (d : Z) (k : nat)
    (nodes : list svm_node) (yp : list float) (w1 w2 : world) :
  0 <= d → (Z.of_nat k + 1) * d <= INT_MAX →
  (Z.of_nat k + 1) * d <= Z.of_nat (length x_pt) →
  node_buffer (Z.to_nat d) nodes → holds_buffer w1 w2 →
  sim (λ (st : list svm_node * list float) y, node_buffer (Z.to_nat d) st.1 ∧ st.2 = y)
    holds_buffer
    ((x_nodes <- fill_row x_pt (Z.of_nat k) d nodes ;;
      y_i <- call_svm_predict model x_nodes ;;
      y_pt <- store yp (Z.of_nat k) y_i ;;
      ret (x_nodes, y_pt))%call w1)
    ((x_nodes <- fresh_sparse_sample x_pt d (Z.of_nat k) ;;
      y_i <- call_svm_predict model x_nodes ;;
      xfree N_x_nodes ;;
      store yp (Z.of_nat k) y_i)%call w2).
Proof.
  intros Hd Hfit Hin Hnodes [Htrace Hlive].
  rewrite (bind_Ok _ _ _ _ _
    (fill_row_buffer x_pt (Z.of_nat k) d nodes w1 ltac:(lia) Hd Hfit Hin Hnodes)).
  rewrite (bind_Ok _ _ _ _ _ (fresh_sparse_sample_run x_pt d (Z.of_nat k) w2)).
  set (x := toSparseSample (dense_row x_pt d (Z.of_nat k))).
  unfold call_svm_predict.
  rewrite !bind_assoc, !(bind_Ok _ _ _ _ _ (emit_run _ _)), !bind_ret_l.
  erewrite (bind_Ok (xfree N_x_nodes)); [|by apply xfree_head].
  cbn [live trace].
  assert (Hworld : holds_buffer
            {| live := live w1; trace := trace w1 ++ [E_svm_predict model x] |}
            {| live := live w2; trace := trace w2 ++ [E_svm_predict model x] |}).
  { split; simpl; [by rewrite Htrace | done]. }
  destruct (pure_store yp (Z.of_nat k) (svm_predict model x)) as [[y' | e |] Hstore].
  - rewrite (bind_Ok _ _ _ _ _ (Hstore _)), Hstore.
    split; [|exact Hworld]. simpl. split; [|done]. apply dense_row_buffer; lia.
  - rewrite (bind_Raised _ _ _ _ _ (Hstore _)), Hstore.
    split; [done|]. simpl. by rewrite Htrace.
  - rewrite (bind_Undefined _ _ _ _ (Hstore _)), Hstore.
    unfold sim. simpl. by rewrite Htrace.
Qed.

(** The two bodies of the batch loops, with the engine call
    [emit (ev x) ;; store_many s 0 (vals x)]. *)
Lemma batch_body_sim (ev : list svm_node → event) (vals : list svm_node → list float)
    (x_pt : list float) (d cols : Z) (k : nat)
    (nodes : list svm_node) (sc yp : list float) (w1 w2 : world) :
  0 <= d → (Z.of_nat k + 1) * d <= INT_MAX →
  (Z.of_nat k + 1) * d <= Z.of_nat (length x_pt) →
  node_buffer (Z.to_nat d) nodes → holds_buffer w1 w2 →
  sim (λ (st : list svm_node * list float * list float) (st' : list float * list float),
         node_buffer (Z.to_nat d) st.1.1 ∧ st.1.2 = st'.1 ∧ st.2 = st'.2)
    holds_buffer
    ((x_nodes <- fill_row x_pt (Z.of_nat k) d nodes ;;
      s <- (emit (ev x_nodes) ;; store_many sc 0 (vals x_nodes)) ;;
      y_pt <- for_lt cols (λ j y_pt,
        v <- load s j ;;
        store y_pt (int_add (int_mul (Z.of_nat k) cols) j) v) yp ;;
      ret (x_nodes, s, y_pt))%call w1)
    ((x_nodes <- fresh_sparse_sample x_pt d (Z.of_nat k) ;;
      s <- (emit (ev x_nodes) ;; store_many sc 0 (vals x_nodes)) ;;
      xfree N_x_nodes ;;
      y_pt <- for_lt cols (λ j y_pt,
        v <- load s j ;;
        store y_pt (int_add (int_mul (Z.of_nat k) cols) j) v) yp ;;
      ret (s, y_pt))%call w2).
Proof.
  intros Hd Hfit Hin Hnodes [Htrace Hlive].
  rewrite (bind_Ok _ _ _ _ _
    (fill_row_buffer x_pt (Z.of_nat k) d nodes w1 ltac:(lia) Hd Hfit Hin Hnodes)).
  rewrite (bind_Ok _ _ _ _ _ (fresh_sparse_sample_run x_pt d (Z.of_nat k) w2)).
  set (x := toSparseSample (dense_row x_pt d (Z.of_nat k))).
  rewrite !bind_assoc, !(bind_Ok _ _ _ _ _ (emit_run _ _)).
  assert (Hworld : holds_buffer
            {| live := live w1; trace := trace w1 ++ [ev x] |}
            {| live := live w2; trace := trace w2 ++ [ev x] |}).
  { split; simpl; [by rewrite Htrace | done]. }
  destruct (pure_store_many sc 0 (vals x)) as [[s | e |] Hfill].
  - rewrite !(bind_Ok _ _ _ _ _ (Hfill _)).
    erewrite (bind_Ok (xfree N_x_nodes)); [|by apply xfree_head].
    cbn [live trace].
    assert (Hcopy : pure (for_lt cols (λ j y_pt,
              v <- load s j ;;
              store y_pt (int_add (int_mul (Z.of_nat k) cols) j) v)%call yp)).
    { apply pure_for_lt. intros. auto with pure. }
    destruct Hcopy as [[y' | e |] Hcopy].
    + rewrite !(bind_Ok _ _ _ _ _ (Hcopy _)).
      split; [|exact Hworld]. simpl. split; [|done]. apply dense_row_buffer; lia.
    + rewrite !(bind_Raised _ _ _ _ _ (Hcopy _)).
      split; [done|]. simpl. by rewrite Htrace.
    + rewrite !(bind_Undefined _ _ _ _ (Hcopy _)).
      unfold sim. simpl. by rewrite Htrace.
  - rewrite !(bind_Raised _ _ _ _ _ (Hfill _)).
    split; [done|]. simpl. by rewrite Htrace.
  - rewrite !(bind_Undefined _ _ _ _ (Hfill _)).
    unfold sim. simpl. by rewrite Htrace.
Qed.

Lemma single_body_sim model (x_pt : list float) (d : Z) (k : nat)
    (nodes : list svm_node) (yp : list float) (w1 w2 : world) :
  0 <= d → (Z.of_nat k + 1) * d <= INT_MAX →
  (Z.of_nat k + 1) * d <= Z.of_nat (length x_pt) →
  node_buffer (Z.to_nat d) nodes → holds_buffer w1 w2 →
  sim (λ (st : list svm_node * list float) y, node_buffer (Z.to_nat d) st.1 ∧ st.2 = y)
    holds_buffer
    ((x_nodes <- fill_row x_pt (Z.of_nat k) d nodes ;;
      y_pt <- call_svm_predict_values model x_nodes yp (Z.of_nat k) ;;
      ret (x_nodes, y_pt))%call w1)
    ((x_nodes <- fresh_sparse_sample x_pt d (Z.of_nat k) ;;
      y_pt <- call_svm_predict_values model x_nodes yp (Z.of_nat k) ;;
      xfree N_x_nodes ;;
      ret y_pt)%call w2).
Proof.
  intros Hd Hfit Hin Hnodes [Htrace Hlive].
  rewrite (bind_Ok _ _ _ _ _
    (fill_row_buffer x_pt (Z.of_nat k) d nodes w1 ltac:(lia) Hd Hfit Hin Hnodes)).
  rewrite (bind_Ok _ _ _ _ _ (fresh_sparse_sample_run x_pt d (Z.of_nat k) w2)).
  set (x := toSparseSample (dense_row x_pt d (Z.of_nat k))).
  unfold call_svm_predict_values.
  rewrite !bind_assoc, !(bind_Ok _ _ _ _ _ (emit_run _ _)).
  assert (Hworld : holds_buffer
            {| live := live w1; trace := trace w1 ++ [E_svm_predict_values model x] |}
            {| live := live w2; trace := trace w2 ++ [E_svm_predict_values model x] |}).
  { split; simpl; [by rewrite Htrace | done]. }
  destruct (pure_store_many yp (Z.of_nat k) (svm_predict_values model x))
    as [[y' | e |] Hfill].
  - rewrite !(bind_Ok _ _ _ _ _ (Hfill _)).
    erewrite (bind_Ok (xfree N_x_nodes)); [|by apply xfree_head].
    split; [|exact Hworld]. simpl. split; [|done]. apply dense_row_buffer; lia.
  - rewrite !(bind_Raised _ _ _ _ _ (Hfill _)).
    split; [done|]. simpl. by rewrite Htrace.
  - rewrite !(bind_Undefined _ _ _ _ (Hfill _)).
    unfold sim. simpl. by rewrite Htrace.
Qed.

Lemma predict_reuses_buffer (a : narray) (n d : Z) (ph mh : VALUE) (w : world) :
  dense_matrix a n d →
  obs (predict (DFloat a) ph mh w) = obs (predict_naive (DFloat a) ph mh w).
Proof.
  intros Hmat. apply dense_matrix_dup in Hmat.
  pose proof Hmat as (Hshape & Hn & Hd & Hnd & Hlen).
  unfold predict, predict_naive, cast_unless_DFloat. flatten_binds.
  apply obs_bind; intros prm w1 _. apply obs_bind; intros model w2 _.
  destruct (NA_SHAPE_matrix _ n d w2 Hmat) as [HS0 HS1].
  rewrite !(bind_Ok _ _ _ _ _ HS0). rewrite !(bind_Ok _ _ _ _ _ HS1). cbv zeta.
  rewrite (bind_Ok _ _ _ _ _ (node_buffer_alloc d w2 ltac:(lia))). flatten_binds.
  destruct (node_buffer_sentinel d {| live := N_x_nodes :: live w2; trace := trace w2 |})
    as (buf & Hput & Hbuf); [lia|].
  rewrite (bind_Ok _ _ _ _ _ Hput). flatten_binds.
  apply (obs_after_sim
    (λ (st : list svm_node * list float) y, node_buffer (Z.to_nat d) st.1 ∧ st.2 = y)).
  - unfold for_lt. apply for_from_sim; [done | done |].
    intros k [nodes yp] y w1' w2' Hk [Hnodes <-] Hw. rewrite Z.add_0_l.
    apply predict_body_sim; try done; unfold na_get_pointer_for_read; nia.
  - intros [nodes yp] y w1' w2' [_ <-] Hw.
    flatten_binds. rewrite (bind_Ok _ _ _ _ _ (xfree_buffer _ _ Hw)). by flatten_binds.
Qed.

Lemma decision_function_reuses_buffer (a : narray) (n d : Z) (ph mh : VALUE) (w : world) :
  dense_matrix a n d →
  obs (decision_function (DFloat a) ph mh w)
  = obs (decision_function_naive (DFloat a) ph mh w).
Proof.
  intros Hmat. apply dense_matrix_dup in Hmat.
  pose proof Hmat as (Hshape & Hn & Hd & Hnd & Hlen).
  unfold decision_function, decision_function_naive, cast_unless_DFloat. flatten_binds.
  apply obs_bind; intros prm w1 _. apply obs_bind; intros model w2 _.
  destruct (NA_SHAPE_matrix _ n d w2 Hmat) as [HS0 HS1].
  rewrite !(bind_Ok _ _ _ _ _ HS0). rewrite !(bind_Ok _ _ _ _ _ HS1). cbv zeta.
  destruct (one_value_per_sample (assign_param model prm)); flatten_binds.
  - rewrite (bind_Ok _ _ _ _ _ (node_buffer_alloc d w2 ltac:(lia))). flatten_binds.
    destruct (node_buffer_sentinel d {| live := N_x_nodes :: live w2; trace := trace w2 |})
      as (buf & Hput & Hbuf); [lia|].
    rewrite (bind_Ok _ _ _ _ _ Hput). flatten_binds.
    apply (obs_after_sim
      (λ (st : list svm_node * list float) y, node_buffer (Z.to_nat d) st.1 ∧ st.2 = y)).
    + unfold for_lt. apply for_from_sim; [done | done |].
      intros k [nodes yp] y w1' w2' Hk [Hnodes <-] Hw. rewrite Z.add_0_l.
      apply single_body_sim; try done; unfold na_get_pointer_for_read; nia.
    + intros [nodes yp] y w1' w2' [_ <-] Hw.
      flatten_binds. rewrite (bind_Ok _ _ _ _ _ (xfree_buffer _ _ Hw)). by flatten_binds.
  - apply obs_bind; intros s w3 Hs. apply pure_run in Hs as ->; [|apply pure_load].
    flatten_binds.
    apply obs_bind; intros dec_values w3 Hdec. flatten_binds.
    rewrite (bind_Ok _ _ _ _ _ (node_buffer_alloc d w3 ltac:(lia))). flatten_binds.
    destruct (node_buffer_sentinel d {| live := N_x_nodes :: live w3; trace := trace w3 |})
      as (buf & Hput & Hbuf); [lia|].
    rewrite (bind_Ok _ _ _ _ _ Hput). flatten_binds.
    apply (obs_after_sim
      (λ (st : list svm_node * list float * list float) (st' : list float * list float),
         node_buffer (Z.to_nat d) st.1.1 ∧ st.1.2 = st'.1 ∧ st.2 = st'.2)).
    + unfold for_lt. apply for_from_sim; [done | done |].
      intros k [[nodes sc] yp] [sc' yp'] w1' w2' Hk (Hnodes & Hsc & Hyp) Hw.
      simpl in Hsc, Hyp. subst sc' yp'. rewrite Z.add_0_l.
      apply (batch_body_sim (E_svm_predict_values (assign_param model prm))
               (svm_predict_values (assign_param model prm)));
        try done; unfold na_get_pointer_for_read; nia.
    + intros [[nodes sc] yp] [sc' yp'] w1' w2' (_ & Hsc & Hyp) Hw.
      simpl in Hsc, Hyp. subst sc' yp'.
      flatten_binds. rewrite (bind_Ok _ _ _ _ _ (xfree_buffer _ _ Hw)). by flatten_binds.
Qed.

Lemma predict_proba_reuses_buffer (a : narray) (n d : Z) (ph mh : VALUE) (w : world) :
  dense_matrix a n d →
  obs (predict_proba (DFloat a) ph mh w) = obs (predict_proba_naive (DFloat a) ph mh w).
Proof.
  intros Hmat. apply dense_matrix_dup in Hmat.
  pose proof Hmat as (Hshape & Hn & Hd & Hnd & Hlen).
  unfold predict_proba, predict_proba_naive.
  apply obs_bind; intros prm w1 _. apply obs_bind; intros model w2 _. cbv zeta.
  destruct (has_probability (assign_param model prm)); [|done].
  unfold cast_unless_DFloat. flatten_binds.
  destruct (NA_SHAPE_matrix _ n d w2 Hmat) as [HS0 HS1].
  rewrite !(bind_Ok _ _ _ _ _ HS0). flatten_binds.
  rewrite !(bind_Ok _ _ _ _ _ HS1). flatten_binds.
  apply obs_bind; intros probs w3 Hprobs.
  rewrite !bind_assoc.
  rewrite (bind_Ok _ _ _ _ _ (node_buffer_alloc d w3 ltac:(lia))). flatten_binds.
  destruct (node_buffer_sentinel d {| live := N_x_nodes :: live w3; trace := trace w3 |})
    as (buf & Hput & Hbuf); [lia|].
  rewrite (bind_Ok _ _ _ _ _ Hput). flatten_binds.
  apply (obs_after_sim
    (λ (st : list svm_node * list float * list float) (st' : list float * list float),
       node_buffer (Z.to_nat d) st.1.1 ∧ st.1.2 = st'.1 ∧ st.2 = st'.2)).
  - unfold for_lt. apply for_from_sim; [done | done |].
    intros k [[nodes sc] yp] [sc' yp'] w1' w2' Hk (Hnodes & Hsc & Hyp) Hw.
    simpl in Hsc, Hyp. subst sc' yp'. rewrite Z.add_0_l.
    apply (batch_body_sim (E_svm_predict_probability (assign_param model prm))
             (svm_predict_probability (assign_param model prm)));
      try done; unfold na_get_pointer_for_read; nia.
  - intros [[nodes sc] yp] [sc' yp'] w1' w2' (_ & Hsc & Hyp) Hw.
    simpl in Hsc, Hyp. subst sc' yp'.
    flatten_binds. rewrite (bind_Ok _ _ _ _ _ (xfree_buffer _ _ Hw)). by flatten_binds.
Qed.

End Reuse.

Section PredictRun.

Context `{!LibSVM, !Converter, !Runtime}.

(** A run of [predict]: one call of [svm_predict] per row, on the sparse
    form of that row, under the caller's parameter record. *)
Lemma predict_ok (a : narray) (n d : Z) (ph mh : VALUE) prm model (w : world) :
  rb_hash_to_svm_parameter ph = Ok prm →
  rb_hash_to_svm_model mh = Ok model →
  dense_matrix a n d →
  let row i := toSparseSample (dense_row (na_data a) d (Z.of_nat i)) in
  predict (DFloat a) ph mh w
  = ({| live := live w;
        trace := trace w
                 ++ ((λ i, E_svm_predict (assign_param model prm) (row i))
                       <$> seq 0 (Z.to_nat n)) |},
     Ok (DFloat {| na_contiguous := true; na_shape := [n];
                   na_data := (λ i, svm_predict (assign_param model prm) (row i))
                                <$> seq 0 (Z.to_nat n) |})).
Proof.
  intros Hprm Hmodel Hmat row.
  apply dense_matrix_dup in Hmat.
  pose proof Hmat as (Hshape & Hn & Hd & Hnd & Hlen).
  unfold predict, cast_unless_DFloat. flatten_binds.
  step (hash_to_svm_parameter_run ph prm w Hprm).
  step (hash_to_svm_model_run mh model _ Hmodel).
  set (w1 := {| live := N_model :: _; trace := _ |}).
  set (m := assign_param model prm).
  destruct (NA_SHAPE_matrix _ n d w1 Hmat) as [HS0 HS1].
  step HS0. step HS1. cbv zeta.
  rewrite !size_t_of_int_id by lia.
  destruct (rb_narray_new_1 n 0) as [Hyshape Hylen]; [lia|].
  change (rb_narray_new 1 [n; 0]) with (rb_narray_new 1 [n]) in *.
  set (y_val := rb_narray_new 1 [n]) in *.
  step (node_buffer_alloc d w1 ltac:(lia)).
  set (w2 := {| live := N_x_nodes :: live w1; trace := trace w1 |}).
  destruct (node_buffer_sentinel d w2) as (buf & Hput & Hbuf); [lia|].
  step Hput.
  unfold na_get_pointer_for_read, na_get_pointer_for_write.
  rewrite dup_unless_contiguous_data in *.
  set (y0 := na_data y_val) in *.
  destruct (for_from_ok
    (λ k (st : list svm_node * list float) w',
       node_buffer (Z.to_nat d) st.1
       ∧ st.2 = ((λ i, svm_predict m (row i)) <$> seq 0 k) ++ drop k y0
       ∧ w' = {| live := live w2;
                 trace := trace w2 ++ ((λ i, E_svm_predict m (row i)) <$> seq 0 k) |})
    (Z.to_nat n) 0
    (λ i st,
      x_nodes <- fill_row (na_data a) i d st.1 ;;
      y_i <- call_svm_predict m x_nodes ;;
      y_pt <- store st.2 i y_i ;;
      ret (x_nodes, y_pt))%call (buf, y0) w2)
    as ([nodes y'] & w3 & Hloop & _ & Hy' & ->).
  - split; [done|]. split; [by rewrite drop_0|]. simpl. by rewrite app_nil_r.
  - intros k [nodes yp] wk Hk (Hnodes & Hyp & ->). cbn [fst snd] in *. subst yp.
    rewrite Z.add_0_l.
    eexists (_, _), _. split.
    + erewrite bind_Ok; [|apply fill_row_buffer; [lia | lia | nia | nia | done]].
      unfold call_svm_predict.
      rewrite bind_assoc, (bind_Ok _ _ _ _ _ (emit_run _ _)), bind_ret_l.
      erewrite bind_Ok; [reflexivity|].
      apply store_ok. rewrite length_app, length_fmap, length_seq, length_drop. lia.
    + cbn [fst snd live trace]. split; [apply dense_row_buffer; nia|]. split.
      * rewrite Nat2Z.id.
        rewrite insert_prefix by (rewrite ?length_fmap, ?length_seq; lia).
        by rewrite seq_S, fmap_app.
      * by rewrite seq_S, fmap_app, app_assoc.
  - unfold for_lt. step Hloop. cbn [fst snd] in *.
    erewrite bind_Ok; [|by apply xfree_head].
    unfold xfree_svm_model, xfree_svm_parameter.
    erewrite bind_Ok; [|by apply xfree_head].
    erewrite bind_Ok; [|by apply xfree_head].
    unfold ret, written. cbn [live trace]. rewrite Hyshape, Hy'.
    rewrite drop_ge, app_nil_r by lia. done.
Qed.

End PredictRun.

(** C8: in the three batch prediction paths, the loop that overwrites
    one node buffer for every row (sentinel written once, before the
    loop) cannot be told from the loop that takes a fresh sparse
    conversion for every row: the two make the same engine calls, in the
    same order and with the same node arrays, and end the same way with
    the same output.  For [predict] the calls are spelled out: call [i]
    is [svm_predict] on the sparse conversion of row [i], and value [i]
    of the output is its answer. *)
Theorem buffer_reuse_is_per_row_conversion `{!LibSVM, !Converter, !Runtime}
    (a : narray) (n d : Z) (ph mh : VALUE) (w : world) :
  dense_matrix a n d →
  obs (predict (DFloat a) ph mh w) = obs (predict_naive (DFloat a) ph mh w)
  ∧ obs (decision_function (DFloat a) ph mh w)
    = obs (decision_function_naive (DFloat a) ph mh w)
  ∧ obs (predict_proba (DFloat a) ph mh w)
    = obs (predict_proba_naive (DFloat a) ph mh w)
  ∧ (∀ prm model,
       rb_hash_to_svm_parameter ph = Ok prm →
       rb_hash_to_svm_model mh = Ok model →
       obs (predict (DFloat a) ph mh w)
       = (trace w
          ++ ((λ i, E_svm_predict (assign_param model prm)
                      (toSparseSample (dense_row (na_data a) d (Z.of_nat i))))
                <$> seq 0 (Z.to_nat n)),
          Ok (DFloat
                {| na_contiguous := true; na_shape := [n];
                   na_data :=
                     (λ i, svm_predict (assign_param model prm)
                             (toSparseSample (dense_row (na_data a) d (Z.of_nat i))))
                       <$> seq 0 (Z.to_nat n) |}))).
Proof.
  intros Hmat. split; [|split; [|split]].
  - by apply (predict_reuses_buffer a n d).
  - by apply (decision_function_reuses_buffer a n d).
  - by apply (predict_proba_reuses_buffer a n d).
  - intros prm model Hprm Hmodel.
    by rewrite (predict_ok a n d ph mh prm model w Hprm Hmodel Hmat).
Qed.

Lemma buffer_reuse_is_per_row_conversion_witness :
  let a := {| na_contiguous := true; na_shape := [2; 2];
              na_data := [1; 2; 3; 4]%float |} in
  let ph := Fixture.param_of_type C_SVC in
  let mh := Fixture.model_hash (Some [1%float]) in
  let w := Fixture.w0 in
  obs (@predict Fixture.engine Fixture.converter Fixture.runtime (DFloat a) ph mh w)
  = obs (@predict_naive Fixture.engine Fixture.converter Fixture.runtime (DFloat a) ph mh w)
  ∧ obs (@decision_function Fixture.engine Fixture.converter Fixture.runtime
           (DFloat a) ph mh w)
    = obs (@decision_function_naive Fixture.engine Fixture.converter Fixture.runtime
             (DFloat a) ph mh w)
  ∧ obs (@predict_proba Fixture.engine Fixture.converter Fixture.runtime
           (DFloat a) ph mh w)
    = obs (@predict_proba_naive Fixture.engine Fixture.converter Fixture.runtime
             (DFloat a) ph mh w)
  ∧ (∀ prm model,
       @rb_hash_to_svm_parameter Fixture.converter ph = Ok prm →
       @rb_hash_to_svm_model Fixture.converter mh = Ok model →
       obs (@predict Fixture.engine Fixture.converter Fixture.runtime (DFloat a) ph mh w)
       = (trace w
          ++ ((λ i, E_svm_predict (assign_param model prm)
                      (toSparseSample (dense_row (na_data a) 2 (Z.of_nat i))))
                <$> seq 0 (Z.to_nat 2)),
          Ok (DFloat
                {| na_contiguous := true; na_shape := [2];
                   na_data :=
                     (λ i, @svm_predict Fixture.engine (assign_param model prm)
                             (toSparseSample (dense_row (na_data a) 2 (Z.of_nat i))))
                       <$> seq 0 (Z.to_nat 2) |}))).
Proof.
  intros a ph mh w.
  apply (@buffer_reuse_is_per_row_conversion Fixture.engine Fixture.converter
           Fixture.runtime a 2 2 ph mh w).
  concrete.
Defined.

(** ** Saving a model *)

(** X1: [save_svm_model] with a String path and two mappings that decode
    hands the path and the decoded model, carrying the caller's parameter
    record, to [svm_save_model] exactly once, releases both native
    structures, raises nothing, and returns [true] exactly when the
    engine's status is not negative (a status of 0 included) and [false]
    exactly when it is negative. *)
Theorem save_svm_model_reports_the_status `{!LibSVM, !Converter}
    (path : string) (ph mh : VALUE) prm model (w : world) :
  rb_hash_to_svm_parameter ph = Ok prm →
  rb_hash_to_svm_model mh = Ok model →
  let status := svm_save_model path (assign_param model prm) in
  ∃ v,
    save_svm_model (RString path) ph mh w
    = ({| live := live w;
          trace := trace w ++ [E_svm_save_model path (assign_param model prm)] |},
       Ok v)
    ∧ (v = Qtrue ↔ 0 <= status) ∧ (v = Qfalse ↔ status < 0).
Proof.
  intros Hprm Hmodel status.
  exists (if decide (status < 0) then Qfalse else Qtrue). split.
  - unfold save_svm_model.
    step (hash_to_svm_parameter_run ph prm w Hprm).
    step (hash_to_svm_model_run mh model _ Hmodel).
    unfold StringValuePtr, call_svm_save_model. flatten_binds.
    step (emit_run (E_svm_save_model path (assign_param model prm)) _).
    unfold xfree_svm_model, xfree_svm_parameter.
    erewrite bind_Ok; [|by apply xfree_head].
    erewrite bind_Ok; [|by apply xfree_head].
    done.
  - destruct (decide (status < 0)); split; split; intros; (done || lia).
Qed.

Lemma save_svm_model_reports_the_status_witness :
  let status := @svm_save_model Fixture.engine ""
                  (assign_param (Fixture.decoded_model None)
                     (Fixture.decoded_parameter C_SVC)) in
  ∃ v,
    @save_svm_model Fixture.engine Fixture.converter (RString "")
      (Fixture.param_of_type C_SVC) (Fixture.model_hash None) Fixture.w0
    = ({| live := [];
          trace := [E_svm_save_model ""
                      (assign_param (Fixture.decoded_model None)
                         (Fixture.decoded_parameter C_SVC))] |},
       Ok v)
    ∧ (v = Qtrue ↔ 0 <= status) ∧ (v = Qfalse ↔ status < 0).
Proof.
  apply (@save_svm_model_reports_the_status Fixture.engine Fixture.converter ""
           (Fixture.param_of_type C_SVC) (Fixture.model_hash None)
           (Fixture.decoded_parameter C_SVC) (Fixture.decoded_model None) Fixture.w0).
  - reflexivity.
  - reflexivity.
Defined.

(** ** File names *)

(** X2: a file name that is no String makes [load_svm_model] and
    [save_svm_model] raise [TypeError] out of [StringValuePtr] before the
    engine is reached: no [svm_load_model] or [svm_save_model] call is
    made.  [load_svm_model] leaves the world as it found it;
    [save_svm_model] has decoded both mappings by then, and the two
    structures stay allocated. *)
Theorem a_file_name_that_is_no_String `{!LibSVM, !Converter}
    (filename ph mh : VALUE) prm model (w : world) :
  is_String filename = false →
  rb_hash_to_svm_parameter ph = Ok prm →
  rb_hash_to_svm_model mh = Ok model →
  load_svm_model filename w = (w, Raised TypeError)
  ∧ save_svm_model filename ph mh w
    = (holding [N_model; N_parameter] w, Raised TypeError).
Proof.
  intros Hname Hprm Hmodel. split.
  - unfold load_svm_model. apply bind_Raised.
    by destruct filename.
  - unfold save_svm_model.
    step (hash_to_svm_parameter_run ph prm w Hprm).
    step (hash_to_svm_model_run mh model _ Hmodel).
    apply bind_Raised. by destruct filename.
Qed.

Lemma a_file_name_that_is_no_String_witness :
  @load_svm_model Fixture.engine Fixture.converter (Fixnum 7) Fixture.w0
  = (Fixture.w0, Raised TypeError)
  ∧ @save_svm_model Fixture.engine Fixture.converter (Fixnum 7)
      (Fixture.param_of_type C_SVC) (Fixture.model_hash None) Fixture.w0
    = (holding [N_model; N_parameter] Fixture.w0, Raised TypeError).
Proof.
  apply (@a_file_name_that_is_no_String Fixture.engine Fixture.converter (Fixnum 7)
           (Fixture.param_of_type C_SVC) (Fixture.model_hash None)
           (Fixture.decoded_parameter C_SVC) (Fixture.decoded_model None) Fixture.w0).
  - reflexivity.
  - reflexivity.
  - reflexivity.
Defined.

(** ** The order of the argument checks *)

Section ArgumentOrder.

Context `{!LibSVM, !Converter, !Runtime}.

Lemma cast_unless_DFloat_raised (v : VALUE) (e : exn) (w : world) :
  is_DFloat v = false → numo_cDFloat_cast v = Raised e →
  cast_unless_DFloat v w = (after_cast v w, Raised e).
Proof.
  intros Hv Hcast. destruct v; try discriminate;
    unfold cast_unless_DFloat, bind, emit, lift; by rewrite Hcast.
Qed.

Lemma cast_unless_DFloat_cast (v : VALUE) (a : narray) (w : world) :
  is_DFloat v = false → numo_cDFloat_cast v = Ok a →
  cast_unless_DFloat v w = (after_cast v w, Ok a).
Proof.
  intros Hv Hcast. destruct v; try discriminate;
    unfold cast_unless_DFloat, bind, emit, lift; by rewrite Hcast.
Qed.

Lemma cast_unless_DFloat_id (a : narray) (w : world) :
  cast_unless_DFloat (DFloat a) w = (w, Ok a).
Proof. done. Qed.

Lemma NUM2INT_int (k : Z) (w : world) :
  INT_MIN <= k <= INT_MAX → NUM2INT (Fixnum k) w = (w, Ok k).
Proof. intros Hk. unfold NUM2INT. by rewrite decide_True. Qed.

Lemma hash_to_svm_parameter_raised (h : VALUE) (e : exn) (w : world) :
  rb_hash_to_svm_parameter h = Raised e → hash_to_svm_parameter h w = (w, Raised e).
Proof. intros Hdec. unfold hash_to_svm_parameter, bind, lift. by rewrite Hdec. Qed.

Lemma hash_to_svm_model_raised (h : VALUE) (e : exn) (w : world) :
  rb_hash_to_svm_model h = Raised e → hash_to_svm_model h w = (w, Raised e).
Proof. intros Hdec. unfold hash_to_svm_model, bind, lift. by rewrite Hdec. Qed.

End ArgumentOrder.

(** X3: [cross_validation] converts [nr_folds] before it looks at any
    other argument.  With an [nr_folds] that is neither an Integer nor a
    Float it raises [TypeError], and with an Integer outside the range of
    a C [int] it raises [RangeError]; in both cases the world is
    untouched, whatever [x], [y] and the parameter mapping are: nothing
    was cast, decoded or allocated and the engine was not called. *)
Theorem cross_validation_converts_nr_folds_first `{!LibSVM, !Converter, !Runtime}
    (x y ph nr_folds : VALUE) (w : world) :
  (is_Numeric nr_folds = false →
   cross_validation x y ph nr_folds w = (w, Raised TypeError))
  ∧ (∀ k, ¬ INT_MIN <= k <= INT_MAX →
       cross_validation x y ph (Fixnum k) w = (w, Raised RangeError)).
Proof.
  split.
  - intros Hnr. unfold cross_validation. apply bind_Raised. by destruct nr_folds.
  - intros k Hk. unfold cross_validation. apply bind_Raised.
    unfold NUM2INT. by rewrite decide_False.
Qed.

Lemma cross_validation_converts_nr_folds_first_witness :
  @cross_validation Fixture.engine Fixture.converter Fixture.runtime
    (RString "x") Qnil Qnil (RString "five") Fixture.w0
  = (Fixture.w0, Raised TypeError)
  ∧ @cross_validation Fixture.engine Fixture.converter Fixture.runtime
      (RString "x") Qnil Qnil (Fixnum 2147483648) Fixture.w0
    = (Fixture.w0, Raised RangeError).
Proof.
  pose proof (@cross_validation_converts_nr_folds_first Fixture.engine Fixture.converter
                Fixture.runtime (RString "x") Qnil Qnil (RString "five") Fixture.w0)
    as [Htype Hrange].
  split.
  - apply Htype. reflexivity.
  - apply Hrange. unfold INT_MIN, INT_MAX. lia.
Defined.

(** X4: [train], [cross_validation], [predict] and [decision_function]
    cast their arrays before they decode a mapping or allocate anything.
    When the cast of [x] (or, in [train] and [cross_validation], of [y]
    after a [x] that needed none) raises, the call raises the same
    exception with no native structure allocated and no engine call
    made: the only trace is the cast itself. *)
Theorem a_failed_cast_allocates_nothing `{!LibSVM, !Converter, !Runtime}
    (v other ph mh : VALUE) (a : narray) (k : Z) (e : exn) (w : world) :
  is_DFloat v = false →
  numo_cDFloat_cast v = Raised e →
  INT_MIN <= k <= INT_MAX →
  train v other ph w = (after_cast v w, Raised e)
  ∧ train (DFloat a) v ph w = (after_cast v w, Raised e)
  ∧ cross_validation v other ph (Fixnum k) w = (after_cast v w, Raised e)
  ∧ cross_validation (DFloat a) v ph (Fixnum k) w = (after_cast v w, Raised e)
  ∧ predict v ph mh w = (after_cast v w, Raised e)
  ∧ decision_function v ph mh w = (after_cast v w, Raised e).
Proof.
  intros Hv Hcast Hk.
  pose proof (cast_unless_DFloat_raised v e w Hv Hcast) as Hraise.
  repeat split.
  - unfold train. by apply bind_Raised.
  - unfold train. rewrite (bind_Ok _ _ _ _ _ (cast_unless_DFloat_id a w)).
    by apply bind_Raised.
  - unfold cross_validation. rewrite (bind_Ok _ _ _ _ _ (NUM2INT_int k w Hk)).
    by apply bind_Raised.
  - unfold cross_validation. rewrite (bind_Ok _ _ _ _ _ (NUM2INT_int k w Hk)).
    rewrite (bind_Ok _ _ _ _ _ (cast_unless_DFloat_id a w)).
    by apply bind_Raised.
  - unfold predict. by apply bind_Raised.
  - unfold decision_function. by apply bind_Raised.
Qed.

Lemma a_failed_cast_allocates_nothing_witness :
  let v := RString "x" in
  let a := {| na_contiguous := true; na_shape := [1; 1]; na_data := [1%float] |} in
  let ph := Fixture.param_of_type C_SVC in
  let mh := Fixture.model_hash None in
  let w' := after_cast v Fixture.w0 in
  @train Fixture.engine Fixture.converter Fixture.runtime v Qnil ph Fixture.w0
  = (w', Raised CastError)
  ∧ @train Fixture.engine Fixture.converter Fixture.runtime (DFloat a) v ph Fixture.w0
    = (w', Raised CastError)
  ∧ @cross_validation Fixture.engine Fixture.converter Fixture.runtime
      v Qnil ph (Fixnum 5) Fixture.w0
    = (w', Raised CastError)
  ∧ @cross_validation Fixture.engine Fixture.converter Fixture.runtime
      (DFloat a) v ph (Fixnum 5) Fixture.w0
    = (w', Raised CastError)
  ∧ @predict Fixture.engine Fixture.converter Fixture.runtime v ph mh Fixture.w0
    = (w', Raised CastError)
  ∧ @decision_function Fixture.engine Fixture.converter Fixture.runtime v ph mh Fixture.w0
    = (w', Raised CastError).
Proof.
  intros v a ph mh w'.
  apply (@a_failed_cast_allocates_nothing Fixture.engine Fixture.converter
           Fixture.runtime v Qnil ph mh a 5 CastError Fixture.w0).
  - reflexivity.
  - reflexivity.
  - unfold INT_MIN, INT_MAX. lia.
Defined.

(** X5: [predict_proba] decodes both mappings first and casts [x] only
    on the branch that predicts.  With a calibrated model and an [x]
    whose cast raises, the call raises the same exception after the
    cast, with the parameter and the model structure still allocated
    and no engine call made. *)
Theorem predict_proba_casts_after_decoding `{!LibSVM, !Converter, !Runtime}
    (x ph mh : VALUE) prm model (e : exn) (w : world) :
  rb_hash_to_svm_parameter ph = Ok prm →
  rb_hash_to_svm_model mh = Ok model →
  calibrated prm model →
  is_DFloat x = false →
  numo_cDFloat_cast x = Raised e →
  predict_proba x ph mh w
  = (holding [N_model; N_parameter] (after_cast x w), Raised e).
Proof.
  intros Hprm Hmodel Hcal Hx Hcast. unfold predict_proba.
  step (hash_to_svm_parameter_run ph prm w Hprm).
  step (hash_to_svm_model_run mh model _ Hmodel).
  cbv zeta. apply calibrated_has_probability in Hcal. rewrite Hcal.
  flatten_binds.
  by rewrite (bind_Raised _ _ _ _ _ (cast_unless_DFloat_raised x e _ Hx Hcast)).
Qed.

Lemma predict_proba_casts_after_decoding_witness :
  @predict_proba Fixture.engine Fixture.converter Fixture.runtime
    (Fixnum 3) (Fixture.param_of_type NU_SVC) (Fixture.model_hash (Some [1%float]))
    Fixture.w0
  = (holding [N_model; N_parameter] (after_cast (Fixnum 3) Fixture.w0),
     Raised CastError).
Proof.
  apply (@predict_proba_casts_after_decoding Fixture.engine Fixture.converter
           Fixture.runtime (Fixnum 3) (Fixture.param_of_type NU_SVC)
           (Fixture.model_hash (Some [1%float])) (Fixture.decoded_parameter NU_SVC)
           (Fixture.decoded_model (Some [1%float])) CastError Fixture.w0).
  - reflexivity.
  - reflexivity.
  - unfold calibrated. simpl. split; [by right|]. split; discriminate.
  - reflexivity.
  - reflexivity.
Defined.

(** X6: when the parameter mapping does not decode, every operation
    that takes one raises the decoder's exception with the world as it
    was: nothing is allocated and the engine is not called.
    [predict_proba] and [save_svm_model] decode before anything else, so
    for them [x] and the file name are not even looked at. *)
Theorem a_failed_parameter_decode_allocates_nothing `{!LibSVM, !Converter, !Runtime}
    (x y : narray) (v filename ph mh : VALUE) (k : Z) (e : exn) (w : world) :
  rb_hash_to_svm_parameter ph = Raised e →
  INT_MIN <= k <= INT_MAX →
  train (DFloat x) (DFloat y) ph w = (w, Raised e)
  ∧ cross_validation (DFloat x) (DFloat y) ph (Fixnum k) w = (w, Raised e)
  ∧ predict (DFloat x) ph mh w = (w, Raised e)
  ∧ decision_function (DFloat x) ph mh w = (w, Raised e)
  ∧ predict_proba v ph mh w = (w, Raised e)
  ∧ save_svm_model filename ph mh w = (w, Raised e).
Proof.
  intros Hprm Hk.
  pose proof (hash_to_svm_parameter_raised ph e w Hprm) as Hraise.
  repeat split.
  - unfold train. rewrite !(bind_Ok _ _ _ _ _ (cast_unless_DFloat_id _ w)).
    by apply bind_Raised.
  - unfold cross_validation. rewrite (bind_Ok _ _ _ _ _ (NUM2INT_int k w Hk)).
    rewrite !(bind_Ok _ _ _ _ _ (cast_unless_DFloat_id _ w)).
    by apply bind_Raised.
  - unfold predict. rewrite (bind_Ok _ _ _ _ _ (cast_unless_DFloat_id x w)).
    by apply bind_Raised.
  - unfold decision_function. rewrite (bind_Ok _ _ _ _ _ (cast_unless_DFloat_id x w)).
    by apply bind_Raised.
  - unfold predict_proba. by apply bind_Raised.
  - unfold save_svm_model. by apply bind_Raised.
Qed.

Lemma a_failed_parameter_decode_allocates_nothing_witness :
  let x := {| na_contiguous := true; na_shape := [1; 1]; na_data := [1%float] |} in
  let ph := RHash [("svm_type", RString "C_SVC")] in
  let mh := Fixture.model_hash None in
  @train Fixture.engine Fixture.converter Fixture.runtime (DFloat x) (DFloat x) ph
    Fixture.w0
  = (Fixture.w0, Raised TypeError)
  ∧ @cross_validation Fixture.engine Fixture.converter Fixture.runtime
      (DFloat x) (DFloat x) ph (Fixnum 5) Fixture.w0
    = (Fixture.w0, Raised TypeError)
  ∧ @predict Fixture.engine Fixture.converter Fixture.runtime (DFloat x) ph mh Fixture.w0
    = (Fixture.w0, Raised TypeError)
  ∧ @decision_function Fixture.engine Fixture.converter Fixture.runtime
      (DFloat x) ph mh Fixture.w0
    = (Fixture.w0, Raised TypeError)
  ∧ @predict_proba Fixture.engine Fixture.converter Fixture.runtime Qnil ph mh Fixture.w0
    = (Fixture.w0, Raised TypeError)
  ∧ @save_svm_model Fixture.engine Fixture.converter Qnil ph mh Fixture.w0
    = (Fixture.w0, Raised TypeError).
Proof.
  intros x ph mh.
  apply (@a_failed_parameter_decode_allocates_nothing Fixture.engine Fixture.converter
           Fixture.runtime x x Qnil Qnil ph mh 5 TypeError Fixture.w0).
  - reflexivity.
  - unfold INT_MIN, INT_MAX. lia.
Defined.

(** X7: the model mapping is decoded after the parameter mapping.  When
    the parameter mapping decodes and the model mapping does not,
    [predict], [decision_function], [predict_proba] and [save_svm_model]
    raise the decoder's exception with the parameter structure still
    allocated, and without any engine call. *)
Theorem a_failed_model_decode_keeps_the_parameter `{!LibSVM, !Converter, !Runtime}
    (x : narray) (v filename ph mh : VALUE) prm (e : exn) (w : world) :
  rb_hash_to_svm_parameter ph = Ok prm →
  rb_hash_to_svm_model mh = Raised e →
  predict (DFloat x) ph mh w = (holding [N_parameter] w, Raised e)
  ∧ decision_function (DFloat x) ph mh w = (holding [N_parameter] w, Raised e)
  ∧ predict_proba v ph mh w = (holding [N_parameter] w, Raised e)
  ∧ save_svm_model filename ph mh w = (holding [N_parameter] w, Raised e).
Proof.
  intros Hprm Hmodel.
  pose proof (hash_to_svm_parameter_run ph prm w Hprm) as Hp.
  pose proof (hash_to_svm_model_raised mh e (holding [N_parameter] w) Hmodel) as Hm.
  repeat split.
  - unfold predict. rewrite (bind_Ok _ _ _ _ _ (cast_unless_DFloat_id x w)).
    rewrite (bind_Ok _ _ _ _ _ Hp). by apply bind_Raised.
  - unfold decision_function. rewrite (bind_Ok _ _ _ _ _ (cast_unless_DFloat_id x w)).
    rewrite (bind_Ok _ _ _ _ _ Hp). by apply bind_Raised.
  - unfold predict_proba. rewrite (bind_Ok _ _ _ _ _ Hp). by apply bind_Raised.
  - unfold save_svm_model. rewrite (bind_Ok _ _ _ _ _ Hp). by apply bind_Raised.
Qed.

Lemma a_failed_model_decode_keeps_the_parameter_witness :
  let x := {| na_contiguous := true; na_shape := [1; 1]; na_data := [1%float] |} in
  let ph := Fixture.param_of_type C_SVC in
  let mh := RHash [("nr_class", Fixnum 2)] in
  let w' := holding [N_parameter] Fixture.w0 in
  @predict Fixture.engine Fixture.converter Fixture.runtime (DFloat x) ph mh Fixture.w0
  = (w', Raised InvalidModelError)
  ∧ @decision_function Fixture.engine Fixture.converter Fixture.runtime
      (DFloat x) ph mh Fixture.w0
    = (w', Raised InvalidModelError)
  ∧ @predict_proba Fixture.engine Fixture.converter Fixture.runtime Qnil ph mh Fixture.w0
    = (w', Raised InvalidModelError)
  ∧ @save_svm_model Fixture.engine Fixture.converter Qnil ph mh Fixture.w0
    = (w', Raised InvalidModelError).
Proof.
  intros x ph mh w'.
  apply (@a_failed_model_decode_keeps_the_parameter Fixture.engine Fixture.converter
           Fixture.runtime x Qnil Qnil ph mh (Fixture.decoded_parameter C_SVC)
           InvalidModelError Fixture.w0).
  - reflexivity.
  - reflexivity.
Defined.

(** ** The entry points of the engine *)

Section EntryPoints.

Context `{!LibSVM, !Converter, !Runtime}.
Context (P : event → Prop).

Lemma emits_call_svm_train prob prm :
  P (E_svm_train prob prm) → emits P (call_svm_train prob prm).
Proof.
  intros Hev. unfold call_svm_train.
  apply emits_bind; [by apply emits_emit | intros].
  apply emits_bind; [apply emits_alloc | intros; apply pure_emits, pure_ret].
Qed.

Lemma emits_call_svm_cross_validation prob prm k target :
  P (E_svm_cross_validation prob prm k) →
  emits P (call_svm_cross_validation prob prm k target).
Proof.
  intros Hev. unfold call_svm_cross_validation.
  apply emits_bind; [by apply emits_emit | intros; apply pure_emits, pure_store_many].
Qed.

Lemma emits_svm_free_and_destroy_model model :
  P (E_svm_free_and_destroy_model model) → emits P (svm_free_and_destroy_model model).
Proof.
  intros Hev. unfold svm_free_and_destroy_model.
  apply emits_bind; [by apply emits_emit | intros; apply emits_xfree].
Qed.

Lemma emits_call_svm_load_model path :
  P (E_svm_load_model path) → emits P (call_svm_load_model path).
Proof.
  intros Hev. unfold call_svm_load_model.
  apply emits_bind; [by apply emits_emit | intros].
  destruct (svm_load_model path); [|apply pure_emits, pure_ret].
  apply emits_bind; [apply emits_alloc | intros; apply pure_emits, pure_ret].
Qed.

Lemma emits_prepare_problem x_pt y_pt n d : emits P (prepare_problem x_pt y_pt n d).
Proof.
  unfold prepare_problem.
  apply emits_bind; [apply emits_alloc | intros].
  apply emits_bind; [apply emits_ALLOC_N | intros].
  apply emits_bind; [apply emits_ALLOC_N | intros].
  apply emits_bind; [|intros; apply pure_emits, pure_ret].
  apply emits_for_lt. intros i xy. cbv zeta.
  apply emits_bind; [apply emits_ALLOC_N | intros].
  apply pure_emits. auto 20 with pure.
Qed.

Lemma emits_free_problem n : emits P (free_problem n).
Proof.
  unfold free_problem.
  apply emits_bind; [apply emits_for_lt; intros; apply emits_xfree | intros].
  apply emits_bind; [apply emits_xfree | intros].
  apply emits_bind; apply emits_xfree || (intros; apply emits_xfree).
Qed.

End EntryPoints.

(** Walks through a function body that also trains, loads or saves. *)
Ltac calls_walk :=
  repeat first
    [ progress emits_walk
    | match goal with
      | |- emits _ (emit _) => apply emits_emit
      | |- emits _ (call_svm_train _ _) => apply emits_call_svm_train
      | |- emits _ (call_svm_cross_validation _ _ _ _) =>
          apply emits_call_svm_cross_validation
      | |- emits _ (svm_free_and_destroy_model _) =>
          apply emits_svm_free_and_destroy_model
      | |- emits _ (call_svm_load_model _) => apply emits_call_svm_load_model
      | |- emits _ (prepare_problem _ _ _ _) => apply emits_prepare_problem
      | |- emits _ (free_problem _) => apply emits_free_problem
      | |- emits _ (match ?o with Some _ => _ | None => _ end) => destruct o
      end ].

(** X8: however a call ends, each operation reaches the engine through
    its own entry point only.  [predict] calls nothing but [svm_predict],
    [decision_function] nothing but [svm_predict_values], [predict_proba]
    nothing but [svm_predict_probability] (each besides the cast of
    [x]); [train] calls [svm_set_print_string_function], [svm_train] and
    [svm_free_and_destroy_model], [cross_validation] calls
    [svm_set_print_string_function] and [svm_cross_validation];
    [load_svm_model] calls [svm_load_model] and
    [svm_free_and_destroy_model], and [save_svm_model] calls
    [svm_save_model] and casts nothing.  So no prediction trains or
    touches a file, and only the two training operations redirect the
    engine's messages. *)
Theorem each_operation_keeps_to_its_entry_point `{!LibSVM, !Converter, !Runtime}
    (x_val y_val ph mh nr_folds filename : VALUE) :
  emits train_call (train x_val y_val ph)
  ∧ emits cross_validation_call (cross_validation x_val y_val ph nr_folds)
  ∧ emits predict_call (predict x_val ph mh)
  ∧ emits decision_function_call (decision_function x_val ph mh)
  ∧ emits predict_proba_call (predict_proba x_val ph mh)
  ∧ emits load_svm_model_call (load_svm_model filename)
  ∧ emits save_svm_model_call (save_svm_model filename ph mh).
Proof.
  repeat split.
  - unfold train, xfree_svm_parameter. calls_walk. all: done.
  - unfold cross_validation, xfree_svm_parameter. calls_walk. all: done.
  - unfold predict, xfree_svm_model, xfree_svm_parameter. calls_walk. all: done.
  - unfold decision_function, xfree_svm_model, xfree_svm_parameter. calls_walk.
    all: done.
  - unfold predict_proba, xfree_svm_model, xfree_svm_parameter. calls_walk. all: done.
  - unfold load_svm_model. calls_walk. all: done.
  - unfold save_svm_model, xfree_svm_model, xfree_svm_parameter. calls_walk. all: done.
Qed.

Lemma each_operation_keeps_to_its_entry_point_witness :
  let run := @decision_function Fixture.engine Fixture.converter Fixture.runtime
               (RArray [RArray [RFloat 1; RFloat 2]; RArray [RFloat 3; RFloat 4]])
               (Fixture.param_of_type C_SVC) (Fixture.model_hash None) Fixture.w0 in
  ∃ evs, trace run.1 = trace Fixture.w0 ++ evs ∧ Forall decision_function_call evs.
Proof.
  intros run.
  exact (proj1 (proj2 (proj2 (proj2
           (@each_operation_keeps_to_its_entry_point Fixture.engine Fixture.converter
              Fixture.runtime
              (RArray [RArray [RFloat 1; RFloat 2]; RArray [RFloat 3; RFloat 4]])
              Qnil (Fixture.param_of_type C_SVC) (Fixture.model_hash None) Qnil Qnil))))
           Fixture.w0 run.1 run.2 (surjective_pairing run)).
Defined.

(** ** The values of the batch predictions *)

Lemma concat_snoc {A} (ls : list (list A)) (l : list A) :
  concat (ls ++ [l]) = concat ls ++ l.
Proof. by rewrite concat_app; simpl; rewrite app_nil_r. Qed.

Section Values.

Context `{!LibSVM, !Converter, !Runtime}.

(** What the copy loop leaves in the result: row [i] holds the [cols]
    values of the source, the other rows are as they were. *)
Lemma copy_row_exact (src dst : list float) (i cols : Z) (w : world) :
  0 <= i → 0 <= cols → Z.of_nat (length src) = cols →
  (i + 1) * cols <= Z.of_nat (length dst) → (i + 1) * cols <= INT_MAX →
  for_lt cols (λ j y_pt,
    d_j <- load src j ;;
    store y_pt (int_add (int_mul i cols) j) d_j)%call dst w
  = (w, Ok (take (Z.to_nat (i * cols)) dst ++ src
            ++ drop (Z.to_nat ((i + 1) * cols)) dst)).
Proof.
  intros Hi Hcols Hsrc Hdst Hfit.
  set (p := Z.to_nat (i * cols)).
  destruct (for_from_ok
    (λ k y_pt w', w' = w ∧ y_pt = take p dst ++ take k src ++ drop (p + k) dst)
    (Z.to_nat cols) 0
    (λ j y_pt, d_j <- load src j ;;
               store y_pt (int_add (int_mul i cols) j) d_j)%call dst w)
    as (dst' & w' & Hrun & -> & ->).
  - split; [done|]. rewrite take_0, Nat.add_0_r. simpl. by rewrite take_drop.
  - intros k y_pt w1 Hk [-> ->]. rewrite Z.add_0_l.
    destruct (lookup_lt_is_Some_2 src k ltac:(lia)) as [v Hv].
    assert (Hp : (p + k < length dst)%nat) by (unfold p; nia).
    assert (Hat : int_add (int_mul i cols) (Z.of_nat k) = Z.of_nat (p + k)).
    { rewrite int_mul_id, int_add_id; unfold in_int, INT_MIN, p; nia. }
    assert (Hpre : length (take p dst ++ take k src) = (p + k)%nat).
    { rewrite length_app, !length_take. lia. }
    eexists _, w. split.
    + erewrite bind_Ok; [|apply load_ok; [lia | by rewrite Nat2Z.id]].
      rewrite Hat. apply store_ok.
      rewrite !length_app, !length_take, length_drop. lia.
    + split; [done|]. rewrite Nat2Z.id, app_assoc.
      rewrite (insert_prefix _ _ _ _ Hpre Hp).
      rewrite (take_S_r _ _ _ Hv), <- !app_assoc.
      by rewrite Nat.add_succ_r.
  - unfold for_lt. rewrite Hrun. rewrite (take_ge src) by lia.
    do 5 f_equal. unfold p. nia.
Qed.

(** The batch loop of [decision_function] (classification) and of
    [predict_proba], call by call: the engine is called once per row, on
    the sparse form of that row, and its values fill that row of the
    result. *)
Lemma batch_loop_exact (ev : list svm_node → event) (vals : list svm_node → list float)
    (x_pt : list float) (n d cols : Z)
    (buf : list svm_node) (scratch y_pt : list float) (w : world) :
  0 <= n → 0 <= d → n * d <= INT_MAX → n * d <= Z.of_nat (length x_pt) →
  node_buffer (Z.to_nat d) buf →
  0 <= cols → n * cols <= INT_MAX →
  Z.of_nat (length scratch) = cols →
  Z.of_nat (length y_pt) = n * cols →
  let row i := toSparseSample (dense_row x_pt d (Z.of_nat i)) in
  (∀ i, (i < Z.to_nat n)%nat → Z.of_nat (length (vals (row i))) = cols) →
  ∃ st,
    for_lt n (λ i st,
      x_nodes <- fill_row x_pt i d st.1.1 ;;
      s <- (emit (ev x_nodes) ;; store_many st.1.2 0 (vals x_nodes)) ;;
      y_pt <- for_lt cols (λ j y_pt,
        v <- load s j ;;
        store y_pt (int_add (int_mul i cols) j) v) st.2 ;;
      ret (x_nodes, s, y_pt))%call (buf, scratch, y_pt) w
    = ({| live := live w;
          trace := trace w ++ ((λ i, ev (row i)) <$> seq 0 (Z.to_nat n)) |}, Ok st)
    ∧ st.2 = concat ((λ i, vals (row i)) <$> seq 0 (Z.to_nat n)).
Proof.
  intros Hn Hd Hnd Hx Hbuf Hc Hnc Hscratch Hy row Hcontract.
  set (filled k := concat ((λ i, vals (row i)) <$> seq 0 k)).
  destruct (for_from_ok
    (λ k (st : list svm_node * list float * list float) w',
       node_buffer (Z.to_nat d) st.1.1 ∧ Z.of_nat (length st.1.2) = cols
       ∧ st.2 = filled k ++ drop (Z.to_nat (Z.of_nat k * cols)) y_pt
       ∧ Z.of_nat (length (filled k)) = Z.of_nat k * cols
       ∧ w' = {| live := live w;
                 trace := trace w ++ ((λ i, ev (row i)) <$> seq 0 k) |})
    (Z.to_nat n) 0
    (λ i st,
      x_nodes <- fill_row x_pt i d st.1.1 ;;
      s <- (emit (ev x_nodes) ;; store_many st.1.2 0 (vals x_nodes)) ;;
      y_pt <- for_lt cols (λ j y_pt,
        v <- load s j ;;
        store y_pt (int_add (int_mul i cols) j) v) st.2 ;;
      ret (x_nodes, s, y_pt))%call (buf, scratch, y_pt) w)
    as (st & w' & Hrun & _ & _ & Hst & Hfilled & ->).
  - split; [done|]. split; [done|]. split; [by rewrite drop_0|]. split; [done|].
    simpl. rewrite app_nil_r. by destruct w.
  - intros k [[nodes sc] yp] w1 Hk (Hnodes & Hsc & Hyp & Hfilled & ->).
    cbn [fst snd] in *. subst yp. rewrite Z.add_0_l.
    pose proof (Hcontract k Hk) as Hvals.
    set (x := row k) in *.
    assert (Hstore : ∀ w2, store_many sc 0 (vals x) w2 = (w2, Ok (vals x))).
    { intros w2. rewrite store_many_ok by lia. simpl.
      rewrite drop_ge by lia. by rewrite app_nil_r. }
    eexists (_, _, _), _. split.
    + erewrite bind_Ok; [|apply fill_row_buffer; [lia | lia | nia | nia | done]].
      fold (row k). fold x.
      rewrite bind_assoc, (bind_Ok _ _ _ _ _ (emit_run _ _)).
      rewrite (bind_Ok _ _ _ _ _ (Hstore _)).
      erewrite bind_Ok; [reflexivity|].
      apply copy_row_exact; [lia | lia | lia | | nia].
      rewrite length_app, length_drop. nia.
    + cbn [fst snd live trace].
      split; [apply dense_row_buffer; nia|]. split; [lia|].
      assert (Hnext : filled (S k) = filled k ++ vals x).
      { unfold filled. rewrite seq_S, fmap_app. apply concat_snoc. }
      split; [|split].
      * rewrite Hnext, <- app_assoc. f_equal; [|f_equal].
        -- rewrite take_app_length'; [done|lia].
        -- rewrite drop_app_ge by lia. rewrite drop_drop. f_equal. nia.
      * rewrite Hnext, length_app. nia.
      * by rewrite seq_S, fmap_app, app_assoc.
  - exists st. split; [exact Hrun|].
    rewrite Hst, drop_ge by nia. by rewrite app_nil_r.
Qed.

(** The loop of [decision_function] for a regression or one-class type,
    call by call. *)
Lemma single_loop_exact (model : svm_model) (x_pt : list float) (n d : Z)
    (buf : list svm_node) (y_pt : list float) (w : world) :
  0 <= n → 0 <= d → n * d <= INT_MAX → n * d <= Z.of_nat (length x_pt) →
  node_buffer (Z.to_nat d) buf →
  Z.of_nat (length y_pt) = n →
  let row i := toSparseSample (dense_row x_pt d (Z.of_nat i)) in
  (∀ i, (i < Z.to_nat n)%nat → length (svm_predict_values model (row i)) = 1%nat) →
  ∃ st,
    for_lt n (λ i st,
      x_nodes <- fill_row x_pt i d st.1 ;;
      y_pt <- call_svm_predict_values model x_nodes st.2 i ;;
      ret (x_nodes, y_pt))%call (buf, y_pt) w
    = ({| live := live w;
          trace := trace w
                   ++ ((λ i, E_svm_predict_values model (row i)) <$> seq 0 (Z.to_nat n)) |},
       Ok st)
    ∧ st.2 = concat ((λ i, svm_predict_values model (row i)) <$> seq 0 (Z.to_nat n)).
Proof.
  intros Hn Hd Hnd Hx Hbuf Hy row Hcontract.
  set (filled k := concat ((λ i, svm_predict_values model (row i)) <$> seq 0 k)).
  destruct (for_from_ok
    (λ k (st : list svm_node * list float) w',
       node_buffer (Z.to_nat d) st.1
       ∧ st.2 = filled k ++ drop k y_pt
       ∧ length (filled k) = k
       ∧ w' = {| live := live w;
                 trace := trace w
                          ++ ((λ i, E_svm_predict_values model (row i)) <$> seq 0 k) |})
    (Z.to_nat n) 0
    (λ i st,
      x_nodes <- fill_row x_pt i d st.1 ;;
      y_pt <- call_svm_predict_values model x_nodes st.2 i ;;
      ret (x_nodes, y_pt))%call (buf, y_pt) w)
    as (st & w' & Hrun & _ & Hst & Hfilled & ->).
  - split; [done|]. split; [by rewrite drop_0|]. split; [done|].
    simpl. rewrite app_nil_r. by destruct w.
  - intros k [nodes yp] w1 Hk (Hnodes & Hyp & Hfilled & ->).
    cbn [fst snd] in *. subst yp. rewrite Z.add_0_l.
    pose proof (Hcontract k Hk) as Hvals.
    set (x := row k) in *.
    eexists (_, _), _. split.
    + erewrite bind_Ok; [|apply fill_row_buffer; [lia | lia | nia | nia | done]].
      fold (row k). fold x. unfold call_svm_predict_values.
      rewrite bind_assoc, (bind_Ok _ _ _ _ _ (emit_run _ _)).
      erewrite bind_Ok; [reflexivity|].
      apply store_many_ok; [lia|].
      rewrite Hvals, length_app, length_drop. lia.
    + cbn [fst snd live trace].
      split; [apply dense_row_buffer; nia|].
      assert (Hnext : filled (S k) = filled k ++ svm_predict_values model x).
      { unfold filled. rewrite seq_S, fmap_app. apply concat_snoc. }
      split; [|split].
      * rewrite Hnext, <- app_assoc, Nat2Z.id, Hvals. f_equal; [|f_equal].
        -- rewrite take_app_length'; [done|lia].
        -- rewrite drop_app_ge by lia. rewrite drop_drop. f_equal. lia.
      * rewrite Hnext, length_app. lia.
      * by rewrite seq_S, fmap_app, app_assoc.
  - exists st. split; [exact Hrun|].
    rewrite Hst, drop_ge by lia. by rewrite app_nil_r.
Qed.

End Values.

Section ValueRuns.

Context `{!LibSVM, !Converter, !Runtime}.

(** A run of [decision_function] under a regression or one-class type. *)
Lemma decision_function_single_exact (a : narray) (n d : Z) (ph mh : VALUE) prm model
    (w : world) :
  rb_hash_to_svm_parameter ph = Ok prm →
  rb_hash_to_svm_model mh = Ok model →
  one_value_per_sample (assign_param model prm) = true →
  dense_matrix a n d →
  (∀ i, (i < Z.to_nat n)%nat →
     length (svm_predict_values (assign_param model prm) (sparse_row a d i)) = 1%nat) →
  decision_function (DFloat a) ph mh w
  = (after_calls (λ i, E_svm_predict_values (assign_param model prm) (sparse_row a d i))
       n w,
     Ok (DFloat {| na_contiguous := true; na_shape := [n];
                   na_data := row_major (λ i, svm_predict_values (assign_param model prm)
                                                (sparse_row a d i)) n |})).
Proof.
  intros Hprm Hmodel Hone Hmat Hcontract.
  apply dense_matrix_dup in Hmat.
  pose proof Hmat as (Hshape & Hn & Hd & Hnd & Hlen).
  unfold decision_function, cast_unless_DFloat. flatten_binds.
  step (hash_to_svm_parameter_run ph prm w Hprm).
  step (hash_to_svm_model_run mh model _ Hmodel).
  set (w1 := {| live := N_model :: _; trace := _ |}).
  set (m := assign_param model prm) in *.
  destruct (NA_SHAPE_matrix _ n d w1 Hmat) as [HS0 HS1].
  step HS0. step HS1. cbv zeta. rewrite Hone.
  rewrite !size_t_of_int_id by lia.
  destruct (rb_narray_new_1 n 1) as [Hyshape Hylen]; [lia|].
  set (y_val := rb_narray_new 1 [n; 1]) in *.
  flatten_binds.
  step (node_buffer_alloc d w1 ltac:(lia)).
  set (w2 := {| live := N_x_nodes :: live w1; trace := trace w1 |}).
  destruct (node_buffer_sentinel d w2) as (buf & Hput & Hbuf); [lia|].
  step Hput.
  unfold na_get_pointer_for_read, na_get_pointer_for_write.
  rewrite dup_unless_contiguous_data in *.
  destruct (single_loop_exact m (na_data a) n d buf (na_data y_val) w2)
    as (st & Hloop & Hst); try done; try lia.
  step Hloop.
  erewrite bind_Ok; [|by apply xfree_head]. flatten_binds.
  unfold xfree_svm_model, xfree_svm_parameter.
  erewrite bind_Ok; [|by apply xfree_head].
  erewrite bind_Ok; [|by apply xfree_head].
  unfold ret, written, after_calls, row_major, sparse_row.
  cbn [live trace]. by rewrite Hyshape, Hst.
Qed.

(** A run of [decision_function] under a classification type. *)
Lemma decision_function_pairs_exact (a : narray) (n d : Z) (ph mh : VALUE) prm model
    (w : world) :
  rb_hash_to_svm_parameter ph = Ok prm →
  rb_hash_to_svm_model mh = Ok model →
  one_value_per_sample (assign_param model prm) = false →
  dense_matrix a n d →
  0 <= nr_class model →
  nr_class model * (nr_class model - 1) <= INT_MAX →
  n * (nr_class model * (nr_class model - 1) / 2) <= INT_MAX →
  (∀ i, (i < Z.to_nat n)%nat →
     Z.of_nat (length (svm_predict_values (assign_param model prm) (sparse_row a d i)))
     = nr_class model * (nr_class model - 1) / 2) →
  decision_function (DFloat a) ph mh w
  = (after_calls (λ i, E_svm_predict_values (assign_param model prm) (sparse_row a d i))
       n w,
     Ok (DFloat {| na_contiguous := true;
                   na_shape := [n; nr_class model * (nr_class model - 1) / 2];
                   na_data := row_major (λ i, svm_predict_values (assign_param model prm)
                                                (sparse_row a d i)) n |})).
Proof.
  intros Hprm Hmodel Hone Hmat Hc Hfit Hnc Hcontract.
  apply dense_matrix_dup in Hmat.
  pose proof Hmat as (Hshape & Hn & Hd & Hnd & Hlen).
  unfold decision_function, cast_unless_DFloat. flatten_binds.
  step (hash_to_svm_parameter_run ph prm w Hprm).
  step (hash_to_svm_model_run mh model _ Hmodel).
  set (w1 := {| live := N_model :: _; trace := _ |}).
  set (m := assign_param model prm) in *.
  destruct (n_pairs_exact m Hc Hfit) as [Hpairs Hrange].
  change (nr_class m) with (nr_class model) in Hpairs.
  set (c := nr_class model * (nr_class model - 1) / 2) in *.
  destruct (NA_SHAPE_matrix _ n d w1 Hmat) as [HS0 HS1].
  step HS0. step HS1. cbv zeta. rewrite Hone, Hpairs.
  rewrite !size_t_of_int_id by lia.
  destruct (rb_narray_new_2 n c) as [Hyshape Hylen]; [lia..|].
  set (y_val := rb_narray_new 2 [n; c]) in *.
  flatten_binds.
  step (load_ok [n; c] 1 c w1 ltac:(lia) eq_refl).
  rewrite (int_of_size_t_id c) by lia.
  step (ALLOC_N_ok N_dec_values fresh_double c w1 ltac:(lia)).
  set (w2 := {| live := N_dec_values :: live w1; trace := trace w1 |}).
  step (node_buffer_alloc d w2 ltac:(lia)).
  set (w3 := {| live := N_x_nodes :: live w2; trace := trace w2 |}).
  destruct (node_buffer_sentinel d w3) as (buf & Hput & Hbuf); [lia|].
  step Hput.
  unfold na_get_pointer_for_read, na_get_pointer_for_write.
  rewrite dup_unless_contiguous_data in *.
  destruct (batch_loop_exact (E_svm_predict_values m) (svm_predict_values m)
    (na_data a) n d c buf (fresh_double <$> seq 0 (Z.to_nat c)) (na_data y_val) w3)
    as (st & Hloop & Hst); try done; try lia.
  { rewrite length_fmap, length_seq. lia. }
  unfold call_svm_predict_values.
  step Hloop.
  erewrite bind_Ok; [|by apply xfree_head]. flatten_binds.
  erewrite bind_Ok; [|by apply xfree_head]. flatten_binds.
  unfold xfree_svm_model, xfree_svm_parameter.
  erewrite bind_Ok; [|by apply xfree_head].
  erewrite bind_Ok; [|by apply xfree_head].
  unfold ret, written, after_calls, row_major, sparse_row.
  cbn [live trace]. by rewrite Hyshape, Hst.
Qed.

(** A run of [predict_proba] on the branch that predicts. *)
Lemma predict_proba_exact (a : narray) (n d : Z) (ph mh : VALUE) prm model (w : world) :
  rb_hash_to_svm_parameter ph = Ok prm →
  rb_hash_to_svm_model mh = Ok model →
  has_probability (assign_param model prm) = true →
  dense_matrix a n d →
  0 <= nr_class model <= INT_MAX → n * nr_class model <= INT_MAX →
  (∀ i, (i < Z.to_nat n)%nat →
     Z.of_nat (length (svm_predict_probability (assign_param model prm)
                         (sparse_row a d i)))
     = nr_class model) →
  predict_proba (DFloat a) ph mh w
  = (after_calls (λ i, E_svm_predict_probability (assign_param model prm)
                         (sparse_row a d i)) n w,
     Ok (DFloat {| na_contiguous := true; na_shape := [n; nr_class model];
                   na_data := row_major (λ i, svm_predict_probability
                                                (assign_param model prm)
                                                (sparse_row a d i)) n |})).
Proof.
  intros Hprm Hmodel Hyes Hmat Hc Hnc Hcontract.
  apply dense_matrix_dup in Hmat.
  pose proof Hmat as (Hshape & Hn & Hd & Hnd & Hlen).
  unfold predict_proba.
  rewrite (bind_Ok _ _ _ _ _ (hash_to_svm_parameter_run ph prm w Hprm)).
  rewrite (bind_Ok _ _ _ _ _ (hash_to_svm_model_run mh model _ Hmodel)).
  cbv zeta. rewrite Hyes.
  set (w1 := {| live := N_model :: _; trace := _ |}).
  set (m := assign_param model prm) in *.
  change (nr_class m) with (nr_class model).
  destruct (NA_SHAPE_matrix _ n d w1 Hmat) as [HS0 HS1].
  unfold cast_unless_DFloat. flatten_binds.
  step HS0. step HS1.
  rewrite !size_t_of_int_id by lia.
  destruct (rb_narray_new_2 n (nr_class model)) as [Hyshape Hylen]; [lia..|].
  set (y_val := rb_narray_new 2 [n; nr_class model]) in *.
  step (ALLOC_N_ok N_probs fresh_double (nr_class model) w1 ltac:(lia)).
  set (w2 := {| live := N_probs :: live w1; trace := trace w1 |}).
  step (node_buffer_alloc d w2 ltac:(lia)).
  set (w3 := {| live := N_x_nodes :: live w2; trace := trace w2 |}).
  destruct (node_buffer_sentinel d w3) as (buf & Hput & Hbuf); [lia|].
  step Hput.
  unfold na_get_pointer_for_read, na_get_pointer_for_write.
  rewrite dup_unless_contiguous_data in *.
  destruct (batch_loop_exact (E_svm_predict_probability m) (svm_predict_probability m)
    (na_data a) n d (nr_class model) buf
    (fresh_double <$> seq 0 (Z.to_nat (nr_class model))) (na_data y_val) w3)
    as (st & Hloop & Hst); try done; try lia.
  { rewrite length_fmap, length_seq. lia. }
  unfold call_svm_predict_probability.
  change (nr_class m) with (nr_class model).
  step Hloop.
  erewrite bind_Ok; [|by apply xfree_head]. flatten_binds.
  erewrite bind_Ok; [|by apply xfree_head]. flatten_binds.
  unfold xfree_svm_model, xfree_svm_parameter.
  erewrite bind_Ok; [|by apply xfree_head].
  erewrite bind_Ok; [|by apply xfree_head].
  unfold ret, written, after_calls, row_major, sparse_row.
  cbn [live trace]. by rewrite Hyshape, Hst.
Qed.

End ValueRuns.

Section ValueRunsTogether.

Context `{!LibSVM, !Converter, !Runtime}.

(** Both branches of [decision_function] in one statement. *)
Lemma decision_function_exact (a : narray) (n d : Z) (ph mh : VALUE) prm model
    (w : world) :
  rb_hash_to_svm_parameter ph = Ok prm →
  rb_hash_to_svm_model mh = Ok model →
  dense_matrix a n d →
  let m := assign_param model prm in
  let pairs := nr_class model * (nr_class model - 1) / 2 in
  (one_value_per_sample m = false →
   0 <= nr_class model ∧ nr_class model * (nr_class model - 1) <= INT_MAX
   ∧ n * pairs <= INT_MAX) →
  (∀ i, (i < Z.to_nat n)%nat →
     Z.of_nat (length (svm_predict_values m (sparse_row a d i)))
     = if one_value_per_sample m then 1 else pairs) →
  decision_function (DFloat a) ph mh w
  = (after_calls (λ i, E_svm_predict_values m (sparse_row a d i)) n w,
     Ok (DFloat {| na_contiguous := true;
                   na_shape := if one_value_per_sample m then [n] else [n; pairs];
                   na_data := row_major (λ i, svm_predict_values m (sparse_row a d i))
                                n |})).
Proof.
  intros Hprm Hmodel Hmat m pairs Hfit Hcontract.
  destruct (one_value_per_sample m) eqn:Hone.
  - apply (decision_function_single_exact a n d ph mh prm model w); try done.
    intros i Hi. specialize (Hcontract i Hi). fold m. lia.
  - destruct (Hfit eq_refl) as (Hc & Hcc & Hnc).
    by apply (decision_function_pairs_exact a n d ph mh prm model w).
Qed.

End ValueRunsTogether.

(** X9: on a matrix of [n_samples] rows, with mappings that decode and
    an engine that writes as many decision values per sample as LIBSVM
    documents (one under [ONE_CLASS], [EPSILON_SVR], [NU_SVR]; one per
    pair of classes otherwise), [decision_function] calls
    [svm_predict_values] exactly once per row, in the order of the rows,
    on the sparse form of that row and on the model under the caller's
    parameter record; the result holds the values of call [i] in row [i]
    (row-major), and every structure is released.  The contract is only
    asked of the rows that are there. *)
Theorem decision_function_values `{!LibSVM, !Converter, !Runtime}
    (a : narray) (n d : Z) (ph mh : VALUE) prm model (w : world) :
  rb_hash_to_svm_parameter ph = Ok prm →
  rb_hash_to_svm_model mh = Ok model →
  dense_matrix a n d →
  let m := assign_param model prm in
  let pairs := nr_class model * (nr_class model - 1) / 2 in
  (one_value_per_sample m = false →
   0 <= nr_class model ∧ nr_class model * (nr_class model - 1) <= INT_MAX
   ∧ n * pairs <= INT_MAX) →
  (∀ i, (i < Z.to_nat n)%nat →
     Z.of_nat (length (svm_predict_values m (sparse_row a d i)))
     = if one_value_per_sample m then 1 else pairs) →
  decision_function (DFloat a) ph mh w
  = (after_calls (λ i, E_svm_predict_values m (sparse_row a d i)) n w,
     Ok (DFloat {| na_contiguous := true;
                   na_shape := if one_value_per_sample m then [n] else [n; pairs];
                   na_data := row_major (λ i, svm_predict_values m (sparse_row a d i))
                                n |})).
Proof. apply decision_function_exact. Qed.

Lemma decision_function_values_witness :
  let a := {| na_contiguous := true; na_shape := [2; 2];
              na_data := [1; 2; 3; 4]%float |} in
  let m := assign_param (Fixture.decoded_model None) (Fixture.decoded_parameter C_SVC) in
  @decision_function Fixture.engine Fixture.converter Fixture.runtime
    (DFloat a) (Fixture.param_of_type C_SVC) (Fixture.model_hash None) Fixture.w0
  = ({| live := [];
        trace := [E_svm_predict_values m (toSparseSample [1; 2]%float);
                  E_svm_predict_values m (toSparseSample [3; 4]%float)] |},
     Ok (DFloat {| na_contiguous := true; na_shape := [2; 1];
                   na_data := [1; 3]%float |})).
Proof.
  intros a m.
  apply (@decision_function_values Fixture.engine Fixture.converter Fixture.runtime
           a 2 2 (Fixture.param_of_type C_SVC) (Fixture.model_hash None)
           (Fixture.decoded_parameter C_SVC) (Fixture.decoded_model None) Fixture.w0).
  - reflexivity.
  - reflexivity.
  - concrete.
  - intros _. concrete.
  - intros i Hi. reflexivity.
Defined.

(** X10: on the branch that predicts (a calibrated model), with a
    matrix of [n_samples] rows and an engine that writes [nr_class]
    probabilities per sample, [predict_proba] calls
    [svm_predict_probability] exactly once per row, in the order of the
    rows, on the sparse form of that row and on the model under the
    caller's parameter record; row [i] of the result holds the
    probabilities of call [i], and every structure is released. *)
Theorem predict_proba_values `{!LibSVM, !Converter, !Runtime}
    (a : narray) (n d : Z) (ph mh : VALUE) prm model (w : world) :
  rb_hash_to_svm_parameter ph = Ok prm →
  rb_hash_to_svm_model mh = Ok model →
  calibrated prm model →
  dense_matrix a n d →
  0 <= nr_class model <= INT_MAX → n * nr_class model <= INT_MAX →
  let m := assign_param model prm in
  (∀ i, (i < Z.to_nat n)%nat →
     Z.of_nat (length (svm_predict_probability m (sparse_row a d i))) = nr_class model) →
  predict_proba (DFloat a) ph mh w
  = (after_calls (λ i, E_svm_predict_probability m (sparse_row a d i)) n w,
     Ok (DFloat {| na_contiguous := true; na_shape := [n; nr_class model];
                   na_data := row_major (λ i, svm_predict_probability m (sparse_row a d i))
                                n |})).
Proof.
  intros Hprm Hmodel Hcal Hmat Hc Hnc m Hcontract.
  apply (predict_proba_exact a n d ph mh prm model w); try done.
  by apply calibrated_has_probability.
Qed.

Lemma predict_proba_values_witness :
  let a := {| na_contiguous := true; na_shape := [2; 2];
              na_data := [1; 2; 3; 4]%float |} in
  let m := assign_param (Fixture.decoded_model (Some [1%float]))
             (Fixture.decoded_parameter NU_SVC) in
  @predict_proba Fixture.engine Fixture.converter Fixture.runtime
    (DFloat a) (Fixture.param_of_type NU_SVC) (Fixture.model_hash (Some [1%float]))
    Fixture.w0
  = ({| live := [];
        trace := [E_svm_predict_probability m (toSparseSample [1; 2]%float);
                  E_svm_predict_probability m (toSparseSample [3; 4]%float)] |},
     Ok (DFloat {| na_contiguous := true; na_shape := [2; 2];
                   na_data := [1; 1; 3; 3]%float |})).
Proof.
  intros a m.
  apply (@predict_proba_values Fixture.engine Fixture.converter Fixture.runtime
           a 2 2 (Fixture.param_of_type NU_SVC) (Fixture.model_hash (Some [1%float]))
           (Fixture.decoded_parameter NU_SVC) (Fixture.decoded_model (Some [1%float]))
           Fixture.w0).
  - reflexivity.
  - reflexivity.
  - unfold calibrated. simpl. split; [by right|]. split; discriminate.
  - concrete.
  - concrete.
  - concrete.
  - intros i Hi. reflexivity.
Defined.

(** ** Reads outside the arrays *)

Lemma load_outside {A} (buf : list A) (i : Z) (w : world) :
  Z.of_nat (length buf) <= i → load buf i w = (w, Undefined).
Proof.
  intros Hi. unfold load. rewrite decide_True by lia.
  by rewrite (lookup_ge_None_2 buf (Z.to_nat i)) by lia.
Qed.

Lemma for_from_app {St} (c1 c2 : nat) (i : Z) (body : Z → St → M St) (s : St) (w : world) :
  for_from (c1 + c2) i body s w
  = bind (for_from c1 i body s) (λ s', for_from c2 (i + Z.of_nat c1) body s') w.
Proof.
  revert i s w. induction c1 as [|c1 IH]; intros i s w.
  - change (for_from (0 + c2) i body s w) with (for_from c2 i body s w).
    change (for_from 0 i body s) with (ret (A := St) s).
    rewrite bind_ret_l. f_equal. lia.
  - change (for_from (S c1 + c2) i body s w)
      with (bind (body i s) (λ s', for_from (c1 + c2) (i + 1) body s') w).
    change (for_from (S c1) i body s)
      with (bind (body i s) (λ s', for_from c1 (i + 1) body s')).
    rewrite bind_assoc. apply bind_ext. intros s1 w1. rewrite IH.
    apply bind_ext. intros s2 w2. f_equal. lia.
Qed.

Lemma for_from_app_bind {St B} (c1 c2 : nat) (i : Z) (body : Z → St → M St) (s : St)
    (k : St → M B) (w : world) :
  bind (for_from (c1 + c2) i body s) k w
  = bind (for_from c1 i body s)
      (λ s', bind (for_from c2 (i + Z.of_nat c1) body s') k) w.
Proof.
  unfold bind. rewrite for_from_app. unfold bind.
  by destruct (for_from c1 i body s w) as [w1 [s1 | e |]].
Qed.

Section OutOfBounds.

Context `{!LibSVM, !Converter, !Runtime}.

(** A shape of fewer than two extents has no [NA_SHAPE(x_nary)[1]], and
    one of no extent no [NA_SHAPE(x_nary)[0]]. *)
Lemma NA_SHAPE_0_missing (a : narray) (w : world) :
  na_shape a = [] → NA_SHAPE (dup_unless_contiguous a) 0 w = (w, Undefined).
Proof.
  intros Hs. unfold NA_SHAPE. rewrite dup_unless_contiguous_shape, Hs. done.
Qed.

Lemma NA_SHAPE_1_missing (a : narray) (s : Z) (w : world) :
  na_shape a = [s] →
  NA_SHAPE (dup_unless_contiguous a) 0 w = (w, Ok (int_of_size_t s))
  ∧ NA_SHAPE (dup_unless_contiguous a) 1 w = (w, Undefined).
Proof.
  intros Hs. unfold NA_SHAPE. rewrite dup_unless_contiguous_shape, Hs. done.
Qed.

(** The conversion of sample [i] up to the point where its target is
    read. *)
Lemma problem_row_ok (x_pt : list float) (i d : Z) (px : list (list svm_node))
    (w : world) :
  0 <= i → 0 <= d < INT_MAX → (i + 1) * d <= INT_MAX →
  (i + 1) * d <= Z.of_nat (length x_pt) → i < Z.of_nat (length px) →
  (row <- ALLOC_N (N_problem_row i) fresh_node (int_add d 1) ;;
   row <- fill_row x_pt i d row ;;
   row <- put_sentinel row d ;;
   store px i row)%call w
  = ({| live := N_problem_row i :: live w; trace := trace w |},
     Ok (<[Z.to_nat i := toSparseSample (dense_row x_pt d i)]> px)).
Proof.
  intros Hi Hd Hfit Hin Hpx.
  pose proof (dense_row_length x_pt d i Hi ltac:(lia) Hin) as Hrow.
  set (buf := fresh_node <$> seq 0 (Z.to_nat (d + 1))).
  assert (Hbuf : length buf = S (Z.to_nat d)).
  { unfold buf. rewrite length_fmap, length_seq. lia. }
  rewrite int_add_id by (unfold in_int, INT_MIN; lia).
  erewrite bind_Ok; [|apply ALLOC_N_ok; lia]. fold buf.
  erewrite bind_Ok; [|apply fill_row_ok; [lia | lia | nia | nia | rewrite Hbuf; lia]].
  erewrite bind_Ok; cycle 1.
  { apply put_sentinel_exact; [lia|].
    rewrite length_app, dense_nodes_length, length_drop. lia. }
  rewrite <- Hrow at 1 2. rewrite fresh_row_sparse by (rewrite Hbuf; lia).
  by apply store_ok.
Qed.

(** With fewer targets than samples, the loop of "Prepare LIBSVM
    problem" reads [y_pt[i]] at the first [i] past the end of [y]. *)
Lemma prepare_problem_short (x_pt y_pt : list float) (n d : Z) (w : world) :
  0 <= n → 0 <= d < INT_MAX → n * d <= INT_MAX →
  n * d <= Z.of_nat (length x_pt) → Z.of_nat (length y_pt) < n →
  ∃ w', prepare_problem x_pt y_pt n d w = (w', Undefined).
Proof.
  intros Hn Hd Hnd Hx Hy. unfold prepare_problem.
  rewrite (bind_Ok _ _ _ _ _ (eq_refl : alloc N_problem w = (_, Ok tt))).
  erewrite bind_Ok; [|by apply ALLOC_N_ok].
  erewrite bind_Ok; [|by apply ALLOC_N_ok].
  set (px0 := (λ _ : nat, []) <$> seq 0 (Z.to_nat n)).
  set (py0 := fresh_double <$> seq 0 (Z.to_nat n)).
  set (w0 := {| live := N_problem_y :: _; trace := _ |}).
  set (body := λ (i : Z) (xy : list (list svm_node) * list float),
    (let problem_x := xy.1 in
     let problem_y := xy.2 in
     row <- ALLOC_N (N_problem_row i) fresh_node (int_add d 1) ;;
     row <- fill_row x_pt i d row ;;
     row <- put_sentinel row d ;;
     problem_x <- store problem_x i row ;;
     y_i <- load y_pt i ;;
     problem_y <- store problem_y i y_i ;;
     ret (problem_x, problem_y))%call).
  set (m := length y_pt) in *.
  unfold for_lt.
  replace (for_from (Z.to_nat n) 0 body (px0, py0))
    with (for_from (m + S (Z.to_nat n - S m)) 0 body (px0, py0)) by (f_equal; lia).
  rewrite for_from_app_bind.
  destruct (for_from_ok
    (λ _ (xy : list (list svm_node) * list float) _,
       length xy.1 = Z.to_nat n ∧ length xy.2 = Z.to_nat n)
    m 0 body (px0, py0) w0) as ([px py] & w1 & Hrun & Hpx & Hpy).
  - cbn [fst snd]. unfold px0, py0. by rewrite !length_fmap, !length_seq.
  - intros k [px py] w1 Hk [Hpx Hpy]. cbn [fst snd] in *. rewrite Z.add_0_l.
    destruct (lookup_lt_is_Some_2 y_pt k Hk) as [y_k Hyk].
    eexists (_, _), _. split.
    + unfold body. cbv zeta. cbn [fst snd].
      rewrite <- !bind_assoc.
      erewrite bind_Ok; [|rewrite !bind_assoc; apply problem_row_ok; [lia | lia | nia | nia | lia]].
      erewrite bind_Ok; [|apply load_ok; [lia | by rewrite Nat2Z.id]].
      erewrite bind_Ok; [reflexivity|]. apply store_ok. lia.
    + cbn [fst snd]. by rewrite !length_insert.
  - cbn [fst snd] in *. rewrite (bind_Ok _ _ _ _ _ Hrun).
    change (for_from (S (Z.to_nat n - S m)) (0 + Z.of_nat m) body (px, py))
      with (bind (body (0 + Z.of_nat m) (px, py))
              (λ s', for_from (Z.to_nat n - S m) (0 + Z.of_nat m + 1) body s')).
    rewrite Z.add_0_l, bind_assoc.
    eexists. apply bind_Undefined.
    unfold body. cbv zeta. cbn [fst snd].
    rewrite <- !bind_assoc.
    erewrite bind_Ok; [|rewrite !bind_assoc; apply problem_row_ok; [lia | lia | nia | nia | lia]].
    apply bind_Undefined. apply load_outside. lia.
Qed.

End OutOfBounds.

(** Runs a function body into the read of the missing extent. *)
Ltac shape_runs_out a Hdim :=
  let Hs := fresh "Hs" in
  destruct (na_shape a) as [|? [|? ?]] eqn:Hs; [| |simpl in Hdim; lia];
  [ by rewrite (bind_Undefined _ _ _ _ (NA_SHAPE_0_missing a _ Hs))
  | rewrite (bind_Ok _ _ _ _ _ (proj1 (NA_SHAPE_1_missing a _ _ Hs))); flatten_binds;
    by rewrite (bind_Undefined _ _ _ _ (proj2 (NA_SHAPE_1_missing a _ _ Hs))) ].

(** X11: nothing checks that [x] has two dimensions.  For an array
    with fewer than two extents, [train], [cross_validation], [predict],
    [decision_function] and, on the branch that predicts,
    [predict_proba] read [NA_SHAPE(x_nary)[1]] (for no extent at all
    already [NA_SHAPE(x_nary)[0]]) outside the shape array, which C
    leaves undefined; no exception is raised for it. *)
Theorem x_of_fewer_than_two_dimensions `{!LibSVM, !Converter, !Runtime}
    (a y : narray) (ph mh : VALUE) prm model (k : Z) (w : world) :
  rb_hash_to_svm_parameter ph = Ok prm →
  rb_hash_to_svm_model mh = Ok model →
  (length (na_shape a) < 2)%nat →
  INT_MIN <= k <= INT_MAX →
  (train (DFloat a) (DFloat y) ph w).2 = Undefined
  ∧ (cross_validation (DFloat a) (DFloat y) ph (Fixnum k) w).2 = Undefined
  ∧ (predict (DFloat a) ph mh w).2 = Undefined
  ∧ (decision_function (DFloat a) ph mh w).2 = Undefined
  ∧ (calibrated prm model → (predict_proba (DFloat a) ph mh w).2 = Undefined).
Proof.
  intros Hprm Hmodel Hdim Hk. repeat split.
  - unfold train, cast_unless_DFloat. flatten_binds.
    step (hash_to_svm_parameter_run ph prm w Hprm).
    shape_runs_out a Hdim.
  - unfold cross_validation, cast_unless_DFloat.
    rewrite (bind_Ok _ _ _ _ _ (NUM2INT_int k w Hk)). flatten_binds.
    step (hash_to_svm_parameter_run ph prm w Hprm).
    shape_runs_out a Hdim.
  - unfold predict, cast_unless_DFloat. flatten_binds.
    step (hash_to_svm_parameter_run ph prm w Hprm).
    step (hash_to_svm_model_run mh model _ Hmodel).
    shape_runs_out a Hdim.
  - unfold decision_function, cast_unless_DFloat. flatten_binds.
    step (hash_to_svm_parameter_run ph prm w Hprm).
    step (hash_to_svm_model_run mh model _ Hmodel).
    shape_runs_out a Hdim.
  - intros Hcal. apply calibrated_has_probability in Hcal.
    unfold predict_proba.
    rewrite (bind_Ok _ _ _ _ _ (hash_to_svm_parameter_run ph prm w Hprm)).
    rewrite (bind_Ok _ _ _ _ _ (hash_to_svm_model_run mh model _ Hmodel)).
    cbv zeta. rewrite Hcal. unfold cast_unless_DFloat. flatten_binds.
    shape_runs_out a Hdim.
Qed.

Lemma x_of_fewer_than_two_dimensions_witness :
  let a := {| na_contiguous := true; na_shape := [3]; na_data := [1; 2; 3]%float |} in
  let ph := Fixture.param_of_type C_SVC in
  let mh := Fixture.model_hash (Some [1%float]) in
  (@train Fixture.engine Fixture.converter Fixture.runtime
     (DFloat a) (DFloat a) ph Fixture.w0).2 = Undefined
  ∧ (@cross_validation Fixture.engine Fixture.converter Fixture.runtime
       (DFloat a) (DFloat a) ph (Fixnum 5) Fixture.w0).2 = Undefined
  ∧ (@predict Fixture.engine Fixture.converter Fixture.runtime
       (DFloat a) ph mh Fixture.w0).2 = Undefined
  ∧ (@decision_function Fixture.engine Fixture.converter Fixture.runtime
       (DFloat a) ph mh Fixture.w0).2 = Undefined
  ∧ (calibrated (Fixture.decoded_parameter C_SVC) (Fixture.decoded_model (Some [1%float])) →
     (@predict_proba Fixture.engine Fixture.converter Fixture.runtime
        (DFloat a) ph mh Fixture.w0).2 = Undefined).
Proof.
  intros a ph mh.
  apply (@x_of_fewer_than_two_dimensions Fixture.engine Fixture.converter
           Fixture.runtime a a ph mh (Fixture.decoded_parameter C_SVC)
           (Fixture.decoded_model (Some [1%float])) 5 Fixture.w0).
  - reflexivity.
  - reflexivity.
  - simpl. lia.
  - unfold INT_MIN, INT_MAX. lia.
Defined.

(** X12: nothing compares the length of [y] with the number of rows of
    [x].  With fewer targets than samples, [train] and
    [cross_validation] read [y_pt[i]] past the end of [y] while they
    prepare the problem, which C leaves undefined; no exception is
    raised for the mismatch. *)
Theorem too_few_targets_are_read_past_the_end `{!LibSVM, !Converter, !Runtime}
    (x y : narray) (n d k : Z) (ph : VALUE) prm (w : world) :
  rb_hash_to_svm_parameter ph = Ok prm →
  dense_matrix x n d →
  Z.of_nat (length (na_data y)) < n →
  INT_MIN <= k <= INT_MAX →
  (train (DFloat x) (DFloat y) ph w).2 = Undefined
  ∧ (cross_validation (DFloat x) (DFloat y) ph (Fixnum k) w).2 = Undefined.
Proof.
  intros Hprm Hmat Hy Hk.
  apply dense_matrix_dup in Hmat.
  pose proof Hmat as (Hshape & Hn & Hd & Hnd & Hlen).
  set (w1 := {| live := N_parameter :: live w; trace := trace w |}).
  destruct (NA_SHAPE_matrix _ n d w1 Hmat) as [HS0 HS1].
  destruct (prepare_problem_short (na_data (dup_unless_contiguous x))
              (na_data (dup_unless_contiguous y)) n d w1)
    as [w2 Hshort]; try lia.
  { by rewrite dup_unless_contiguous_data. }
  split.
  - unfold train, cast_unless_DFloat. flatten_binds.
    step (hash_to_svm_parameter_run ph prm w Hprm).
    step HS0. step HS1. unfold na_get_pointer_for_read.
    by rewrite (bind_Undefined _ _ _ _ Hshort).
  - unfold cross_validation, cast_unless_DFloat.
    rewrite (bind_Ok _ _ _ _ _ (NUM2INT_int k w Hk)). flatten_binds.
    step (hash_to_svm_parameter_run ph prm w Hprm).
    step HS0. step HS1. unfold na_get_pointer_for_read.
    by rewrite (bind_Undefined _ _ _ _ Hshort).
Qed.

Lemma too_few_targets_are_read_past_the_end_witness :
  let x := {| na_contiguous := true; na_shape := [2; 2];
              na_data := [1; 2; 3; 4]%float |} in
  let y := {| na_contiguous := true; na_shape := [1]; na_data := [1%float] |} in
  let ph := Fixture.param_of_type C_SVC in
  (@train Fixture.engine Fixture.converter Fixture.runtime
     (DFloat x) (DFloat y) ph Fixture.w0).2 = Undefined
  ∧ (@cross_validation Fixture.engine Fixture.converter Fixture.runtime
       (DFloat x) (DFloat y) ph (Fixnum 5) Fixture.w0).2 = Undefined.
Proof.
  intros x y ph.
  apply (@too_few_targets_are_read_past_the_end Fixture.engine Fixture.converter
           Fixture.runtime x y 2 2 5 ph (Fixture.decoded_parameter C_SVC) Fixture.w0).
  - reflexivity.
  - concrete.
  - simpl. lia.
  - unfold INT_MIN, INT_MAX. lia.
Defined.

(** ** A matrix without rows *)

Lemma after_calls_0 (ev : nat → event) (w : world) : after_calls ev 0 w = w.
Proof. unfold after_calls. simpl. rewrite app_nil_r. by destruct w. Qed.

Section WithoutRows.

Context `{!LibSVM, !Converter, !Runtime}.

Lemma ALLOC_N_negative {A} (k : native) (fresh : nat → A) (n : Z) (w : world) :
  n < 0 → ALLOC_N k fresh n w = (w, Raised ArgumentError).
Proof. intros Hn. unfold ALLOC_N. by rewrite decide_False by lia. Qed.

(** [n_features + 1] for [n_features = INT_MAX]: the sum wraps. *)
Lemma node_buffer_overflow (w : world) :
  ALLOC_N N_x_nodes fresh_node (int_add INT_MAX 1) w = (w, Raised ArgumentError).
Proof. by apply ALLOC_N_negative. Qed.

(** The extents of a matrix without rows and with [INT_MAX] columns. *)
Lemma NA_SHAPE_widest (a : narray) (w : world) :
  na_shape a = [0; INT_MAX] →
  NA_SHAPE (dup_unless_contiguous a) 0 w = (w, Ok 0)
  ∧ NA_SHAPE (dup_unless_contiguous a) 1 w = (w, Ok INT_MAX).
Proof.
  intros Hshape. split.
  - apply (NA_SHAPE_run _ 0%nat); [|done].
    by rewrite dup_unless_contiguous_shape, Hshape.
  - apply (NA_SHAPE_run _ 1%nat); [|done].
    by rewrite dup_unless_contiguous_shape, Hshape.
Qed.

End WithoutRows.

(** X13: a matrix with no rows, with mappings that decode.  With fewer
    than [INT_MAX] columns, the three prediction operations return an
    empty array of the expected rank without calling the engine at all
    and leave the world as it was, and nothing is asked of the engine
    for this; for [decision_function] under a classification type the
    class count is one whose number of pairs a C [int] holds
    ([0 <= nr_class], [nr_class * (nr_class - 1) <= INT_MAX]), for
    [predict_proba] one that a C [int] holds and that is not negative.
    [train] has no such shortcut: it hands the engine a problem of zero
    samples and encodes whatever model comes back.  With exactly
    [INT_MAX] columns, [n_features + 1] wraps to a negative count:
    [ALLOC_N] raises [ArgumentError] in all three predictions, no
    engine call is made, and what was allocated by then (the parameter
    and model structures and, where it comes first, the scratch buffer
    of decision values or probabilities) stays allocated. *)
Theorem a_matrix_without_rows `{!LibSVM, !Converter, !Runtime}
    (a y : narray) (d : Z) (ph mh : VALUE) prm model (w : world) :
  rb_hash_to_svm_parameter ph = Ok prm →
  rb_hash_to_svm_model mh = Ok model →
  let m := assign_param model prm in
  let pairs := nr_class model * (nr_class model - 1) / 2 in
  let empty := {| prob_l := 0; prob_y := []; prob_x := [] |} in
  (dense_matrix a 0 d →
   predict (DFloat a) ph mh w
   = (w, Ok (DFloat {| na_contiguous := true; na_shape := [0]; na_data := [] |}))
   ∧ (one_value_per_sample m = true →
      decision_function (DFloat a) ph mh w
      = (w, Ok (DFloat {| na_contiguous := true; na_shape := [0]; na_data := [] |})))
   ∧ (one_value_per_sample m = false →
      0 <= nr_class model → nr_class model * (nr_class model - 1) <= INT_MAX →
      decision_function (DFloat a) ph mh w
      = (w, Ok (DFloat {| na_contiguous := true; na_shape := [0; pairs];
                          na_data := [] |})))
   ∧ (calibrated prm model → 0 <= nr_class model <= INT_MAX →
      predict_proba (DFloat a) ph mh w
      = (w, Ok (DFloat {| na_contiguous := true; na_shape := [0; nr_class model];
                          na_data := [] |})))
   ∧ train (DFloat a) (DFloat y) ph w
     = ({| live := live w;
           trace := trace w ++ [E_svm_set_print_string_function;
                                E_svm_train empty prm;
                                E_svm_free_and_destroy_model (svm_train empty prm)] |},
        Ok (RHash (svm_model_to_rb_hash (svm_train empty prm)))))
  ∧ (na_shape a = [0; INT_MAX] →
     predict (DFloat a) ph mh w
     = (holding [N_model; N_parameter] w, Raised ArgumentError)
     ∧ (one_value_per_sample m = true →
        decision_function (DFloat a) ph mh w
        = (holding [N_model; N_parameter] w, Raised ArgumentError))
     ∧ (one_value_per_sample m = false →
        0 <= nr_class model → nr_class model * (nr_class model - 1) <= INT_MAX →
        decision_function (DFloat a) ph mh w
        = (holding [N_dec_values; N_model; N_parameter] w, Raised ArgumentError))
     ∧ (calibrated prm model → 0 <= nr_class model →
        predict_proba (DFloat a) ph mh w
        = (holding [N_probs; N_model; N_parameter] w, Raised ArgumentError))).
Proof.
  intros Hprm Hmodel m pairs empty. split.
  - intros Hmat. split; [|split; [|split; [|split]]].
    + rewrite (predict_ok a 0 d ph mh prm model w Hprm Hmodel Hmat).
      simpl. rewrite app_nil_r. by destruct w.
    + intros Hone.
      rewrite (decision_function_single_exact a 0 d ph mh prm model w); try done.
      * by rewrite after_calls_0.
      * intros i Hi. simpl in Hi. lia.
    + intros Hone Hc Hfit.
      rewrite (decision_function_pairs_exact a 0 d ph mh prm model w); try done.
      * by rewrite after_calls_0.
      * intros i Hi. simpl in Hi. lia.
    + intros Hcal Hc.
      rewrite (predict_proba_exact a 0 d ph mh prm model w); try done.
      * by rewrite after_calls_0.
      * by apply calibrated_has_probability.
      * intros i Hi. simpl in Hi. lia.
    + rewrite (train_ok a y 0 d ph prm w Hprm Hmat); [done|]. simpl. lia.
  - intros Hshape.
    pose proof (λ w, proj1 (NA_SHAPE_widest a w Hshape)) as HS0.
    pose proof (λ w, proj2 (NA_SHAPE_widest a w Hshape)) as HS1.
    split; [|split; [|split]].
    + unfold predict, cast_unless_DFloat. flatten_binds.
      step (hash_to_svm_parameter_run ph prm w Hprm).
      step (hash_to_svm_model_run mh model _ Hmodel).
      step (HS0 _). step (HS1 _). cbv zeta.
      by rewrite (bind_Raised _ _ _ _ _ (node_buffer_overflow _)).
    + intros Hone.
      unfold decision_function, cast_unless_DFloat. flatten_binds.
      step (hash_to_svm_parameter_run ph prm w Hprm).
      step (hash_to_svm_model_run mh model _ Hmodel).
      step (HS0 _). step (HS1 _). cbv zeta. fold m. rewrite Hone. flatten_binds.
      by rewrite (bind_Raised _ _ _ _ _ (node_buffer_overflow _)).
    + intros Hone Hc Hfit.
      destruct (n_pairs_exact m Hc Hfit) as [Hpairs Hrange].
      unfold decision_function, cast_unless_DFloat. flatten_binds.
      step (hash_to_svm_parameter_run ph prm w Hprm).
      step (hash_to_svm_model_run mh model _ Hmodel).
      step (HS0 _). step (HS1 _). cbv zeta. fold m. rewrite Hone. flatten_binds.
      rewrite (size_t_of_int_id (n_pairs m)) by lia.
      erewrite bind_Ok; [|by apply load_ok]. flatten_binds.
      rewrite (int_of_size_t_id (n_pairs m)) by lia.
      erewrite bind_Ok; [|apply ALLOC_N_ok; lia]. flatten_binds.
      by rewrite (bind_Raised _ _ _ _ _ (node_buffer_overflow _)).
    + intros Hcal Hc. apply calibrated_has_probability in Hcal.
      unfold predict_proba.
      rewrite (bind_Ok _ _ _ _ _ (hash_to_svm_parameter_run ph prm w Hprm)).
      rewrite (bind_Ok _ _ _ _ _ (hash_to_svm_model_run mh model _ Hmodel)).
      cbv zeta. rewrite Hcal. unfold cast_unless_DFloat. flatten_binds.
      step (HS0 _). step (HS1 _).
      erewrite bind_Ok; [|apply ALLOC_N_ok; exact Hc]. flatten_binds.
      by rewrite (bind_Raised _ _ _ _ _ (node_buffer_overflow _)).
Qed.

Lemma a_matrix_without_rows_witness :
  let a := {| na_contiguous := true; na_shape := [0; 3]; na_data := [] |} in
  let wide := {| na_contiguous := true; na_shape := [0; 2147483647]; na_data := [] |} in
  let y := {| na_contiguous := true; na_shape := [0]; na_data := [] |} in
  let ph := Fixture.param_of_type C_SVC in
  let mh := Fixture.model_hash (Some [1%float]) in
  let prm := Fixture.decoded_parameter C_SVC in
  let model := Fixture.decoded_model (Some [1%float]) in
  let empty := {| prob_l := 0; prob_y := []; prob_x := [] |} in
  @predict Fixture.engine Fixture.converter Fixture.runtime (DFloat a) ph mh Fixture.w0
  = (Fixture.w0, Ok (DFloat {| na_contiguous := true; na_shape := [0]; na_data := [] |}))
  ∧ @decision_function Fixture.engine Fixture.converter Fixture.runtime
      (DFloat a) ph mh Fixture.w0
    = (Fixture.w0,
       Ok (DFloat {| na_contiguous := true; na_shape := [0; 1]; na_data := [] |}))
  ∧ @predict_proba Fixture.engine Fixture.converter Fixture.runtime
      (DFloat a) ph mh Fixture.w0
    = (Fixture.w0,
       Ok (DFloat {| na_contiguous := true; na_shape := [0; 2]; na_data := [] |}))
  ∧ @train Fixture.engine Fixture.converter Fixture.runtime
      (DFloat a) (DFloat y) ph Fixture.w0
    = ({| live := [];
          trace := [E_svm_set_print_string_function;
                    E_svm_train empty prm;
                    E_svm_free_and_destroy_model (@svm_train Fixture.engine empty prm)] |},
       Ok (RHash (@svm_model_to_rb_hash Fixture.converter
                    (@svm_train Fixture.engine empty prm))))
  ∧ @predict Fixture.engine Fixture.converter Fixture.runtime (DFloat wide) ph mh Fixture.w0
    = ({| live := [N_model; N_parameter]; trace := [] |}, Raised ArgumentError)
  ∧ @decision_function Fixture.engine Fixture.converter Fixture.runtime
      (DFloat wide) ph mh Fixture.w0
    = ({| live := [N_dec_values; N_model; N_parameter]; trace := [] |},
       Raised ArgumentError)
  ∧ @predict_proba Fixture.engine Fixture.converter Fixture.runtime
      (DFloat wide) ph mh Fixture.w0
    = ({| live := [N_probs; N_model; N_parameter]; trace := [] |}, Raised ArgumentError).
Proof.
  intros a wide y ph mh prm model empty.
  assert (Hcal : calibrated prm model).
  { unfold calibrated. simpl. split; [by left|]. split; discriminate. }
  destruct (@a_matrix_without_rows Fixture.engine Fixture.converter Fixture.runtime
              a y 3 ph mh prm model Fixture.w0 eq_refl eq_refl)
    as [Hnarrow _].
  destruct (@a_matrix_without_rows Fixture.engine Fixture.converter Fixture.runtime
              wide y 3 ph mh prm model Fixture.w0 eq_refl eq_refl)
    as [_ Hwide].
  destruct Hnarrow as (Hpredict & _ & Hdecision & Hproba & Htrain); [concrete|].
  destruct Hwide as (Hpredict' & _ & Hdecision' & Hproba'); [reflexivity|].
  split; [exact Hpredict|].
  split; [apply Hdecision; [reflexivity | concrete | concrete]|].
  split; [apply Hproba; [exact Hcal | concrete]|].
  split; [exact Htrain|].
  split; [exact Hpredict'|].
  split; [apply Hdecision'; [reflexivity | concrete | concrete]|].
  apply Hproba'; [exact Hcal | concrete].
Defined.

(** ** Values that are cast *)

(** X14: an [x] that is no [Numo::DFloat] and that [Numo::DFloat.cast]
    accepts is cast exactly once, before anything else, and from there on
    the call runs as it does on the array the cast returned: in [train],
    [cross_validation], [predict] and [decision_function] for every
    input, and in [predict_proba] on the branch that predicts.  So what
    holds for a [Numo::DFloat] argument holds, after one recorded cast,
    for a Ruby Array of numbers. *)
Theorem a_castable_x_is_cast_first `{!LibSVM, !Converter, !Runtime}
    (x y ph mh : VALUE) (a : narray) prm model (k : Z) (w : world) :
  is_DFloat x = false →
  numo_cDFloat_cast x = Ok a →
  INT_MIN <= k <= INT_MAX →
  train x y ph w = train (DFloat a) y ph (after_cast x w)
  ∧ cross_validation x y ph (Fixnum k) w
    = cross_validation (DFloat a) y ph (Fixnum k) (after_cast x w)
  ∧ predict x ph mh w = predict (DFloat a) ph mh (after_cast x w)
  ∧ decision_function x ph mh w = decision_function (DFloat a) ph mh (after_cast x w)
  ∧ (rb_hash_to_svm_parameter ph = Ok prm → rb_hash_to_svm_model mh = Ok model →
     calibrated prm model →
     predict_proba x ph mh w = predict_proba (DFloat a) ph mh (after_cast x w)).
Proof.
  intros Hx Hcast Hk.
  pose proof (λ w, cast_unless_DFloat_cast x a w Hx Hcast) as Hrun.
  split; [|split; [|split; [|split]]].
  - unfold train. rewrite (bind_Ok _ _ _ _ _ (Hrun w)).
    by rewrite (bind_Ok _ _ _ _ _ (cast_unless_DFloat_id a _)).
  - unfold cross_validation. rewrite !(bind_Ok _ _ _ _ _ (NUM2INT_int k _ Hk)).
    rewrite (bind_Ok _ _ _ _ _ (Hrun w)).
    by rewrite (bind_Ok _ _ _ _ _ (cast_unless_DFloat_id a _)).
  - unfold predict. rewrite (bind_Ok _ _ _ _ _ (Hrun w)).
    by rewrite (bind_Ok _ _ _ _ _ (cast_unless_DFloat_id a _)).
  - unfold decision_function. rewrite (bind_Ok _ _ _ _ _ (Hrun w)).
    by rewrite (bind_Ok _ _ _ _ _ (cast_unless_DFloat_id a _)).
  - intros Hprm Hmodel Hcal. apply calibrated_has_probability in Hcal.
    unfold predict_proba.
    rewrite !(bind_Ok _ _ _ _ _ (hash_to_svm_parameter_run ph prm _ Hprm)).
    rewrite !(bind_Ok _ _ _ _ _ (hash_to_svm_model_run mh model _ Hmodel)).
    cbv zeta. rewrite Hcal. flatten_binds.
    rewrite (bind_Ok _ _ _ _ _ (Hrun _)).
    by rewrite (bind_Ok _ _ _ _ _ (cast_unless_DFloat_id a _)).
Qed.

Lemma a_castable_x_is_cast_first_witness :
  let x := RArray [RArray [RFloat 1; RFloat 2]; RArray [RFloat 3; RFloat 4]] in
  let a := {| na_contiguous := true; na_shape := [2; 2];
              na_data := [1; 2; 3; 4]%float |} in
  let y := Fixture.vector [0; 1]%float in
  let ph := Fixture.param_of_type C_SVC in
  let mh := Fixture.model_hash (Some [1%float]) in
  let w' := after_cast x Fixture.w0 in
  @train Fixture.engine Fixture.converter Fixture.runtime x y ph Fixture.w0
  = @train Fixture.engine Fixture.converter Fixture.runtime (DFloat a) y ph w'
  ∧ @cross_validation Fixture.engine Fixture.converter Fixture.runtime
      x y ph (Fixnum 2) Fixture.w0
    = @cross_validation Fixture.engine Fixture.converter Fixture.runtime
        (DFloat a) y ph (Fixnum 2) w'
  ∧ @predict Fixture.engine Fixture.converter Fixture.runtime x ph mh Fixture.w0
    = @predict Fixture.engine Fixture.converter Fixture.runtime (DFloat a) ph mh w'
  ∧ @decision_function Fixture.engine Fixture.converter Fixture.runtime x ph mh Fixture.w0
    = @decision_function Fixture.engine Fixture.converter Fixture.runtime
        (DFloat a) ph mh w'
  ∧ (@rb_hash_to_svm_parameter Fixture.converter ph = Ok (Fixture.decoded_parameter C_SVC) →
     @rb_hash_to_svm_model Fixture.converter mh
     = Ok (Fixture.decoded_model (Some [1%float])) →
     calibrated (Fixture.decoded_parameter C_SVC) (Fixture.decoded_model (Some [1%float])) →
     @predict_proba Fixture.engine Fixture.converter Fixture.runtime x ph mh Fixture.w0
     = @predict_proba Fixture.engine Fixture.converter Fixture.runtime (DFloat a) ph mh w').
Proof.
  intros x a y ph mh w'.
  apply (@a_castable_x_is_cast_first Fixture.engine Fixture.converter Fixture.runtime
           x y ph mh a (Fixture.decoded_parameter C_SVC)
           (Fixture.decoded_model (Some [1%float])) 2 Fixture.w0).
  - reflexivity.
  - reflexivity.
  - unfold INT_MIN, INT_MAX. lia.
Defined.

(** ** Memory that was not written *)

(** X15: no cell of freshly allocated memory reaches the engine or the
    result.  The operations give the same run, call for call and value
    for value, whatever [xmalloc] and [rb_narray_new] hand out (two
    runtimes are compared): every node of every sample is written before
    the engine sees it, and every cell of the result is written before
    it is returned, provided the engine writes as many values as LIBSVM
    documents. *)
Theorem fresh_memory_never_shows (L : LibSVM) (C : Converter) (R1 R2 : Runtime)
    (a y : narray) (n d k : Z) (ph mh : VALUE) prm model (w : world) :
  rb_hash_to_svm_parameter ph = Ok prm →
  rb_hash_to_svm_model mh = Ok model →
  dense_matrix a n d →
  n <= Z.of_nat (length (na_data y)) →
  INT_MIN <= k <= INT_MAX →
  let m := assign_param model prm in
  let pairs := nr_class model * (nr_class model - 1) / 2 in
  let problem :=
    {| prob_l := n; prob_y := take (Z.to_nat n) (na_data y);
       prob_x := sparse_rows (na_data a) d (Z.to_nat n) |} in
  @train L C R1 (DFloat a) (DFloat y) ph w = @train L C R2 (DFloat a) (DFloat y) ph w
  ∧ (Z.of_nat (length (svm_cross_validation problem prm k)) = n →
     @cross_validation L C R1 (DFloat a) (DFloat y) ph (Fixnum k) w
     = @cross_validation L C R2 (DFloat a) (DFloat y) ph (Fixnum k) w)
  ∧ @predict L C R1 (DFloat a) ph mh w = @predict L C R2 (DFloat a) ph mh w
  ∧ ((one_value_per_sample m = false →
      0 <= nr_class model ∧ nr_class model * (nr_class model - 1) <= INT_MAX
      ∧ n * pairs <= INT_MAX) →
     (∀ i, (i < Z.to_nat n)%nat →
        Z.of_nat (length (svm_predict_values m (sparse_row a d i)))
        = if one_value_per_sample m then 1 else pairs) →
     @decision_function L C R1 (DFloat a) ph mh w
     = @decision_function L C R2 (DFloat a) ph mh w)
  ∧ (calibrated prm model →
     0 <= nr_class model <= INT_MAX → n * nr_class model <= INT_MAX →
     (∀ i, (i < Z.to_nat n)%nat →
        Z.of_nat (length (svm_predict_probability m (sparse_row a d i)))
        = nr_class model) →
     @predict_proba L C R1 (DFloat a) ph mh w = @predict_proba L C R2 (DFloat a) ph mh w).
Proof.
  intros Hprm Hmodel Hmat Hy Hk m pairs problem.
  split; [|split; [|split; [|split]]].
  - by rewrite !(train_ok a y n d ph prm w Hprm Hmat Hy).
  - intros Hcv.
    by rewrite !(cross_validation_ok a y n d k ph prm w Hprm Hmat Hy Hk Hcv).
  - by rewrite !(predict_ok a n d ph mh prm model w Hprm Hmodel Hmat).
  - intros Hfit Hcontract.
    by rewrite !(decision_function_exact a n d ph mh prm model w Hprm Hmodel Hmat
                   Hfit Hcontract).
  - intros Hcal Hc Hnc Hcontract. apply calibrated_has_probability in Hcal.
    by rewrite !(predict_proba_exact a n d ph mh prm model w Hprm Hmodel Hcal Hmat
                   Hc Hnc Hcontract).
Qed.

Lemma fresh_memory_never_shows_witness :
  let a := {| na_contiguous := true; na_shape := [2; 2];
              na_data := [1; 2; 3; 4]%float |} in
  let y := {| na_contiguous := true; na_shape := [2]; na_data := [0; 1]%float |} in
  let ph := Fixture.param_of_type C_SVC in
  let mh := Fixture.model_hash (Some [1%float]) in
  let prm := Fixture.decoded_parameter C_SVC in
  let model := Fixture.decoded_model (Some [1%float]) in
  let m := assign_param model prm in
  let problem :=
    {| prob_l := 2; prob_y := take (Z.to_nat 2) (na_data y);
       prob_x := sparse_rows (na_data a) 2 (Z.to_nat 2) |} in
  let L := Fixture.engine in
  let C := Fixture.converter in
  let R1 := Fixture.runtime in
  let R2 := stale_runtime in
  @train L C R1 (DFloat a) (DFloat y) ph Fixture.w0
  = @train L C R2 (DFloat a) (DFloat y) ph Fixture.w0
  ∧ (Z.of_nat (length (@svm_cross_validation L problem prm 2)) = 2 →
     @cross_validation L C R1 (DFloat a) (DFloat y) ph (Fixnum 2) Fixture.w0
     = @cross_validation L C R2 (DFloat a) (DFloat y) ph (Fixnum 2) Fixture.w0)
  ∧ @predict L C R1 (DFloat a) ph mh Fixture.w0
    = @predict L C R2 (DFloat a) ph mh Fixture.w0
  ∧ ((one_value_per_sample m = false →
      0 <= nr_class model ∧ nr_class model * (nr_class model - 1) <= INT_MAX
      ∧ 2 * (nr_class model * (nr_class model - 1) / 2) <= INT_MAX) →
     (∀ i, (i < Z.to_nat 2)%nat →
        Z.of_nat (length (@svm_predict_values L m (sparse_row a 2 i)))
        = if one_value_per_sample m then 1
          else nr_class model * (nr_class model - 1) / 2) →
     @decision_function L C R1 (DFloat a) ph mh Fixture.w0
     = @decision_function L C R2 (DFloat a) ph mh Fixture.w0)
  ∧ (calibrated prm model →
     0 <= nr_class model <= INT_MAX → 2 * nr_class model <= INT_MAX →
     (∀ i, (i < Z.to_nat 2)%nat →
        Z.of_nat (length (@svm_predict_probability L m (sparse_row a 2 i)))
        = nr_class model) →
     @predict_proba L C R1 (DFloat a) ph mh Fixture.w0
     = @predict_proba L C R2 (DFloat a) ph mh Fixture.w0).
Proof.
  intros a y ph mh prm model m problem L C R1 R2.
  apply (fresh_memory_never_shows L C R1 R2 a y 2 2 2 ph mh prm model Fixture.w0).
  - reflexivity.
  - reflexivity.
  - concrete.
  - simpl. lia.
  - unfold INT_MIN, INT_MAX. lia.
Defined.

(** ** The exceptions of an operation *)

Section Exceptions.

Context (P : exn → Prop).

Lemma raises_ret {A} (a : A) : raises P (ret a).
Proof. intros w w' e. discriminate. Qed.

Lemma raises_undefined {A} : raises P (@undefined A).
Proof. intros w w' e. discriminate. Qed.

Lemma raises_rb_raise {A} (e : exn) : P e → raises P (@rb_raise A e).
Proof. intros He w w' e'. by intros [= _ <-]. Qed.

Lemma raises_lift {A} (r : result A) : (∀ e, r = Raised e → P e) → raises P (lift r).
Proof. intros Hr w w' e. intros [= _ ->]. by apply Hr. Qed.

Lemma raises_emit (ev : event) : raises P (emit ev).
Proof. intros w w' e. discriminate. Qed.

Lemma raises_alloc (k : native) : raises P (alloc k).
Proof. intros w w' e. discriminate. Qed.

Lemma raises_xfree (k : native) : raises P (xfree k).
Proof. intros w w' e. unfold xfree. by destruct (release k (live w)). Qed.

Lemma raises_bind {A B} (m : M A) (f : A → M B) :
  raises P m → (∀ a, raises P (f a)) → raises P (bind m f).
Proof.
  intros Hm Hf w w' e. unfold bind.
  destruct (m w) as [w1 [a | e1 |]] eqn:Hrun; intros Hrest.
  - by apply (Hf a w1 w').
  - injection Hrest as _ <-. by apply (Hm w w1).
  - discriminate.
Qed.

Lemma raises_for_lt {St} n (body : Z → St → M St) s :
  (∀ i s, raises P (body i s)) → raises P (for_lt n body s).
Proof.
  intros Hbody. unfold for_lt. generalize 0 as i. revert s.
  induction (Z.to_nat n) as [|count IH]; intros s i; simpl.
  - apply raises_ret.
  - apply raises_bind; auto.
Qed.

Lemma raises_if {A} (b : bool) (m1 m2 : M A) :
  raises P m1 → raises P m2 → raises P (if b then m1 else m2).
Proof. by destruct b. Qed.

Lemma raises_load {A} (buf : list A) (i : Z) : raises P (load buf i).
Proof.
  unfold load. destruct (decide _); [destruct (_ !! _)|];
    auto using raises_ret, raises_undefined.
Qed.

Lemma raises_store {A} (buf : list A) (i : Z) (v : A) : raises P (store buf i v).
Proof. unfold store. destruct (decide _); auto using raises_ret, raises_undefined. Qed.

Lemma raises_store_many {A} (buf : list A) (off : Z) (vals : list A) :
  raises P (store_many buf off vals).
Proof.
  unfold store_many. destruct (decide _); auto using raises_ret, raises_undefined.
Qed.

Lemma raises_ALLOC_N {A} (k : native) (fresh : nat → A) (n : Z) :
  P ArgumentError → raises P (ALLOC_N k fresh n).
Proof.
  intros Harg. unfold ALLOC_N. destruct (decide _).
  - apply raises_bind; [apply raises_alloc | intros; apply raises_ret].
  - by apply raises_rb_raise.
Qed.

Lemma raises_NUM2INT (v : VALUE) : P TypeError → P RangeError → raises P (NUM2INT v).
Proof.
  intros Htype Hrange. unfold NUM2INT.
  destruct v; try destruct (truncate _); try destruct (decide _);
    auto using raises_ret, raises_rb_raise.
Qed.

Lemma raises_StringValuePtr (v : VALUE) : P TypeError → raises P (StringValuePtr v).
Proof.
  intros Htype. unfold StringValuePtr.
  destruct v; auto using raises_ret, raises_rb_raise.
Qed.

Lemma raises_cast_unless_DFloat `{!Runtime} (v : VALUE) :
  (∀ e, numo_cDFloat_cast v = Raised e → P e) → raises P (cast_unless_DFloat v).
Proof.
  intros Hv. unfold cast_unless_DFloat.
  destruct v; try apply raises_ret;
    (apply raises_bind; [apply raises_emit | intros; by apply raises_lift]).
Qed.

End Exceptions.

(** Walks through a function body whose helpers are unfolded. *)
Ltac raises_walk :=
  repeat match goal with
    | |- raises _ (bind _ _) => apply raises_bind; [|intros ?]
    | |- raises _ (for_lt _ _ _) => apply raises_for_lt; intros ? ?; cbv beta zeta
    | |- raises _ (if _ then _ else _) => apply raises_if
    | |- raises _ (match ?o with Some _ => _ | None => _ end) => destruct o
    | |- raises _ (ret _) => apply raises_ret
    | |- raises _ (lift _) => apply raises_lift
    | |- raises _ (emit _) => apply raises_emit
    | |- raises _ (alloc _) => apply raises_alloc
    | |- raises _ (xfree _) => apply raises_xfree
    | |- raises _ (load _ _) => apply raises_load
    | |- raises _ (store _ _ _) => apply raises_store
    | |- raises _ (store_many _ _ _) => apply raises_store_many
    | |- raises _ (ALLOC_N _ _ _) => apply raises_ALLOC_N
    | |- raises _ (NUM2INT _) => apply raises_NUM2INT
    | |- raises _ (StringValuePtr _) => apply raises_StringValuePtr
    | |- raises _ (cast_unless_DFloat _) => apply raises_cast_unless_DFloat
    end.

(** Unfolds the helpers of the seven operations down to the steps that
    [raises_walk] knows. *)
Ltac open_helpers :=
  unfold hash_to_svm_parameter, hash_to_svm_model, xfree_svm_parameter, xfree_svm_model,
    prepare_problem, free_problem, fill_row, put_sentinel, update, NA_SHAPE,
    call_svm_train, call_svm_cross_validation, call_svm_predict,
    call_svm_predict_values, call_svm_predict_probability, call_svm_load_model,
    call_svm_save_model, svm_free_and_destroy_model;
  cbv zeta.

(** X16: the exceptions an operation can leave with are those of its
    collaborators and of the argument conversions, and no other.
    [train] and the three predictions raise only what
    [Numo::DFloat.cast] raises on an array argument, what a decoder
    raises on a mapping, or the [ArgumentError] of [ALLOC_N] for a
    negative count; [cross_validation] in addition the [TypeError] or
    [RangeError] of [NUM2INT]; [save_svm_model] what a decoder raises or
    the [TypeError] of [StringValuePtr]; [load_svm_model] that
    [TypeError] only.  The file raises nothing of its own: not for a
    shape that does not fit, not for a file that cannot be read or
    written, not for a model without probability information.  (Running
    out of memory is left out of the model.) *)
Theorem the_exceptions_of_each_operation `{!LibSVM, !Converter, !Runtime}
    (x_val y_val ph mh nr_folds filename : VALUE) :
  let from_arrays e :=
    numo_cDFloat_cast x_val = Raised e ∨ numo_cDFloat_cast y_val = Raised e in
  let from_parameter e := rb_hash_to_svm_parameter ph = Raised e in
  let from_model e := rb_hash_to_svm_model mh = Raised e in
  raises (λ e, from_arrays e ∨ from_parameter e ∨ e = ArgumentError)
    (train x_val y_val ph)
  ∧ raises (λ e, e = TypeError ∨ e = RangeError ∨ from_arrays e ∨ from_parameter e
                 ∨ e = ArgumentError)
      (cross_validation x_val y_val ph nr_folds)
  ∧ raises (λ e, numo_cDFloat_cast x_val = Raised e ∨ from_parameter e ∨ from_model e
                 ∨ e = ArgumentError)
      (predict x_val ph mh)
  ∧ raises (λ e, numo_cDFloat_cast x_val = Raised e ∨ from_parameter e ∨ from_model e
                 ∨ e = ArgumentError)
      (decision_function x_val ph mh)
  ∧ raises (λ e, numo_cDFloat_cast x_val = Raised e ∨ from_parameter e ∨ from_model e
                 ∨ e = ArgumentError)
      (predict_proba x_val ph mh)
  ∧ raises (λ e, e = TypeError) (load_svm_model filename)
  ∧ raises (λ e, from_parameter e ∨ from_model e ∨ e = TypeError)
      (save_svm_model filename ph mh).
Proof.
  intros from_arrays from_parameter from_model.
  unfold from_arrays, from_parameter, from_model.
  repeat split.
  - unfold train. open_helpers. raises_walk. all: intros; tauto.
  - unfold cross_validation. open_helpers. raises_walk. all: intros; tauto.
  - unfold predict. open_helpers. raises_walk. all: intros; tauto.
  - unfold decision_function. open_helpers. raises_walk. all: intros; tauto.
  - unfold predict_proba. open_helpers. raises_walk. all: intros; tauto.
  - unfold load_svm_model. open_helpers. raises_walk. all: intros; tauto.
  - unfold save_svm_model. open_helpers. raises_walk. all: intros; tauto.
Qed.

Lemma the_exceptions_of_each_operation_witness :
  let x := {| na_contiguous := true; na_shape := [1; 1]; na_data := [1%float] |} in
  let ph := Fixture.param_of_type C_SVC in
  let mh := RHash [("nr_class", Fixnum 2)] in
  @numo_cDFloat_cast Fixture.runtime (DFloat x) = Raised InvalidModelError
  ∨ @rb_hash_to_svm_parameter Fixture.converter ph = Raised InvalidModelError
  ∨ @rb_hash_to_svm_model Fixture.converter mh = Raised InvalidModelError
  ∨ InvalidModelError = ArgumentError.
Proof.
  intros x ph mh.
  exact (proj1 (proj2 (proj2
           (@the_exceptions_of_each_operation Fixture.engine Fixture.converter
              Fixture.runtime (DFloat x) Qnil ph mh Qnil Qnil)))
           Fixture.w0 (holding [N_parameter] Fixture.w0) InvalidModelError eq_refl).
Defined.

(** ** The values of an operation *)

Lemma returns_ret {A} (Q : A → Prop) (a : A) : Q a → returns Q (ret a).
Proof. intros Ha w w' a'. by intros [= _ <-]. Qed.

Lemma returns_bind_with {A B} (Q1 : A → Prop) (Q : B → Prop) (m : M A) (f : A → M B) :
  returns Q1 m → (∀ a, Q1 a → returns Q (f a)) → returns Q (bind m f).
Proof.
  intros Hm Hf w w' b Hrun. apply bind_inv_Ok in Hrun as (w1 & a & Hrun & Hrest).
  by apply (Hf a (Hm _ _ _ Hrun) w1 w').
Qed.

Lemma returns_bind {A B} (Q : B → Prop) (m : M A) (f : A → M B) :
  (∀ a, returns Q (f a)) → returns Q (bind m f).
Proof.
  intros Hf. apply (returns_bind_with (λ _, True)); [done|]. intros a _. apply Hf.
Qed.

Lemma returns_if {A} (Q : A → Prop) (b : bool) (m1 m2 : M A) :
  returns Q m1 → returns Q m2 → returns Q (if b then m1 else m2).
Proof. by destruct b. Qed.

Lemma rb_narray_new_fresh `{!Runtime} (ndim : nat) (shape : list Z) (pt : list float) :
  (ndim <= length shape)%nat → fresh_DFloat ndim (written (rb_narray_new ndim shape) pt).
Proof.
  intros Hdim. eexists. split; [reflexivity|]. split; [done|].
  simpl. rewrite length_take. lia.
Qed.

(** Goes to the last statement of a function body. *)
Ltac to_the_return :=
  cbv zeta;
  repeat match goal with
    | |- returns _ (bind _ _) => apply returns_bind; intros ?; cbv zeta
    end.

(** X17: what each operation returns, whenever it returns and whatever
    it was given.  [train] returns a Hash; [cross_validation] and
    [predict] a new contiguous [Numo::DFloat] of one dimension;
    [decision_function] one of one or of two dimensions;
    [predict_proba] [nil] or one of two dimensions; [load_svm_model] an
    Array of two slots that are both [nil] or both a Hash; and
    [save_svm_model] [true] or [false]. *)
Theorem the_values_of_each_operation `{!LibSVM, !Converter, !Runtime}
    (x_val y_val ph mh nr_folds filename : VALUE) :
  returns (λ v, ∃ h, v = RHash h) (train x_val y_val ph)
  ∧ returns (fresh_DFloat 1) (cross_validation x_val y_val ph nr_folds)
  ∧ returns (fresh_DFloat 1) (predict x_val ph mh)
  ∧ returns (λ v, fresh_DFloat 1 v ∨ fresh_DFloat 2 v) (decision_function x_val ph mh)
  ∧ returns (λ v, v = Qnil ∨ fresh_DFloat 2 v) (predict_proba x_val ph mh)
  ∧ returns (λ v, v = RArray [Qnil; Qnil] ∨ ∃ h1 h2, v = RArray [RHash h1; RHash h2])
      (load_svm_model filename)
  ∧ returns (λ v, v = Qtrue ∨ v = Qfalse) (save_svm_model filename ph mh).
Proof.
  repeat split.
  - unfold train. to_the_return. apply returns_ret. by eexists.
  - unfold cross_validation. to_the_return. apply returns_ret.
    apply rb_narray_new_fresh. simpl. lia.
  - unfold predict. to_the_return. apply returns_ret.
    apply rb_narray_new_fresh. simpl. lia.
  - unfold decision_function. to_the_return. apply returns_ret.
    destruct (one_value_per_sample _); [left | right];
      apply rb_narray_new_fresh; simpl; lia.
  - unfold predict_proba. cbv zeta.
    apply returns_bind; intros prm. apply returns_bind; intros model.
    apply (returns_bind_with (λ v, v = Qnil ∨ fresh_DFloat 2 v)).
    + apply returns_if; [|by apply returns_ret; left].
      to_the_return. apply returns_ret. right.
      apply rb_narray_new_fresh. simpl. lia.
    + intros v Hv. to_the_return. by apply returns_ret.
  - unfold load_svm_model.
    apply returns_bind; intros path. apply returns_bind; intros model.
    apply (returns_bind_with
             (λ hashes : VALUE * VALUE,
                hashes = (Qnil, Qnil) ∨ ∃ h1 h2, hashes = (RHash h1, RHash h2))).
    + match goal with |- returns _ (match ?o with _ => _ end) => destruct o end.
      * to_the_return. apply returns_ret. right. by eexists _, _.
      * apply returns_ret. by left.
    + intros hashes [-> | (h1 & h2 & ->)]; apply returns_ret; [by left|].
      right. by eexists _, _.
  - unfold save_svm_model. to_the_return. apply returns_ret.
    destruct (decide _); [by right | by left].
Qed.

Lemma the_values_of_each_operation_witness :
  let v := DFloat {| na_contiguous := true; na_shape := [2; 1];
                     na_data := [1; 3]%float |} in
  fresh_DFloat 1 v ∨ fresh_DFloat 2 v.
Proof.
  intros v.
  refine (proj1 (proj2 (proj2 (proj2
            (@the_values_of_each_operation Fixture.engine Fixture.converter
               Fixture.runtime (Fixture.matrix 2 2 [1; 2; 3; 4]%float) Qnil
               (Fixture.param_of_type C_SVC) (Fixture.model_hash None) Qnil Qnil))))
            Fixture.w0 _ v _).
  vm_compute. reflexivity.
Defined.

(** ** The override, call by call *)

Section Override.

Context `{!LibSVM, !Converter}.

(** A run of [save_svm_model] on a String path. *)
Lemma save_svm_model_ok (path : string) (ph mh : VALUE) prm model (w : world) :
  rb_hash_to_svm_parameter ph = Ok prm →
  rb_hash_to_svm_model mh = Ok model →
  save_svm_model (RString path) ph mh w
  = ({| live := live w;
        trace := trace w ++ [E_svm_save_model path (assign_param model prm)] |},
     Ok (if decide (svm_save_model path (assign_param model prm) < 0)
         then Qfalse else Qtrue)).
Proof.
  intros Hprm Hmodel. unfold save_svm_model.
  step (hash_to_svm_parameter_run ph prm w Hprm).
  step (hash_to_svm_model_run mh model _ Hmodel).
  unfold StringValuePtr, call_svm_save_model. flatten_binds.
  step (emit_run (E_svm_save_model path (assign_param model prm)) _).
  unfold xfree_svm_model, xfree_svm_parameter.
  erewrite bind_Ok; [|by apply xfree_head].
  erewrite bind_Ok; [|by apply xfree_head].
  done.
Qed.

End Override.

(** C4: with mappings that decode to a parameter record [prm] and a
    model record [model], the model every engine entry point receives is
    [model] with its embedded parameter record overwritten by [prm]
    ([m] below: its [param] is [prm], whatever [param model] was), and
    the calls are made.  On a matrix of [n_samples] rows [predict] calls
    [svm_predict] once per row, each time on [m]; [decision_function]
    calls [svm_predict_values] once per row on [m]; on the branch that
    predicts, [predict_proba] calls [svm_predict_probability] once per
    row on [m]; and [save_svm_model] hands [m] to [svm_save_model].
    These are the only calls of each run, so the override precedes every
    one of them.  (Sizes are those a C [int] holds, and for
    [decision_function] and [predict_proba] the engine writes, for the
    rows that are there, as many values as LIBSVM documents.)  And on
    every other path too, whatever the arguments and however the call
    ends, no call into the engine carries another parameter record. *)
Theorem engine_sees_the_caller_parameter `{!LibSVM, !Converter, !Runtime}
    (a : narray) (n d : Z) (path : string) (ph mh : VALUE) prm model (w : world) :
  rb_hash_to_svm_parameter ph = Ok prm →
  rb_hash_to_svm_model mh = Ok model →
  dense_matrix a n d →
  let m := assign_param model prm in
  let pairs := nr_class model * (nr_class model - 1) / 2 in
  param m = prm
  ∧ predict (DFloat a) ph mh w
    = (after_calls (λ i, E_svm_predict m (sparse_row a d i)) n w,
       Ok (DFloat {| na_contiguous := true; na_shape := [n];
                     na_data := (λ i, svm_predict m (sparse_row a d i))
                                  <$> seq 0 (Z.to_nat n) |}))
  ∧ ((one_value_per_sample m = false →
      0 <= nr_class model ∧ nr_class model * (nr_class model - 1) <= INT_MAX
      ∧ n * pairs <= INT_MAX) →
     (∀ i, (i < Z.to_nat n)%nat →
        Z.of_nat (length (svm_predict_values m (sparse_row a d i)))
        = if one_value_per_sample m then 1 else pairs) →
     decision_function (DFloat a) ph mh w
     = (after_calls (λ i, E_svm_predict_values m (sparse_row a d i)) n w,
        Ok (DFloat {| na_contiguous := true;
                      na_shape := if one_value_per_sample m then [n] else [n; pairs];
                      na_data := row_major (λ i, svm_predict_values m (sparse_row a d i))
                                   n |})))
  ∧ (calibrated prm model →
     0 <= nr_class model <= INT_MAX → n * nr_class model <= INT_MAX →
     (∀ i, (i < Z.to_nat n)%nat →
        Z.of_nat (length (svm_predict_probability m (sparse_row a d i)))
        = nr_class model) →
     predict_proba (DFloat a) ph mh w
     = (after_calls (λ i, E_svm_predict_probability m (sparse_row a d i)) n w,
        Ok (DFloat {| na_contiguous := true; na_shape := [n; nr_class model];
                      na_data := row_major (λ i, svm_predict_probability m
                                                   (sparse_row a d i)) n |})))
  ∧ save_svm_model (RString path) ph mh w
    = ({| live := live w; trace := trace w ++ [E_svm_save_model path m] |},
       Ok (if decide (svm_save_model path m < 0) then Qfalse else Qtrue))
  ∧ (∀ x_val filename,
       emits (under_caller_parameter ph) (predict x_val ph mh)
       ∧ emits (under_caller_parameter ph) (decision_function x_val ph mh)
       ∧ emits (under_caller_parameter ph) (predict_proba x_val ph mh)
       ∧ emits (under_caller_parameter ph) (save_svm_model filename ph mh)).
Proof.
  intros Hprm Hmodel Hmat m pairs.
  split; [done|]. split; [|split; [|split; [|split]]].
  - exact (predict_ok a n d ph mh prm model w Hprm Hmodel Hmat).
  - intros Hfit Hcontract.
    exact (decision_function_exact a n d ph mh prm model w Hprm Hmodel Hmat
             Hfit Hcontract).
  - intros Hcal Hc Hnc Hcontract. apply calibrated_has_probability in Hcal.
    exact (predict_proba_exact a n d ph mh prm model w Hprm Hmodel Hcal Hmat
             Hc Hnc Hcontract).
  - exact (save_svm_model_ok path ph mh prm model w Hprm Hmodel).
  - intros x_val filename. apply calls_carry_the_caller_parameter.
Qed.

Lemma engine_sees_the_caller_parameter_witness :
  let a := {| na_contiguous := true; na_shape := [2; 2];
              na_data := [1; 2; 3; 4]%float |} in
  let ph := Fixture.param_of_type NU_SVC in
  let mh := Fixture.model_hash_of_type C_SVC (Some [1%float]) in
  let prm := Fixture.decoded_parameter NU_SVC in
  let model := Fixture.decoded_model_of_type C_SVC (Some [1%float]) in
  let m := assign_param model prm in
  let row1 := toSparseSample [1; 2]%float in
  let row2 := toSparseSample [3; 4]%float in
  svm_type (param model) = C_SVC
  ∧ svm_type (param m) = NU_SVC
  ∧ @predict Fixture.engine Fixture.converter Fixture.runtime (DFloat a) ph mh Fixture.w0
    = ({| live := []; trace := [E_svm_predict m row1; E_svm_predict m row2] |},
       Ok (DFloat {| na_contiguous := true; na_shape := [2];
                     na_data := [1; 3]%float |}))
  ∧ @decision_function Fixture.engine Fixture.converter Fixture.runtime
      (DFloat a) ph mh Fixture.w0
    = ({| live := [];
          trace := [E_svm_predict_values m row1; E_svm_predict_values m row2] |},
       Ok (DFloat {| na_contiguous := true; na_shape := [2; 1];
                     na_data := [1; 3]%float |}))
  ∧ @predict_proba Fixture.engine Fixture.converter Fixture.runtime
      (DFloat a) ph mh Fixture.w0
    = ({| live := [];
          trace := [E_svm_predict_probability m row1;
                    E_svm_predict_probability m row2] |},
       Ok (DFloat {| na_contiguous := true; na_shape := [2; 2];
                     na_data := [1; 1; 3; 3]%float |}))
  ∧ @save_svm_model Fixture.engine Fixture.converter (RString "model.txt") ph mh
      Fixture.w0
    = ({| live := []; trace := [E_svm_save_model "model.txt" m] |}, Ok Qtrue).
Proof.
  intros a ph mh prm model m row1 row2.
  destruct (@engine_sees_the_caller_parameter Fixture.engine Fixture.converter
              Fixture.runtime a 2 2 "model.txt" ph mh prm model Fixture.w0
              eq_refl eq_refl)
    as (Hparam & Hpredict & Hdecision & Hproba & Hsave & _); [concrete|].
  split; [reflexivity|].
  split; [reflexivity|].
  split; [exact Hpredict|].
  split; [apply Hdecision; [intros _; concrete | intros i Hi; reflexivity]|].
  split; [|exact Hsave].
  apply Hproba; [|concrete|concrete|intros i Hi; reflexivity].
  unfold calibrated. simpl. split; [by right|]. split; discriminate.
Defined.
